(** * Algorithmic-Trading-Bot: signal generation, backtest ledger and risk checks

    A shallow embedding of [strategy.py], [backtester.py] and the trade
    validation of [risk_manager.py].

    Numbers are IEEE 754 binary64 values (Rocq's primitive [float]), the
    data type of a Python [float] and of a pandas/numpy [float64] column, so
    that NaN, the infinities, signed zeros and rounding behave as they do in
    the program.  A pandas [DataFrame] is an index together with a finite map
    from column names to columns; the frames the strategies work on live in a
    store of objects, because [generate_signals] first copies its argument
    and then assigns columns of the copy in place. *)

From Stdlib Require Import ZArith Floats.
From stdpp Require Import gmap strings list.

Set Warnings "-inexact-float".

(** ** Numbers *)

Module Num.

(** Leibniz equality of binary64 values is decidable. *)
#[global] Instance float_eq_dec : EqDecision float.
Proof.
  intros x y. destruct (Leibniz.eqb x y) eqn:E.
  - left. by apply Leibniz.eqb_spec.
  - right. intros H. apply Leibniz.eqb_spec in H. congruence.
Defined.

#[global] Instance float_inhabited : Inhabited float := populate 0%float.

(** Conversion of a (small) integer, as numpy does when an [int64] column
    takes part in float arithmetic. *)
Definition float_of_Z (z : Z) : float :=
  match z with
  | Z0 => 0%float
  | Zpos _ => of_uint63 (Uint63.of_Z z)
  | Zneg p => (- of_uint63 (Uint63.of_Z (Zpos p)))%float
  end.

Definition float_of_nat (n : nat) : float := float_of_Z (Z.of_nat n).

(** [x != x], the test for a missing value. *)
Definition isnan (x : float) : bool := negb (x =? x)%float.

Definition isinf (x : float) : bool :=
  ((x =? infinity) || (x =? neg_infinity))%float.

(** Python's [x > y] and [x >= y] are [y < x] and [y <= x]. *)
Definition gtb (x y : float) : bool := (y <? x)%float.
Definition geb (x y : float) : bool := (y <=? x)%float.

Definition fsum (xs : list float) : float :=
  foldl PrimFloat.add 0%float xs.

End Num.
Export Num.

(** ** The pandas operations the program uses *)

Module Pandas.
Local Open Scope float_scope.

(** A column is an [int64] or a [float64] array. *)
Inductive Series :=
| IntSeries (xs : list Z)
| FloatSeries (xs : list float).

#[global] Instance Series_eq_dec : EqDecision Series.
Proof. solve_decision. Defined.

Definition to_float (s : Series) : list float :=
  match s with
  | IntSeries xs => float_of_Z <$> xs
  | FloatSeries xs => xs
  end.

(** [s.diff()]: the first entry has no predecessor and is NaN; the result
    is a [float64] column whatever the input was. *)
Definition diff (xs : list float) : list float :=
  match xs with
  | [] => []
  | _ :: tl => nan :: zip_with (λ prev cur, cur - prev) xs tl
  end.

(** [s.where(cond, other)]: keep the entries where [cond] holds. *)
Definition where_ (cond : float → bool) (other : float) (xs : list float)
  : list float :=
  (λ x, if cond x then x else other) <$> xs.

(** The window functions first turn infinities into missing values. *)
Definition prep_values (xs : list float) : list float :=
  (λ x, if isinf x then nan else x) <$> xs.

(** The sign bit of a value that is not NaN. *)
Definition signbit (x : float) : bool :=
  match Prim2SF x with
  | S754_zero s => s
  | S754_infinity s => s
  | S754_finite s _ _ => s
  | S754_nan => false
  end.

(** [sqrt] that answers 0 for a negative value. *)
Definition zsqrt (x : float) : float :=
  if x <? 0 then 0 else PrimFloat.sqrt x.

(** [values[a:b]] *)
Definition slice (a b : nat) (values : list float) : list float :=
  take (b - a) (drop a values).

(** The loop of pandas' window functions over the windows
    [[start[i], end[i]) = [max(0, i + 1 - w), i + 1)] of a fixed window of
    [w] rows.  A window that starts at or after the end of the one before
    (the first window, and every window when [w <= 1]) is built from an
    empty state; any other window is the state of the one before, from which
    the entries between the two starts are removed and to which the new
    entry is added. *)
Fixpoint roll {State} (init : float → State)
    (add remove : float → State → State) (calc : State → float)
    (w : nat) (values : list float) (st : State) (rows : list nat)
  : list float :=
  match rows with
  | [] => []
  | i :: tl =>
      let s := (S i - w)%nat in
      let e := S i in
      let st' :=
        if (i =? 0)%nat || (i <=? s)%nat
        then foldl (λ st val, add val st)
               (init (default nan (values !! s))) (slice s e values)
        else foldl (λ st val, add val st)
               (foldl (λ st val, remove val st) st
                  (slice (i - w) s values))
               (slice i e values) in
      calc st' :: roll init add remove calc w values st' tl
  end.

(** [roll_mean] of pandas (1.5 and later): a running sum with Kahan
    compensation, the count of the observations and of the negative ones,
    and the length of the run of equal values that ends at the last
    observation. *)
Module RollMean.

Record State := {
  nobs : nat;
  sum_x : float;
  neg_ct : nat;
  compensation_add : float;
  compensation_remove : float;
  num_consecutive_same_value : nat;
  prev_value : float
}.

Definition init (first : float) : State :=
  {| nobs := 0; sum_x := 0; neg_ct := 0;
     compensation_add := 0; compensation_remove := 0;
     num_consecutive_same_value := 0; prev_value := first |}.

Definition add_mean (val : float) (st : State) : State :=
  if val =? val then
    let y := val - compensation_add st in
    let t := sum_x st + y in
    {| nobs := S (nobs st);
       sum_x := t;
       neg_ct := if signbit val then S (neg_ct st) else neg_ct st;
       compensation_add := t - sum_x st - y;
       compensation_remove := compensation_remove st;
       num_consecutive_same_value :=
         if val =? prev_value st
         then S (num_consecutive_same_value st) else 1;
       prev_value := val |}
  else st.

Definition remove_mean (val : float) (st : State) : State :=
  if val =? val then
    let y := - val - compensation_remove st in
    let t := sum_x st + y in
    {| nobs := pred (nobs st);
       sum_x := t;
       neg_ct := if signbit val then pred (neg_ct st) else neg_ct st;
       compensation_add := compensation_add st;
       compensation_remove := t - sum_x st - y;
       num_consecutive_same_value := num_consecutive_same_value st;
       prev_value := prev_value st |}
  else st.

Definition calc_mean (minp : nat) (st : State) : float :=
  if (minp <=? nobs st)%nat && (0 <? nobs st)%nat then
    let result := sum_x st / float_of_nat (nobs st) in
    if (nobs st <=? num_consecutive_same_value st)%nat then prev_value st
    else if (neg_ct st =? 0)%nat && (result <? 0) then 0
    else if (neg_ct st =? nobs st)%nat && gtb result 0 then 0
    else result
  else nan.

End RollMean.

(** [s.rolling(window=w).mean()], with the default [min_periods = w]. *)
Definition rolling_mean (w : nat) (xs : list float) : list float :=
  let v := prep_values xs in
  roll RollMean.init RollMean.add_mean RollMean.remove_mean
    (RollMean.calc_mean w) w v (RollMean.init nan) (seq 0 (length v)).

(** [roll_var] of pandas (1.5 and later): Welford's running mean and sum of
    squared differences from the mean, with Kahan compensation. *)
Module RollVar.

Record State := {
  nobs : nat;
  mean_x : float;
  ssqdm_x : float;
  compensation_add : float;
  compensation_remove : float;
  num_consecutive_same_value : nat;
  prev_value : float
}.

Definition init (first : float) : State :=
  {| nobs := 0; mean_x := 0; ssqdm_x := 0;
     compensation_add := 0; compensation_remove := 0;
     num_consecutive_same_value := 0; prev_value := first |}.

Definition add_var (val : float) (st : State) : State :=
  if negb (val =? val) then st
  else
    let nobs' := S (nobs st) in
    let prev_mean := mean_x st - compensation_add st in
    let y := val - compensation_add st in
    let t := y - mean_x st in
    let delta := t in
    let mean_x' := mean_x st + delta / float_of_nat nobs' in
    {| nobs := nobs';
       mean_x := mean_x';
       ssqdm_x := ssqdm_x st + (val - prev_mean) * (val - mean_x');
       compensation_add := t + mean_x st - y;
       compensation_remove := compensation_remove st;
       num_consecutive_same_value :=
         if val =? prev_value st
         then S (num_consecutive_same_value st) else 1;
       prev_value := val |}.

Definition remove_var (val : float) (st : State) : State :=
  if val =? val then
    let nobs' := pred (nobs st) in
    if (nobs' =? 0)%nat then
      {| nobs := nobs'; mean_x := 0; ssqdm_x := 0;
         compensation_add := compensation_add st;
         compensation_remove := compensation_remove st;
         num_consecutive_same_value := num_consecutive_same_value st;
         prev_value := prev_value st |}
    else
      let prev_mean := mean_x st - compensation_remove st in
      let y := val - compensation_remove st in
      let t := y - mean_x st in
      let delta := t in
      let mean_x' := mean_x st - delta / float_of_nat nobs' in
      {| nobs := nobs';
         mean_x := mean_x';
         ssqdm_x := ssqdm_x st - (val - prev_mean) * (val - mean_x');
         compensation_add := compensation_add st;
         compensation_remove := t + mean_x st - y;
         num_consecutive_same_value := num_consecutive_same_value st;
         prev_value := prev_value st |}
  else st.

(** With [ddof = 1]. *)
Definition calc_var (minp : nat) (st : State) : float :=
  if (Nat.max minp 1 <=? nobs st)%nat && (1 <? nobs st)%nat then
    if (nobs st =? 1)%nat
       || (nobs st <=? num_consecutive_same_value st)%nat
    then 0
    else ssqdm_x st / (float_of_nat (nobs st) - 1)
  else nan.

End RollVar.

(** [s.rolling(window=w).std()]: the square root of the rolling
    variance. *)
Definition rolling_std (w : nat) (xs : list float) : list float :=
  let v := prep_values xs in
  zsqrt <$>
    roll RollVar.init RollVar.add_var RollVar.remove_var
      (RollVar.calc_var w) w v (RollVar.init nan) (seq 0 (length v)).

(** numpy's sum of a [float64] array.  Fewer than eight entries are added
    up from left to right; up to 128 entries are added into eight running
    sums, entry [i] into sum [i mod 8], the eight sums are added in pairs and
    the entries after the last full block of eight are added to the result;
    a longer array is cut in two near the middle, at a multiple of eight,
    and the sums of the two parts are added. *)
Fixpoint block_sums (blocks : nat) (r a : list float)
  : list float * list float :=
  match blocks with
  | O => (r, a)
  | S blocks =>
      block_sums blocks (zip_with PrimFloat.add r (take 8 a)) (drop 8 a)
  end.

Definition unrolled_sum (a : list float) : float :=
  let '(r, rest) := block_sums (length a / 8 - 1) (take 8 a) (drop 8 a) in
  let r j := default 0 (r !! j) in
  foldl PrimFloat.add
    (((r 0%nat + r 1%nat) + (r 2%nat + r 3%nat))
     + ((r 4%nat + r 5%nat) + (r 6%nat + r 7%nat))) rest.

Fixpoint pairwise_sum (fuel : nat) (a : list float) : float :=
  let n := length a in
  if (n <? 8)%nat then foldl PrimFloat.add 0 a
  else if (n <=? 128)%nat then unrolled_sum a
  else
    match fuel with
    | O => nan
    | S fuel =>
        let n2 := (n / 2 - (n / 2) mod 8)%nat in
        pairwise_sum fuel (take n2 a) + pairwise_sum fuel (drop n2 a)
    end.

(** [a.sum()]: the reduction starts from 0.  Every cut leaves two parts
    shorter than the array, so its length is fuel enough. *)
Definition np_sum (a : list float) : float :=
  0 + pairwise_sum (length a) a.

(** Sample variance ([ddof = 1]) of a column without missing values, in two
    passes as pandas' [nanvar] has it; NaN for fewer than two entries. *)
Definition var (xs : list float) : float :=
  let n := length xs in
  if (n <=? 1)%nat then nan
  else
    let avg := np_sum xs / float_of_nat n in
    np_sum ((λ x, (avg - x) * (avg - x)) <$> xs) / float_of_nat (n - 1).

(** [s.ewm(span=span).mean()] with the defaults [adjust=True],
    [ignore_na=False], [min_periods=0]: the running weighted average
    [weighted] with the weight [old_wt] of the past. *)
Fixpoint ewm_loop (old_wt_factor weighted old_wt : float)
    (xs : list float) : list float :=
  match xs with
  | [] => []
  | cur :: tl =>
      let is_observation := negb (isnan cur) in
      let '(weighted', old_wt') :=
        if negb (isnan weighted) then
          let old_wt1 := old_wt * old_wt_factor in
          if is_observation then
            let w' := if negb (weighted =? cur)
                      then (old_wt1 * weighted + 1 * cur) / (old_wt1 + 1)
                      else weighted in
            (w', old_wt1 + 1)
          else (weighted, old_wt1)
        else if is_observation then (cur, old_wt)
        else (weighted, old_wt) in
      weighted' :: ewm_loop old_wt_factor weighted' old_wt' tl
  end.

Definition ewm_mean (span : nat) (xs : list float) : list float :=
  let com := (float_of_nat span - 1) / 2 in
  let alpha := 1 / (1 + com) in
  match prep_values xs with
  | [] => []
  | x0 :: tl => x0 :: ewm_loop (1 - alpha) x0 1 tl
  end.

(** [s.pct_change()]: the relative change to the previous entry (no
    filling of missing values). *)
Definition pct_change (xs : list float) : list float :=
  match xs with
  | [] => []
  | _ :: tl => nan :: zip_with (λ prev cur, cur / prev - 1) xs tl
  end.

Definition dropna (xs : list float) : list float :=
  filter (λ x, isnan x = false) xs.

(** [s.mean()] and [s.std()] of a column without missing values. *)
Definition mean (xs : list float) : float :=
  np_sum xs / float_of_nat (length xs).

Definition std (xs : list float) : float := PrimFloat.sqrt (var xs).

(** The larger of two present values. *)
Definition fmax (x y : float) : float := if x <? y then y else x.

(** [s.cummax()]: the running maximum of the present values; a missing
    entry stays missing. *)
Fixpoint cummax_from (best : option float) (xs : list float) : list float :=
  match xs with
  | [] => []
  | x :: tl =>
      if isnan x then nan :: cummax_from best tl
      else
        let b := match best with Some m => fmax m x | None => x end in
        b :: cummax_from (Some b) tl
  end.

Definition cummax (xs : list float) : list float := cummax_from None xs.

(** [s.max()]: the maximum of the present values, NaN when there is
    none. *)
Definition series_max (xs : list float) : float :=
  match dropna xs with
  | [] => nan
  | x :: tl => foldl fmax x tl
  end.

(** [s[mask]]: the entries selected by a boolean mask. *)
Fixpoint select {A} (mask : list bool) (xs : list A) : list A :=
  match mask, xs with
  | true :: m, x :: tl => x :: select m tl
  | false :: m, _ :: tl => select m tl
  | _, _ => []
  end.

(** [df.loc[mask, col] = values]: the selected entries take the values,
    in order. *)
Fixpoint assign_masked {A} (mask : list bool) (values xs : list A) : list A :=
  match mask, xs with
  | true :: m, x :: tl =>
      match values with
      | v :: vs => v :: assign_masked m vs tl
      | [] => x :: assign_masked m [] tl
      end
  | false :: m, x :: tl => x :: assign_masked m values tl
  | _, _ => xs
  end.

(** [col[cond(col)] = value]: a scalar for the entries that satisfy a
    test. *)
Definition assign_where (cond : float → bool) (value : float)
    (xs : list float) : list float :=
  (λ x, if cond x then value else x) <$> xs.

Record DataFrame := {
  df_index : list Z;
  df_columns : gmap string Series
}.

#[global] Instance DataFrame_eq_dec : EqDecision DataFrame.
Proof. solve_decision. Defined.

End Pandas.
Export Pandas.

(** ** Python objects, exceptions and the store *)

Module Py.

Inductive exn :=
| KeyError (key : string)
| IndexError
| StopIteration
| ReferenceError.

Inductive result (A : Type) :=
| Ok (a : A)
| Raise (e : exn).
Arguments Ok {A} a.
Arguments Raise {A} e.

(** A reference to a [DataFrame] object. *)
Abbreviation ref := positive.
Abbreviation heap := (gmap positive DataFrame).

(** A computation reads and updates the store and returns a value or
    raises. *)
Definition M (A : Type) : Type := heap → result A * heap.

Definition ret {A} (a : A) : M A := λ h, (Ok a, h).

Definition bind {A B} (m : M A) (k : A → M B) : M B :=
  λ h, match m h with
       | (Ok a, h') => k a h'
       | (Raise e, h') => (Raise e, h')
       end.

Definition raise {A} (e : exn) : M A := λ h, (Raise e, h).

#[global] Instance M_ret : MRet M := @ret.
#[global] Instance M_bind : MBind M := λ A B k m, bind m k.

(** Operations on the object behind a reference. *)
Definition deref (l : ref) : M DataFrame :=
  λ h, match h !! l with
       | Some df => (Ok df, h)
       | None => (Raise ReferenceError, h)
       end.

Definition store (l : ref) (df : DataFrame) : M unit :=
  λ h, (Ok tt, <[l := df]> h).

(** [data.copy()]: a new object with the same index and columns. *)
Definition copy (l : ref) : M ref :=
  λ h, match h !! l with
       | Some df => let l' := fresh (dom h) in (Ok l', <[l' := df]> h)
       | None => (Raise ReferenceError, h)
       end.

(** [data[col]] *)
Definition getitem (l : ref) (col : string) : M Series :=
  df ← deref l;
  match df_columns df !! col with
  | Some s => ret s
  | None => raise (KeyError col)
  end.

(** [data[col] = s] *)
Definition setitem (l : ref) (col : string) (s : Series) : M unit :=
  df ← deref l;
  store l {| df_index := df_index df;
             df_columns := <[col := s]> (df_columns df) |}.

(** [len(data)] *)
Definition len (l : ref) : M nat :=
  df ← deref l; ret (length (df_index df)).

(** [data.index] *)
Definition index (l : ref) : M (list Z) :=
  df ← deref l; ret (df_index df).

(** [xs[i]] and [s.iloc[i]] for a position [i >= 0]. *)
Definition item {A} (xs : list A) (i : nat) : M A :=
  match xs !! i with
  | Some x => ret x
  | None => raise IndexError
  end.

(** [data.loc[mask, col] = values] for integer values: an [int64] column
    stays one, a [float64] column takes the values as floats. *)
Definition loc_assign (l : ref) (mask : list bool) (col : string)
    (values : list Z) : M unit :=
  s ← getitem l col;
  setitem l col
    match s with
    | IntSeries xs => IntSeries (assign_masked mask values xs)
    | FloatSeries xs =>
        FloatSeries (assign_masked mask (float_of_Z <$> values) xs)
    end.

End Py.
Export Py.

(** ** strategy.py *)

Module Strategy.
Local Open Scope float_scope.

(** [data.index >= data.index[w]]: the rows whose label is not before the
    label of row [w]. *)
Definition valid_mask_of (idx : list Z) (label : Z) : list bool :=
  (λ x, (label <=? x)%Z) <$> idx.

(** The last lines of every [generate_signals]:
<<
    data['Position'] = data['Signal'].diff()
    data.loc[data['Position'] == 1, 'Position'] = 2
    data.loc[data['Position'] == -1, 'Position'] = -2
>> *)
Definition position_changes (data : ref) : M unit :=
  signal ← getitem data "Signal";
  setitem data "Position" (FloatSeries (diff (to_float signal)));;
  position ← getitem data "Position";
  setitem data "Position"
    (FloatSeries (assign_where (λ p, p =? 1) 2 (to_float position)));;
  position ← getitem data "Position";
  setitem data "Position"
    (FloatSeries (assign_where (λ p, p =? -1) (-2) (to_float position))).

Module SMACrossoverStrategy.

Definition generate_signals (short_window long_window : nat)
    (data : ref) : M ref :=
  data ← copy data;
  close ← getitem data "Close";
  setitem data "SMA_short"
    (FloatSeries (rolling_mean short_window (to_float close)));;
  close ← getitem data "Close";
  setitem data "SMA_long"
    (FloatSeries (rolling_mean long_window (to_float close)));;
  n ← len data;
  setitem data "Signal" (IntSeries (replicate n 0%Z));;
  n ← len data;
  (if (long_window <? n)%nat then
     idx ← index data;
     label ← item idx long_window;
     idx ← index data;
     let valid_mask := valid_mask_of idx label in
     sma_short ← getitem data "SMA_short";
     let sma_short_valid := select valid_mask (to_float sma_short) in
     sma_long ← getitem data "SMA_long";
     let sma_long_valid := select valid_mask (to_float sma_long) in
     let signals :=
       zip_with (λ s l, if gtb s l then 1%Z else (-1)%Z)
                sma_short_valid sma_long_valid in
     loc_assign data valid_mask "Signal" signals
   else ret tt);;
  position_changes data;;
  ret data.

End SMACrossoverStrategy.

Module RSIStrategy.

(** The lines that compute the RSI column from the closes. *)
Definition rsi_gain (window : nat) (close : list float) : list float :=
  let delta := diff close in
  rolling_mean window (where_ (λ d, gtb d 0) 0 delta).

Definition rsi_loss (window : nat) (close : list float) : list float :=
  let delta := diff close in
  rolling_mean window (PrimFloat.opp <$> where_ (λ d, d <? 0) 0 delta).

Definition rsi_of (gain loss : float) : float :=
  let rs := gain / loss in
  100 - (100 / (1 + rs)).

Definition rsi (window : nat) (close : list float) : list float :=
  zip_with rsi_of (rsi_gain window close) (rsi_loss window close).

Definition generate_signals (window : nat) (overbought oversold : float)
    (data : ref) : M ref :=
  data ← copy data;
  close ← getitem data "Close";
  setitem data "RSI" (FloatSeries (rsi window (to_float close)));;
  n ← len data;
  setitem data "Signal" (IntSeries (replicate n 0%Z));;
  n ← len data;
  (if (window <? n)%nat then
     idx ← index data;
     label ← item idx window;
     idx ← index data;
     let valid_mask := valid_mask_of idx label in
     rsi_col ← getitem data "RSI";
     let rsi_valid := select valid_mask (to_float rsi_col) in
     let signals :=
       (λ r, if r <? oversold then 1%Z
             else if gtb r overbought then (-1)%Z else 0%Z)
         <$> rsi_valid in
     loc_assign data valid_mask "Signal" signals
   else ret tt);;
  position_changes data;;
  ret data.

End RSIStrategy.

Module MACDStrategy.

Definition generate_signals (fast_period slow_period signal_period : nat)
    (data : ref) : M ref :=
  data ← copy data;
  close ← getitem data "Close";
  let exp1 := ewm_mean fast_period (to_float close) in
  close ← getitem data "Close";
  let exp2 := ewm_mean slow_period (to_float close) in
  setitem data "MACD" (FloatSeries (zip_with PrimFloat.sub exp1 exp2));;
  macd ← getitem data "MACD";
  setitem data "Signal_Line"
    (FloatSeries (ewm_mean signal_period (to_float macd)));;
  macd ← getitem data "MACD";
  signal_line ← getitem data "Signal_Line";
  setitem data "MACD_Histogram"
    (FloatSeries
       (zip_with PrimFloat.sub (to_float macd) (to_float signal_line)));;
  n ← len data;
  setitem data "Signal" (IntSeries (replicate n 0%Z));;
  n ← len data;
  (if (slow_period <? n)%nat then
     idx ← index data;
     label ← item idx slow_period;
     idx ← index data;
     let valid_mask := valid_mask_of idx label in
     macd ← getitem data "MACD";
     let macd_valid := select valid_mask (to_float macd) in
     signal_line ← getitem data "Signal_Line";
     let signal_line_valid := select valid_mask (to_float signal_line) in
     histogram ← getitem data "MACD_Histogram";
     let histogram_valid := select valid_mask (to_float histogram) in
     let signals :=
       zip_with
         (λ '(m, s) h,
            if gtb m s && gtb h 0 then 1%Z
            else if (m <? s) && (h <? 0) then (-1)%Z else 0%Z)
         (zip macd_valid signal_line_valid) histogram_valid in
     loc_assign data valid_mask "Signal" signals
   else ret tt);;
  position_changes data;;
  ret data.

End MACDStrategy.

Module BollingerBandsStrategy.

Definition generate_signals (window : nat) (num_std : float)
    (data : ref) : M ref :=
  data ← copy data;
  close ← getitem data "Close";
  setitem data "BB_Middle"
    (FloatSeries (rolling_mean window (to_float close)));;
  close ← getitem data "Close";
  let bb_std := rolling_std window (to_float close) in
  middle ← getitem data "BB_Middle";
  setitem data "BB_Upper"
    (FloatSeries
       (zip_with (λ m s, m + s * num_std) (to_float middle) bb_std));;
  middle ← getitem data "BB_Middle";
  setitem data "BB_Lower"
    (FloatSeries
       (zip_with (λ m s, m - s * num_std) (to_float middle) bb_std));;
  n ← len data;
  setitem data "Signal" (IntSeries (replicate n 0%Z));;
  n ← len data;
  (if (window <? n)%nat then
     idx ← index data;
     label ← item idx window;
     idx ← index data;
     let valid_mask := valid_mask_of idx label in
     close ← getitem data "Close";
     let close_valid := select valid_mask (to_float close) in
     lower ← getitem data "BB_Lower";
     let bb_lower_valid := select valid_mask (to_float lower) in
     upper ← getitem data "BB_Upper";
     let bb_upper_valid := select valid_mask (to_float upper) in
     let signals :=
       zip_with
         (λ '(c, lo) up,
            if c <=? lo then 1%Z
            else if geb c up then (-1)%Z else 0%Z)
         (zip close_valid bb_lower_valid) bb_upper_valid in
     loc_assign data valid_mask "Signal" signals
   else ret tt);;
  position_changes data;;
  ret data.

End BollingerBandsStrategy.

(** The strategies [apply_strategy] knows, with their parameters. *)
Inductive strategy :=
| sma_crossover (short_window long_window : nat)
| rsi_strategy (window : nat) (overbought oversold : float)
| macd (fast_period slow_period signal_period : nat)
| bollinger_bands (window : nat) (num_std : float).

Definition apply_strategy (data : ref) (st : strategy) : M ref :=
  match st with
  | sma_crossover s l => SMACrossoverStrategy.generate_signals s l data
  | rsi_strategy w ob os => RSIStrategy.generate_signals w ob os data
  | macd f s g => MACDStrategy.generate_signals f s g data
  | bollinger_bands w k => BollingerBandsStrategy.generate_signals w k data
  end.

End Strategy.
Export Strategy.

(** ** risk_manager.py *)

Module RiskManager.
Local Open Scope float_scope.

(** The risk settings of [config.py]. *)
Record Config := {
  MAX_POSITION_SIZE : float;
  MAX_DAILY_LOSS : float;
  STOP_LOSS_PERCENTAGE : float;
  COMMISSION_RATE : float;
  SLIPPAGE : float
}.

Definition default_config : Config := {|
  MAX_POSITION_SIZE := 0.1;
  MAX_DAILY_LOSS := 0.02;
  STOP_LOSS_PERCENTAGE := 0.05;
  COMMISSION_RATE := 0.001;
  SLIPPAGE := 0.001
|}.

Record RiskManager := {
  max_position_size : float;
  max_daily_loss : float;
  stop_loss_pct : float;
  commission_rate : float;
  slippage : float
}.

(** [RiskManager.__init__] *)
Definition init (config : Config) : RiskManager := {|
  max_position_size := MAX_POSITION_SIZE config;
  max_daily_loss := MAX_DAILY_LOSS config;
  stop_loss_pct := STOP_LOSS_PERCENTAGE config;
  commission_rate := COMMISSION_RATE config;
  slippage := SLIPPAGE config
|}.

(** The second component of the answer of [validate_trade]: which message
    it is, with the numbers the message is formatted from. *)
Inductive reason :=
| InsufficientCash (need have : float)
| InsufficientShares (selling have : float)
| TradeTooSmall (trade_value : float)
| PositionTooLarge (position_value : float)
| TradeValid.

#[global] Instance reason_eq_dec : EqDecision reason.
Proof. solve_decision. Defined.

(** The text of the message up to its first formatted number. *)
Definition reason_text (r : reason) : string :=
  match r with
  | InsufficientCash _ _ => "Insufficient cash. Need $"
  | InsufficientShares _ _ => "Insufficient shares. Trying to sell "
  | TradeTooSmall _ => "Trade too small: $"
  | PositionTooLarge _ => "Position too large: $"
  | TradeValid => "Trade valid"
  end.

(** [current_positions.get(ticker, 0)] *)
Definition get0 (positions : gmap string float) (ticker : string) : float :=
  default 0 (positions !! ticker).

Definition validate_trade (self : RiskManager) (ticker : string)
    (shares price : float) (trade_type : string) (available_cash : float)
    (current_positions : gmap string float) : bool * reason :=
  let trade_value := abs (shares * price) in
  if bool_decide (trade_type = "buy") && gtb trade_value available_cash
  then (false, InsufficientCash trade_value available_cash)
  else if bool_decide (trade_type = "sell")
          && gtb shares (get0 current_positions ticker)
  then (false, InsufficientShares shares (get0 current_positions ticker))
  else if trade_value <? 10
  then (false, TradeTooSmall trade_value)
  else if bool_decide (trade_type = "buy")
          && gtb ((get0 current_positions ticker + shares) * price)
                 (available_cash * max_position_size self)
  then (false,
        PositionTooLarge ((get0 current_positions ticker + shares) * price))
  else (true, TradeValid).

(** The risk manager the trading engine builds from [Config]. *)
Definition default_manager : RiskManager := init default_config.

End RiskManager.

(** ** backtester.py *)

Module Backtester.
Local Open Scope float_scope.

#[global] Instance result_ret : MRet result := @Ok.
#[global] Instance result_bind : MBind result := λ A B k m,
  match m with
  | Ok a => k a
  | Raise e => Raise e
  end.

Fixpoint foldlM {A B} (f : A → B → result A) (a : A) (bs : list B)
  : result A :=
  match bs with
  | [] => Ok a
  | b :: tl => a' ← f a b; foldlM f a' tl
  end.

(** [data[col]] as floats, and [s.iloc[i]]. *)
Definition column (data : DataFrame) (col : string) : result (list float) :=
  match df_columns data !! col with
  | Some s => Ok (to_float s)
  | None => Raise (KeyError col)
  end.

Definition iloc {A} (xs : list A) (i : nat) : result A :=
  match xs !! i with
  | Some x => Ok x
  | None => Raise IndexError
  end.

(** [d[key]] for a dict. *)
Definition dict_get (d : gmap string float) (key : string) : result float :=
  match d !! key with
  | Some x => Ok x
  | None => Raise (KeyError key)
  end.

(** The ledger: a frame with the columns Holdings, Cash and Total. *)
Record Portfolio := {
  index : list Z;
  Holdings : list float;
  Cash : list float;
  Total : list float
}.

(** [portfolio.loc[label, col] = v]: every row that carries the label
    takes the value. *)
Definition loc_set (idx : list Z) (label : Z) (v : float)
    (col : list float) : list float :=
  zip_with (λ l x, if bool_decide (l = label) then v else x) idx col.

Inductive action := BUY | SELL.

#[global] Instance action_eq_dec : EqDecision action.
Proof. solve_decision. Defined.

Record Trade := {
  date : Z;
  ticker : string;
  act : action;
  shares : float;
  price : float;
  value : float
}.

#[global] Instance Trade_eq_dec : EqDecision Trade.
Proof. solve_decision. Defined.

Record Metrics := {
  sharpe_ratio : float;
  max_drawdown : float
}.

Definition calculate_metrics (portfolio : Portfolio) : Metrics :=
  let returns := dropna (pct_change (Total portfolio)) in
  if bool_decide (returns = []) || (std returns =? 0)
  then {| sharpe_ratio := 0; max_drawdown := 0 |}
  else
    let sharpe := mean returns / std returns * PrimFloat.sqrt 252 in
    let peak := cummax (Total portfolio) in
    let drawdown :=
      zip_with PrimFloat.div
        (zip_with PrimFloat.sub peak (Total portfolio)) peak in
    let max_dd :=
      if bool_decide (drawdown = []) then 0 else series_max drawdown in
    {| sharpe_ratio := sharpe; max_drawdown := max_dd |}.

(** The state of the loop over the tickers of one day. *)
Record Step := {
  holdings_value : float;
  current_cash : float;
  held : gmap string float;
  trades : list Trade
}.

(** The body of [for ticker, data in data_dict.items()], lines 36-65. *)
Definition ticker_step (i : nat) (day : Z) (weights : gmap string float)
    (st : Step) (entry : string * DataFrame) : result Step :=
  let '(tk, data) := entry in
  position ← column data "Position";
  p ← iloc position i;
  if p =? 2 then
    w ← dict_get weights tk;
    let alloc_cash := current_cash st * w in
    close ← column data "Close";
    c ← iloc close i;
    let sh := alloc_cash / c in
    let trade_value := sh * c in
    Ok {| holdings_value := holdings_value st + trade_value;
          current_cash := current_cash st - trade_value;
          held := <[tk := sh]> (held st);
          trades := trades st ++
            [{| date := day; ticker := tk; act := BUY; shares := sh;
                price := c; value := trade_value |}] |}
  else if p =? -2 then
    sh ← dict_get (held st) tk;
    close ← column data "Close";
    c ← iloc close i;
    let trade_value := sh * c in
    Ok {| holdings_value := holdings_value st;
          current_cash := current_cash st + trade_value;
          held := <[tk := 0]> (held st);
          trades := trades st ++
            [{| date := day; ticker := tk; act := SELL; shares := sh;
                price := c; value := trade_value |}] |}
  else
    sh ← dict_get (held st) tk;
    close ← column data "Close";
    c ← iloc close i;
    Ok {| holdings_value := holdings_value st + sh * c;
          current_cash := current_cash st;
          held := held st;
          trades := trades st |}.

(** The state between two days: the ledger, the shares held and the
    trades so far. *)
Definition State : Type := Portfolio * gmap string float * list Trade.

(** The body of [for i in range(1, len(portfolio))], lines 33-68. *)
Definition day_step (data_dict : list (string * DataFrame))
    (weights : gmap string float) (st : State) (i : nat) : result State :=
  let '(portfolio, shares, trades) := st in
  cash0 ← iloc (Cash portfolio) (i - 1);
  day ← iloc (index portfolio) i;
  s ← foldlM (ticker_step i day weights)
        {| holdings_value := 0; current_cash := cash0;
           held := shares; trades := trades |}
        data_dict;
  Ok ({| index := index portfolio;
         Holdings := loc_set (index portfolio) day (holdings_value s)
                       (Holdings portfolio);
         Cash := loc_set (index portfolio) day (current_cash s)
                   (Cash portfolio);
         Total := loc_set (index portfolio) day
                    (current_cash s + holdings_value s)
                    (Total portfolio) |},
      held s, Backtester.trades s).

Definition equal_weights (data_dict : list (string * DataFrame))
  : gmap string float :=
  list_to_map
    ((λ e, (e.1, 1 / float_of_nat (length data_dict))) <$> data_dict).

(** Lines 19-68 of [backtester]: the ledger and the list [trades]. *)
Definition backtester_loop (data_dict : list (string * DataFrame))
    (initial_cash : float) (weights : option (gmap string float))
  : result (Portfolio * list Trade) :=
  first ← match data_dict with
          | [] => Raise StopIteration
          | (_, data) :: _ => Ok data
          end;
  let n := length (df_index first) in
  let portfolio := {| index := df_index first;
                      Holdings := replicate n 0;
                      Cash := replicate n initial_cash;
                      Total := replicate n initial_cash |} in
  let shares : gmap string float :=
    list_to_map ((λ e, (e.1, 0)) <$> data_dict) in
  let weights := match weights with
                 | None => equal_weights data_dict
                 | Some w => w
                 end in
  st ← foldlM (day_step data_dict weights) (portfolio, shares, [])
         (seq 1 (n - 1));
  Ok (st.1.1, st.2).

Record TradeStats := {
  total_trades : nat;
  win_rate : float;
  avg_trade : float;
  total_buys : nat;
  total_sells : nat;
  avg_buy_price : float;
  avg_sell_price : float
}.

Definition calculate_trade_statistics (trades : list Trade)
    (portfolio : Portfolio) : result TradeStats :=
  match trades with
  | [] => Ok {| total_trades := 0; win_rate := 0; avg_trade := 0;
                total_buys := 0; total_sells := 0;
                avg_buy_price := 0; avg_sell_price := 0 |}
  | _ =>
      let buy_trades := filter (λ t, act t = BUY) trades in
      let sell_trades := filter (λ t, act t = SELL) trades in
      let total_trade_value := fsum (value <$> trades) in
      initial_value ← iloc (Total portfolio) 0;
      final_value ← iloc (Total portfolio) (length (Total portfolio) - 1);
      let portfolio_return :=
        (final_value - initial_value) / initial_value in
      Ok {| total_trades := length trades;
            win_rate := if gtb portfolio_return 0 then 100 else 0;
            avg_trade := total_trade_value / float_of_nat (length trades);
            total_buys := length buy_trades;
            total_sells := length sell_trades;
            avg_buy_price :=
              match buy_trades with
              | [] => 0
              | _ => fsum (price <$> buy_trades)
                     / float_of_nat (length buy_trades)
              end;
            avg_sell_price :=
              match sell_trades with
              | [] => 0
              | _ => fsum (price <$> sell_trades)
                     / float_of_nat (length sell_trades)
              end |}
  end.

Definition backtester (data_dict : list (string * DataFrame))
    (initial_cash : float) (weights : option (gmap string float))
  : result (Portfolio * Metrics * TradeStats) :=
  r ← backtester_loop data_dict initial_cash weights;
  let metrics := calculate_metrics r.1 in
  trade_stats ← calculate_trade_statistics r.2 r.1;
  Ok (r.1, metrics, trade_stats).

End Backtester.


(** ** risk_manager.py, the other methods *)

Module Risk.
Import RiskManager.
Local Open Scope float_scope.

(** Python's [max(a, b)] and [min(a, b)]: the first argument, unless the
    second is greater (smaller). *)
Definition py_max (a b : float) : float := if gtb b a then b else a.
Definition py_min (a b : float) : float := if b <? a then b else a.

(** The outcome of a method that divides Python floats. *)
Inductive outcome (A : Type) :=
| Returns (a : A)
| ZeroDivisionError.
Arguments Returns {A} a.
Arguments ZeroDivisionError {A}.

(** [x / y] on Python floats. *)
Definition truediv (x y : float) : outcome float :=
  if y =? 0 then ZeroDivisionError else Returns (x / y).

(** A price as it reaches the risk manager: a Python [float], or the numpy
    [float64] the trading engine reads from a Close column. *)
Inductive number :=
| py_float (x : float)
| np_float64 (x : float).

(** [x / y] for a Python float [x]: the division by a Python float raises
    on a zero divisor, the division by a numpy [float64] never raises and
    answers an infinity or NaN there. *)
Definition divide (x : float) (y : number) : outcome float :=
  match y with
  | py_float y => truediv x y
  | np_float64 y => Returns (x / y)
  end.

(** [calculate_position_size]; [available_cash], [volatility] and
    [portfolio_value] are Python floats, the last two default to [None]. *)
Definition calculate_position_size (self : RiskManager)
    (available_cash : float) (current_price : number)
    (volatility portfolio_value : option float) : outcome float :=
  let base_position_value := available_cash * max_position_size self in
  let base_position_value :=
    match volatility with
    | Some v =>
        let volatility_adjustment := py_max 0.5 (1 - v * 2) in
        base_position_value * volatility_adjustment
    | None => base_position_value
    end in
  let base_position_value :=
    match portfolio_value with
    | Some pv =>
        let concentration_limit := pv * max_position_size self in
        py_min base_position_value concentration_limit
    | None => base_position_value
    end in
  divide base_position_value current_price.

Definition check_daily_loss_limit (self : RiskManager)
    (daily_pnl portfolio_value : float) : outcome bool :=
  match truediv (abs (py_min daily_pnl 0)) portfolio_value with
  | Returns daily_loss_pct => Returns (gtb daily_loss_pct (max_daily_loss self))
  | ZeroDivisionError => ZeroDivisionError
  end.

Definition calculate_slippage_and_commission (self : RiskManager)
    (trade_value : float) (trade_type : string) : float :=
  let commission := trade_value * commission_rate self in
  let slippage_cost := trade_value * slippage self in
  commission + slippage_cost.

(** The smaller of two present values, and [s.min()]: the minimum of the
    present values, NaN when there is none. *)
Definition fmin (x y : float) : float := if y <? x then y else x.

Definition series_min (xs : list float) : float :=
  match dropna xs with
  | [] => nan
  | x :: tl => foldl fmin x tl
  end.

Definition _calculate_max_drawdown (portfolio_values : list float) : float :=
  match portfolio_values with
  | [] => 0
  | _ =>
      let cumulative_max := cummax portfolio_values in
      let drawdown :=
        zip_with PrimFloat.div
          (zip_with PrimFloat.sub portfolio_values cumulative_max)
          cumulative_max in
      abs (series_min drawdown)
  end.

End Risk.

(** ** trading_engine.py, from the signal to the order *)

Module TradingEngine.
Import RiskManager Risk.
Local Open Scope float_scope.

(** The integer nearest to [q / d], the even one of two that are equally
    near. *)
Definition round_half_even (q d : Z) : Z :=
  let n := (q / d)%Z in
  let r := (q mod d)%Z in
  match (2 * r ?= d)%Z with
  | Lt => n
  | Gt => (n + 1)%Z
  | Eq => if Z.even n then n else (n + 1)%Z
  end.

(** [round(x, 3)] on a Python float: the value is rounded, exactly, to three
    decimals, and the decimal is read back as the nearest binary64 value.
    NaN, the infinities, the zeros and the values without a fractional part
    round to themselves. *)
Definition round3 (x : float) : float :=
  match Prim2SF x with
  | S754_finite s m e =>
      if (0 <=? e)%Z then x else
      match round_half_even (Zpos m * 1000) (2 ^ (- e)) with
      | Zpos p =>
          SF2Prim (SFdiv prec emax (S754_finite s p 0)
                     (S754_finite false 1000 0))
      | _ => if s then -0 else 0
      end
  | _ => x
  end.

Inductive OrderSide := OrderSide_BUY | OrderSide_SELL.

#[global] Instance OrderSide_eq_dec : EqDecision OrderSide.
Proof. solve_decision. Defined.

Inductive TimeInForce := DAY.

Record MarketOrderRequest := {
  symbol : string;
  qty : float;
  side : OrderSide;
  time_in_force : TimeInForce
}.

(** What the engine does not decide: whether a call of the broker's
    [submit_order] returns or raises, given the requests submitted before
    it, and what [datetime.now()] reads after the requests submitted so
    far. *)
Record World := {
  submit_order_returns :
    list MarketOrderRequest → MarketOrderRequest → bool;
  now : list MarketOrderRequest → Z
}.

(** The attributes of the engine that the order methods read and write. *)
Record TradingEngine := {
  risk_manager : RiskManager;
  positions : gmap string float;
  cash : float;
  portfolio_value : float;
  last_trade_time : option Z
}.

(** The engine, and the requests it has submitted to the broker. *)
Definition Run : Type := TradingEngine * list MarketOrderRequest.

(** The body of [_execute_buy_order]; every exit before the call of the
    broker only logs.  An exception, of the division or of the broker, is
    caught by the [except] clause, which logs: the lines after it are not
    reached.  The price is the numpy value of [_generate_signals]. *)
Definition _execute_buy_order (w : World) (symbol : string)
    (price current_position : float) (run : Run) : Run :=
  let '(self, sent) := run in
  match calculate_position_size (risk_manager self) (cash self)
          (np_float64 price) None (Some (portfolio_value self)) with
  | ZeroDivisionError => run
  | Returns shares =>
  let shares := round3 shares in
  if shares <=? 0 then run else
  let '(is_valid, reason) :=
    validate_trade (risk_manager self) symbol shares price "buy"
      (cash self) (positions self) in
  if negb is_valid then run else
  let trade_value := shares * price in
  let transaction_costs :=
    calculate_slippage_and_commission (risk_manager self) trade_value
      "buy" in
  let total_cost := trade_value + transaction_costs in
  if gtb total_cost (cash self) then run else
  let order_request :=
    {| symbol := symbol; qty := shares; side := OrderSide_BUY;
       time_in_force := DAY |} in
  if submit_order_returns w sent order_request
  then ({| risk_manager := risk_manager self;
           positions :=
             <[symbol := current_position + shares]> (positions self);
           cash := cash self - total_cost;
           portfolio_value := portfolio_value self;
           last_trade_time := Some (now w (sent ++ [order_request])) |},
        sent ++ [order_request])
  else (self, sent ++ [order_request])
  end.

Definition _execute_sell_order (w : World) (symbol : string)
    (price current_position : float) (run : Run) : Run :=
  let '(self, sent) := run in
  if current_position <=? 0 then run else
  let qty_to_sell := round3 current_position in
  if qty_to_sell <=? 0 then run else
  let '(is_valid, reason) :=
    validate_trade (risk_manager self) symbol qty_to_sell price "sell"
      (cash self) (positions self) in
  if negb is_valid then run else
  let trade_value := qty_to_sell * price in
  let transaction_costs :=
    calculate_slippage_and_commission (risk_manager self) trade_value
      "sell" in
  let net_proceeds := trade_value - transaction_costs in
  let order_request :=
    {| symbol := symbol; qty := qty_to_sell; side := OrderSide_SELL;
       time_in_force := DAY |} in
  if submit_order_returns w sent order_request
  then ({| risk_manager := risk_manager self;
           positions := <[symbol := 0]> (positions self);
           cash := cash self + net_proceeds;
           portfolio_value := portfolio_value self;
           last_trade_time := Some (now w (sent ++ [order_request])) |},
        sent ++ [order_request])
  else (self, sent ++ [order_request]).

(** The dict [_generate_signals] returns. *)
Record SignalData := {
  sd_symbol : string;
  sd_signal : float;
  sd_price : float;
  sd_timestamp : Z
}.

(** One round of the loop of [_execute_trades]. *)
Definition execute_trade (w : World) (run : Run)
    (item : string * option SignalData) : Run :=
  let '(symbol, signal_data) := item in
  match signal_data with
  | None => run
  | Some signal_data =>
      let signal := sd_signal signal_data in
      let price := sd_price signal_data in
      if signal =? 0 then run else
      let current_position := get0 (positions run.1) symbol in
      if signal =? 2
      then _execute_buy_order w symbol price current_position run
      else if signal =? -2
      then _execute_sell_order w symbol price current_position run
      else run
  end.

(** [signals.items()] in the order of the dict. *)
Definition _execute_trades (w : World)
    (signals : list (string * option SignalData)) (run : Run) : Run :=
  foldl (execute_trade w) run signals.

(** [s.iloc[-1]] and [index[-1]] *)
Definition last_item {A} (xs : list A) : M A :=
  match last xs with
  | Some x => ret x
  | None => raise IndexError
  end.

(** [df.empty]: an axis of the frame has length 0. *)
Definition empty (df : DataFrame) : bool :=
  bool_decide (df_index df = []) || bool_decide (df_columns df = ∅).

(** The [try] block of [_generate_signals], for the strategy the engine is
    set to. *)
Definition generate_signals_body (st : strategy) (symbol : string)
    (data : ref) : M SignalData :=
  signals ← apply_strategy data st;
  df ← deref signals;
  latest_signal ←
    (if negb (empty df)
     then position ← getitem signals "Position";
          last_item (to_float position)
     else ret 0);
  close ← getitem data "Close";
  price ← last_item (to_float close);
  idx ← index data;
  timestamp ← last_item idx;
  ret {| sd_symbol := symbol; sd_signal := latest_signal;
         sd_price := price; sd_timestamp := timestamp |}.

(** [_generate_signals]: [None] when the block raises. *)
Definition _generate_signals (st : strategy) (symbol : string)
    (data : ref) (h : heap) : option SignalData * heap :=
  match generate_signals_body st symbol data h with
  | (Ok signal_data, h') => (Some signal_data, h')
  | (Raise _, h') => (None, h')
  end.

End TradingEngine.

(** ** strategy.py, the position sizes of the crossover strategy *)

Module Sizing.
Local Open Scope float_scope.

(** [for i in xs: body(i)] *)
Fixpoint for_ (xs : list nat) (body : nat → M unit) : M unit :=
  match xs with
  | [] => mret tt
  | i :: tl => body i;; for_ tl body
  end.

(** [data.loc[label, col] = v] for a label of the index and a column the
    frame has: every row that carries the label takes the value. *)
Definition loc_set (data : ref) (label : Z) (col : string) (v : float)
  : M unit :=
  idx ← index data;
  s ← getitem data col;
  setitem data col
    (FloatSeries
       (zip_with (λ l x, if bool_decide (l = label) then v else x)
          idx (to_float s))).

(** [SMACrossoverStrategy.calculate_position_size].  The right-hand side of
    an assignment is evaluated before the label on its left. *)
Definition calculate_position_size (data : ref) (cash : float) : M ref :=
  data ← copy data;
  n ← len data;
  setitem data "Position_Size" (FloatSeries (replicate n 0));;
  for_ (seq 1 (n - 1)) (λ i,
    position ← getitem data "Position";
    p ← item (to_float position) i;
    if p =? 2 then
      close ← getitem data "Close";
      c ← item (to_float close) i;
      idx ← index data;
      label ← item idx i;
      loc_set data label "Position_Size" (cash * 0.95 / c)
    else
      position ← getitem data "Position";
      p ← item (to_float position) i;
      if p =? -2 then
        idx ← index data;
        label ← item idx i;
        loc_set data label "Position_Size" 0
      else mret tt);;
  mret data.

End Sizing.

(** ** Definitions used to state the properties *)

Module Props.
Local Open Scope float_scope.

(** The event codes as the specification words them: a positive regime
    delta is a BUY (2), a negative one a SELL (-2), no change a HOLD (0). *)
Definition clamp_to_tradeevent (delta : Z) : Z :=
  if (0 <? delta)%Z then 2%Z
  else if (delta <? 0)%Z then (-2)%Z
  else 0%Z.

(** A regime value. *)
Definition regime (s : Z) : Prop := s = (-1)%Z ∨ s = 0%Z ∨ s = 1%Z.

(** What [position_changes] leaves in the Position column for a given
    Signal column. *)
Definition position_of (signal : Series) : list float :=
  assign_where (λ p, p =? -1) (-2)
    (assign_where (λ p, p =? 1) 2 (diff (to_float signal))).

(** [local l m Q df]: run from any store that holds the frame [df] at [l],
    the computation [m] changes the store at [l] only; [Q] relates its outcome
    and the frame it leaves there. *)
Definition local {A} (l : ref) (m : M A)
    (Q : result A → DataFrame → Prop) (df : DataFrame) : Prop :=
  ∀ h : heap, h !! l = Some df →
    ∃ r df', m h = (r, <[l := df']> h) ∧ Q r df'.

(** The frame [generate_signals] returns, compared with the frame [df] it
    was given. *)
Definition signals_of (df df' : DataFrame) : Prop :=
  df_index df' = df_index df ∧
  ∃ signal : list Z,
    df_columns df' !! "Signal" = Some (IntSeries signal) ∧
    length signal = length (df_index df) ∧
    Forall regime signal ∧
    df_columns df' !! "Position"
      = Some (FloatSeries (position_of (IntSeries signal))).

(** The outcome of a strategy body on the copy [l] of the frame [df]. *)
Definition body_post (df : DataFrame) (l : ref)
    (r : result ref) (df' : DataFrame) : Prop :=
  ∀ out, r = Ok out → out = l ∧ signals_of df df'.

(** Row [i] of the ledger: its Holdings, Cash and Total entries. *)
Definition row (p : Backtester.Portfolio) (i : nat)
  : option (float * float * float) :=
  h ← Backtester.Holdings p !! i;
  c ← Backtester.Cash p !! i;
  t ← Backtester.Total p !! i;
  Some (h, c, t).

(** The row the ledger starts with, and a row whose total is the sum of
    its cash and holdings. *)
Definition initial_row (initial_cash : float) (r : float * float * float)
  : Prop :=
  r = (0, initial_cash, initial_cash).

Definition balanced (r : float * float * float) : Prop :=
  r.2 = r.1.2 + r.1.1.

(** Every column of the ledger has one entry per index label. *)
Definition ledger_shape (p : Backtester.Portfolio) : Prop :=
  length (Backtester.Holdings p) = length (Backtester.index p)
  ∧ length (Backtester.Cash p) = length (Backtester.index p)
  ∧ length (Backtester.Total p) = length (Backtester.index p).

(** A trade record that stems from an event: on day [i >= 1] the frame of
    its instrument shows BUY (2) or SELL (-2), the record carries the close
    of that day as its price and shares times price as its value. *)
Definition from_event (data_dict : list (string * DataFrame))
    (idx : list Z) (tr : Backtester.Trade) : Prop :=
  ∃ (i : nat) data position close p,
    (Backtester.ticker tr, data) ∈ data_dict
    ∧ (1 ≤ i)%nat
    ∧ idx !! i = Some (Backtester.date tr)
    ∧ Backtester.column data "Position" = Ok position
    ∧ position !! i = Some p
    ∧ Backtester.column data "Close" = Ok close
    ∧ close !! i = Some (Backtester.price tr)
    ∧ Backtester.value tr = Backtester.shares tr * Backtester.price tr
    ∧ ((Backtester.act tr = Backtester.BUY ∧ (p =? 2) = true)
       ∨ (Backtester.act tr = Backtester.SELL
          ∧ (p =? 2) = false ∧ (p =? -2) = true)).

(** The ledger row and the trades of a run of the loop. *)
Definition row_of (run : result (Backtester.Portfolio * list Backtester.Trade))
    (i : nat) : option (float * float * float) :=
  match run with
  | Ok (p, _) => row p i
  | Raise _ => None
  end.

Definition trades_of
    (run : result (Backtester.Portfolio * list Backtester.Trade))
  : option (list Backtester.Trade) :=
  match run with
  | Ok (_, trades) => Some trades
  | Raise _ => None
  end.


(** Entry [t] of the column [col] of the frame behind [l]. *)
Definition entry (h : heap) (l : ref) (col : string) (t : nat)
  : option float :=
  df ← h !! l; s ← df_columns df !! col; to_float s !! t.

End Props.
Import Props.

(** ** Concrete inputs *)

Module Examples.
Local Open Scope float_scope.

(** A price frame with the closes given, indexed by 0, 1, 2, ... *)
Definition frame_of (close : list float) : DataFrame :=
  {| df_index := Z.of_nat <$> seq 0 (length close);
     df_columns := {[ "Close" := FloatSeries close ]} |}.

(** A store whose only object is the frame, at reference 1. *)
Definition store_of (df : DataFrame) : heap := {[ 1%positive := df ]}.

Definition one_bar : DataFrame := frame_of [10].
Definition flat_closes : DataFrame := frame_of [10; 10; 10].
Definition fall_then_jump : DataFrame := frame_of [10; 9; 8; 20].

(** The store after the RSI strategy (window 2, thresholds 70 and 30) ran
    on [fall_then_jump]. *)
Definition store_after_rsi : heap :=
  (apply_strategy 1%positive (rsi_strategy 2 70 30)
     (store_of fall_then_jump)).2.

Definition six_flat : DataFrame := frame_of [10; 10; 10; 10; 10; 10].
Definition rising : DataFrame := frame_of [10; 11; 12].

(** The store after the RSI strategy (window 2) ran on [rising]. *)
Definition store_after_rsi_rising : heap :=
  (RSIStrategy.generate_signals 2 70 30 1%positive (store_of rising)).2.

(** A frame with closes and events, as [generate_signals] returns it. *)
Definition signal_frame (close position : list float) : DataFrame :=
  {| df_index := Z.of_nat <$> seq 0 (length close);
     df_columns := {[ "Close" := FloatSeries close;
                      "Position" := FloatSeries position ]} |}.

(** One instrument, bought on day 1 and held. *)
Definition buy_and_hold : list (string * DataFrame) :=
  [("A", signal_frame [10; 10; 10] [nan; 2; 0])].

Definition buy_and_hold_ledger : Backtester.Portfolio :=
  {| Backtester.index := [0; 1; 2]%Z;
     Backtester.Holdings := [0; 10000; 10000];
     Backtester.Cash := [10000; 0; 0];
     Backtester.Total := [10000; 10000; 10000] |}.

Definition buy_and_hold_stats : Backtester.TradeStats :=
  {| Backtester.total_trades := 1;
     Backtester.win_rate := 0;
     Backtester.avg_trade := 10000;
     Backtester.total_buys := 1;
     Backtester.total_sells := 0;
     Backtester.avg_buy_price := 10;
     Backtester.avg_sell_price := 0 |}.

(** Two instruments that both show BUY on day 1, with weights one half
    each. *)
Definition two_buys : list (string * DataFrame) :=
  [("A", signal_frame [10; 10] [nan; 2]);
   ("B", signal_frame [10; 10] [nan; 2])].

Definition half_half : gmap string float := {[ "A" := 0.5; "B" := 0.5 ]}.

(** A is bought on day 1 and sold on day 2 at three times the price; B is
    bought on day 2.  Once with A first in the dict, once with B first. *)
Definition sell_then_buy : list (string * DataFrame) :=
  [("A", signal_frame [10; 10; 30] [nan; 2; -2]);
   ("B", signal_frame [10; 10; 10] [nan; 0; 2])].

Definition buy_then_sell : list (string * DataFrame) :=
  [("B", signal_frame [10; 10; 10] [nan; 0; 2]);
   ("A", signal_frame [10; 10; 30] [nan; 2; -2])].

(** One instrument at a close of 145, bought on day 1 with all the cash. *)
Definition all_in_at_145 : list (string * DataFrame) :=
  [("A", signal_frame [145; 145] [nan; 2])].

(** One instrument that shows SELL on day 1, when nothing is held. *)
Definition idle_sell : list (string * DataFrame) :=
  [("A", signal_frame [10; 10] [nan; -2])].

Definition two_buys_ledger : Backtester.Portfolio :=
  {| Backtester.index := [0; 1]%Z;
     Backtester.Holdings := [0; 7500];
     Backtester.Cash := [10000; 2500];
     Backtester.Total := [10000; 10000] |}.

Definition two_buys_trades : list Backtester.Trade :=
  [ {| Backtester.date := 1; Backtester.ticker := "A";
       Backtester.act := Backtester.BUY; Backtester.shares := 500;
       Backtester.price := 10; Backtester.value := 5000 |};
    {| Backtester.date := 1; Backtester.ticker := "B";
       Backtester.act := Backtester.BUY; Backtester.shares := 250;
       Backtester.price := 10; Backtester.value := 2500 |} ].

Definition sell_then_buy_trades : list Backtester.Trade :=
  [ {| Backtester.date := 1; Backtester.ticker := "A";
       Backtester.act := Backtester.BUY; Backtester.shares := 500;
       Backtester.price := 10; Backtester.value := 5000 |};
    {| Backtester.date := 2; Backtester.ticker := "A";
       Backtester.act := Backtester.SELL; Backtester.shares := 500;
       Backtester.price := 30; Backtester.value := 15000 |};
    {| Backtester.date := 2; Backtester.ticker := "B";
       Backtester.act := Backtester.BUY; Backtester.shares := 1000;
       Backtester.price := 10; Backtester.value := 10000 |} ].

Definition idle_sell_ledger : Backtester.Portfolio :=
  {| Backtester.index := [0; 1]%Z;
     Backtester.Holdings := [0; 0];
     Backtester.Cash := [10000; 10000];
     Backtester.Total := [10000; 10000] |}.

Definition idle_sell_trades : list Backtester.Trade :=
  [ {| Backtester.date := 1; Backtester.ticker := "A";
       Backtester.act := Backtester.SELL; Backtester.shares := 0;
       Backtester.price := 10; Backtester.value := 0 |} ].



(** One instrument that is held, never traded, and whose close on day 1 is
    missing; and one that is bought on day 1 at a close of 0. *)
Definition missing_close : list (string * DataFrame) :=
  [("A", signal_frame [10; nan] [nan; 0])].

Definition bought_at_zero : list (string * DataFrame) :=
  [("A", signal_frame [10; 0] [nan; 2])].

End Examples.
Import Examples.

(** ** Definitions used to state further properties *)

Module MoreProps.
Local Open Scope float_scope.

(** A positive number that is not infinite. *)
Definition positive_finite (x : float) : Prop :=
  (0 <? x) = true ∧ (x <? infinity) = true.

(** Each entry is at least the one before it. *)
Definition nondecreasing (xs : list float) : Prop :=
  ∀ (i : nat) x y, xs !! i = Some x → xs !! S i = Some y → (x <=? y) = true.

End MoreProps.
Import MoreProps.

Module LedgerProps.
Local Open Scope float_scope.

(** The frame shows neither BUY nor SELL on day [i]. *)
Definition no_event_at (data : DataFrame) (i : nat) : Prop :=
  ∀ position p,
    Backtester.column data "Position" = Ok position →
    position !! i = Some p →
    (p =? 2) = false ∧ (p =? -2) = false.

(** The frame shows SELL on day [i]. *)
Definition sell_at (data : DataFrame) (i : nat) : Prop :=
  ∃ position p,
    Backtester.column data "Position" = Ok position
    ∧ position !! i = Some p
    ∧ (p =? 2) = false ∧ (p =? -2) = true.

(** The statistics of a run without trades. *)
Definition no_trade_stats : Backtester.TradeStats :=
  {| Backtester.total_trades := 0;
     Backtester.win_rate := 0;
     Backtester.avg_trade := 0;
     Backtester.total_buys := 0;
     Backtester.total_sells := 0;
     Backtester.avg_buy_price := 0;
     Backtester.avg_sell_price := 0 |}.

(** The ledger before the first day. *)
Definition initial_ledger (idx : list Z) (initial_cash : float)
  : Backtester.Portfolio :=
  {| Backtester.index := idx;
     Backtester.Holdings := replicate (length idx) 0;
     Backtester.Cash := replicate (length idx) initial_cash;
     Backtester.Total := replicate (length idx) initial_cash |}.

(** A frame of closes and events with a single row. *)
Definition single_row : DataFrame :=
  {| df_index := [0%Z];
     df_columns := {[ "Close" := FloatSeries [10];
                      "Position" := FloatSeries [nan] ]} |}.

(** A frame of three rows without a Position column. *)
Definition no_position_column : DataFrame :=
  {| df_index := [0; 1; 2]%Z;
     df_columns := {[ "Close" := FloatSeries [10; 11; 12] ]} |}.

(** Two instruments that show no event on any day. *)
Definition quiet_days : list (string * DataFrame) :=
  [("A", {| df_index := [0; 1; 2]%Z;
            df_columns := {[ "Close" := FloatSeries [10; 11; 12];
                             "Position" := FloatSeries [nan; 0; 0] ]} |});
   ("B", {| df_index := [0; 1; 2]%Z;
            df_columns := {[ "Close" := FloatSeries [5; 5; 6];
                             "Position" := FloatSeries [nan; 0; 0] ]} |})].

Definition quiet_ledger : Backtester.Portfolio :=
  {| Backtester.index := [0; 1; 2]%Z;
     Backtester.Holdings := [0; 0; 0];
     Backtester.Cash := [10000; 10000; 10000];
     Backtester.Total := [10000; 10000; 10000] |}.

End LedgerProps.
Import LedgerProps.

Module SignalProps.
Local Open Scope float_scope.

(** The number of rows a strategy waits for before it assigns regimes. *)
Definition lookback (st : strategy) : nat :=
  match st with
  | sma_crossover _ long_window => long_window
  | rsi_strategy window _ _ => window
  | macd _ slow_period _ => slow_period
  | bollinger_bands window _ => window
  end.

(** The columns a strategy assigns. *)
Definition written (st : strategy) : list string :=
  match st with
  | sma_crossover _ _ => ["SMA_short"; "SMA_long"; "Signal"; "Position"]
  | rsi_strategy _ _ _ => ["RSI"; "Signal"; "Position"]
  | macd _ _ _ =>
      ["MACD"; "Signal_Line"; "MACD_Histogram"; "Signal"; "Position"]
  | bollinger_bands _ _ =>
      ["BB_Middle"; "BB_Upper"; "BB_Lower"; "Signal"; "Position"]
  end.

(** Every window, period and span is one or more, as [app.py] requires of
    the parameters it passes on; pandas refuses a span below one. *)
Definition positive_windows (st : strategy) : Prop :=
  match st with
  | sma_crossover short_window long_window =>
      1 ≤ short_window ∧ 1 ≤ long_window
  | rsi_strategy window _ _ => 1 ≤ window
  | macd fast_period slow_period signal_period =>
      1 ≤ fast_period ∧ 1 ≤ slow_period ∧ 1 ≤ signal_period
  | bollinger_bands window _ => 1 ≤ window
  end.

(** The Signal column is all zeros when the frame has no more rows than
    the lookback; otherwise it is zeros overwritten on the rows whose label
    is at or after the label of row [w]. *)
Definition signal_shape (w : nat) (idx : list Z) (signal : list Z) : Prop :=
  (length idx ≤ w ∧ signal = replicate (length idx) 0%Z)
  ∨ (∃ label values,
       idx !! w = Some label
       ∧ signal = assign_masked (valid_mask_of idx label) values
                    (replicate (length idx) 0%Z)).

(** What a run of a strategy body on the copy [l] of [df] gives: the
    KeyError when there is no Close column; otherwise the copy with the
    strategy's columns assigned and every other column kept. *)
Definition full_post (st : strategy) (df : DataFrame) (l : ref)
    (r : result ref) (df' : DataFrame) : Prop :=
  match df_columns df !! "Close" with
  | None => r = Raise (KeyError "Close")
  | Some _ =>
      r = Ok l
      ∧ df_index df' = df_index df
      ∧ (∀ c, c ∉ written st → df_columns df' !! c = df_columns df !! c)
      ∧ ∃ signal,
          df_columns df' !! "Signal" = Some (IntSeries signal)
          ∧ signal_shape (lookback st) (df_index df) signal
  end.

(** The index labels grow strictly. *)
Definition increasing (idx : list Z) : Prop :=
  ∀ (i j : nat) a b,
    i < j → idx !! i = Some a → idx !! j = Some b → (a < b)%Z.

(** A price frame with the usual five columns and a column of its own. *)
Definition ohlcv_frame : DataFrame :=
  {| df_index := [0; 1; 2; 3]%Z;
     df_columns :=
       {[ "Open" := FloatSeries [10; 9; 8; 19];
          "High" := FloatSeries [11; 10; 9; 21];
          "Low" := FloatSeries [9; 8; 7; 18];
          "Close" := FloatSeries [10; 9; 8; 20];
          "Volume" := IntSeries [100; 200; 300; 400]%Z;
          "Signal" := FloatSeries [7; 7; 7; 7] ]} |}.

(** A frame without a Close column. *)
Definition no_close_frame : DataFrame :=
  {| df_index := [0; 1]%Z;
     df_columns := {[ "Open" := FloatSeries [10; 9] ]} |}.

End SignalProps.
Import SignalProps.

Module EngineProps.
Import RiskManager Risk TradingEngine.
Local Open Scope float_scope.

(** A request that answers a signal of the round: its symbol has a buy
    signal (for a buy) or a sell signal (for a sell), its quantity is not
    zero or less, and its value at the price of the signal is not below the
    minimum of 10. *)
Definition answers (signals : list (string * option SignalData))
    (req : MarketOrderRequest) : Prop :=
  ∃ sd,
    (symbol req, Some sd) ∈ signals
    ∧ (sd_signal sd
       =? match side req with OrderSide_BUY => 2 | OrderSide_SELL => -2 end)
      = true
    ∧ (qty req <=? 0) = false
    ∧ (abs (qty req * sd_price sd) <? 10) = false.

(** A signal that asks for no order. *)
Definition no_action (item : string * option SignalData) : Prop :=
  match item.2 with
  | None => True
  | Some sd => (sd_signal sd =? 2) = false ∧ (sd_signal sd =? -2) = false
  end.

(** A sell request for no more than the engine holds of the symbol. *)
Definition covered (self : TradingEngine) (req : MarketOrderRequest)
  : Prop :=
  side req = OrderSide_SELL →
  qty req = round3 (get0 (positions self) (symbol req))
  ∧ gtb (qty req) (get0 (positions self) (symbol req)) = false
  ∧ (get0 (positions self) (symbol req) <=? 0) = false.

(** The engine as [__init__] leaves it, with the risk settings of
    [config.py]. *)
Definition new_engine : TradingEngine := {|
  risk_manager := default_manager;
  positions := ∅;
  cash := 10000;
  portfolio_value := 10000;
  last_trade_time := None
|}.

(** An engine that holds 0.7 + 0.1 shares of AAPL. *)
Definition engine_with_aapl : TradingEngine := {|
  risk_manager := default_manager;
  positions := {["AAPL" := 0.7 + 0.1]};
  cash := 10000;
  portfolio_value := 10000;
  last_trade_time := None
|}.

(** A broker that takes every order, and one that refuses every order. *)
Definition broker_up : World := {|
  submit_order_returns := λ _ _, true;
  now := λ sent, Z.of_nat (length sent)
|}.

Definition broker_down : World := {|
  submit_order_returns := λ _ _, false;
  now := λ sent, Z.of_nat (length sent)
|}.

Definition signal_of (symbol : string) (signal price : float)
  : string * option SignalData :=
  (symbol, Some {| sd_symbol := symbol; sd_signal := signal;
                   sd_price := price; sd_timestamp := 0 |}).

End EngineProps.
Import EngineProps.

Module SizingProps.
Local Open Scope float_scope.

(** The size the crossover strategy gives to row [t], whose event is [p] and
    whose close is [c]: 95% of the cash in shares on a buy after row 0, and
    nothing on any other row. *)
Definition size_at (cash : float) (t : nat) (p c : float) : float :=
  if (1 <=? t)%nat && (p =? 2) then cash * 0.95 / c else 0.

(** The Position_Size column once the rows before [k] are done. *)
Definition sizes_upto (cash : float) (position close : list float)
    (k : nat) : list float :=
  imap (λ t pc, if (t <? k)%nat then size_at cash t pc.1 pc.2 else 0)
    (zip position close).

(** Row [t] carries a buy event and is not the first row. *)
Definition buy_row (position : list float) (t : nat) : Prop :=
  (1 ≤ t)%nat ∧ ∃ p, position !! t = Some p ∧ (p =? 2) = true.

(** A frame with closes, events and the column Other. *)
Definition sized_frame : DataFrame :=
  {| df_index := [0; 1; 2; 3]%Z;
     df_columns :=
       {[ "Close" := FloatSeries [10; 19; 20; 25];
          "Position" := FloatSeries [nan; 2; -2; 2];
          "Other" := IntSeries [1; 2; 3; 4]%Z ]} |}.

(** A frame with events and without closes. *)
Definition events_only_frame : DataFrame :=
  {| df_index := [0; 1; 2]%Z;
     df_columns := {[ "Position" := FloatSeries [nan; -2; 2] ]} |}.

End SizingProps.
Import SizingProps.

(** ** Columns *)

Section columns.
Local Open Scope float_scope.

Lemma diff_length xs : length (diff xs) = length xs.
Proof.
  destruct xs as [|x tl]; [done|]. unfold diff. cbn [length].
  rewrite length_zip_with. cbn [length]. lia.
Qed.

Lemma diff_lookup_0 x tl : diff (x :: tl) !! 0%nat = Some nan.
Proof. done. Qed.

Lemma diff_lookup_S xs t x0 x1 :
  xs !! t = Some x0 → xs !! S t = Some x1 →
  diff xs !! S t = Some (x1 - x0).
Proof.
  intros H0 H1. destruct xs as [|x tl]; [done|].
  cbn [diff]. rewrite lookup_cons. rewrite lookup_zip_with.
  rewrite H0. simpl in H1. rewrite H1. done.
Qed.

Lemma assign_where_length c v xs : length (assign_where c v xs) = length xs.
Proof. apply length_fmap. Qed.

Lemma assign_where_lookup c v xs i :
  assign_where c v xs !! i = (λ x, if c x then v else x) <$> xs !! i.
Proof. apply list_lookup_fmap. Qed.

Lemma position_of_length s : length (position_of s) = length (to_float s).
Proof.
  unfold position_of. by rewrite !assign_where_length, diff_length.
Qed.

Lemma position_of_first s :
  to_float s ≠ [] → position_of s !! 0%nat = Some nan.
Proof.
  intros H. unfold position_of.
  destruct (to_float s) as [|x tl]; [done|].
  rewrite !assign_where_lookup, diff_lookup_0. done.
Qed.

(** The two reassignments turn a difference of two regime values into the
    event code. *)
Lemma event_of_regimes s0 s1 :
  regime s0 → regime s1 →
  (λ x, if x =? -1 then -2 else x)
    ((λ x, if x =? 1 then 2 else x) (float_of_Z s1 - float_of_Z s0))
  = float_of_Z (clamp_to_tradeevent (s1 - s0)).
Proof.
  intros [->|[->| ->]] [->|[->| ->]]; reflexivity.
Qed.

Lemma position_of_lookup signal t s0 s1 :
  regime s0 → regime s1 →
  signal !! t = Some s0 → signal !! S t = Some s1 →
  position_of (IntSeries signal) !! S t
    = Some (float_of_Z (clamp_to_tradeevent (s1 - s0))).
Proof.
  intros R0 R1 H0 H1. unfold position_of.
  rewrite !assign_where_lookup.
  rewrite (diff_lookup_S _ t (float_of_Z s0) (float_of_Z s1)).
  - simpl. f_equal. by apply event_of_regimes.
  - simpl. by rewrite list_lookup_fmap, H0.
  - simpl. by rewrite list_lookup_fmap, H1.
Qed.

Lemma assign_masked_length {A} mask (values xs : list A) :
  length (assign_masked mask values xs) = length xs.
Proof.
  revert values xs. induction mask as [|b m IH]; intros values xs.
  - by destruct xs.
  - destruct xs as [|x tl]; [by destruct b|].
    destruct b; [destruct values|]; simpl; by rewrite IH.
Qed.

Lemma assign_masked_Forall {A} (P : A → Prop) mask values xs :
  Forall P values → Forall P xs → Forall P (assign_masked mask values xs).
Proof.
  revert values xs. induction mask as [|b m IH]; intros values xs Hv Hx.
  - by destruct xs.
  - destruct Hx as [|x tl Px Ptl]; [by destruct b|].
    destruct b; [destruct Hv|]; simpl; constructor; auto.
Qed.

Lemma regime_zeros n : Forall regime (replicate n 0%Z).
Proof. apply Forall_replicate. right. by left. Qed.

End columns.

(** ** Rules for computations that work on one object of the store *)

Section local_rules.
Context {A : Type} (l : ref).

Lemma local_ret (a : A) Q df : Q (Ok a) df → local l (mret a) Q df.
Proof.
  intros HQ h Hl. exists (Ok a), df. split; [|done].
  unfold mret, M_ret, ret. by rewrite insert_id.
Qed.

Lemma local_bind {B} (m : M A) (k : A → M B) Q df :
  local l m (λ r df1, match r with
                      | Ok a => local l (k a) Q df1
                      | Raise e => Q (Raise e) df1
                      end) df →
  local l (m ≫= k) Q df.
Proof.
  intros Hm h Hl. destruct (Hm h Hl) as (r & df1 & Hrun & Hk).
  unfold mbind, M_bind, bind. rewrite Hrun. destruct r as [a|e].
  - destruct (Hk (<[l := df1]> h)) as (r' & df2 & Hrun' & HQ).
    { apply lookup_insert_eq. }
    exists r', df2. rewrite Hrun', insert_insert_eq. done.
  - by exists (Raise e), df1.
Qed.

Lemma local_item (xs : list A) i Q df :
  match xs !! i with
  | Some x => Q (Ok x) df
  | None => Q (Raise IndexError) df
  end →
  local l (item xs i) Q df.
Proof.
  intros HQ h Hl. unfold item. destruct (xs !! i) as [x|].
  - exists (Ok x), df. by rewrite insert_id.
  - exists (Raise IndexError), df. by rewrite insert_id.
Qed.

End local_rules.

Section local_frame_rules.
Context (l : ref).

Lemma local_getitem col Q df :
  match df_columns df !! col with
  | Some s => Q (Ok s) df
  | None => Q (Raise (KeyError col)) df
  end →
  local l (getitem l col) Q df.
Proof.
  intros HQ h Hl. unfold getitem, mbind, M_bind, bind, deref. rewrite Hl.
  destruct (df_columns df !! col) as [s|].
  - exists (Ok s), df. by rewrite insert_id.
  - exists (Raise (KeyError col)), df. by rewrite insert_id.
Qed.

Lemma local_setitem col s Q df :
  Q (Ok tt) {| df_index := df_index df;
               df_columns := <[col := s]> (df_columns df) |} →
  local l (setitem l col s) Q df.
Proof.
  intros HQ h Hl. unfold setitem, mbind, M_bind, bind, deref, store.
  rewrite Hl. eauto.
Qed.

Lemma local_len Q df :
  Q (Ok (length (df_index df))) df → local l (len l) Q df.
Proof.
  intros HQ h Hl. unfold len, mbind, M_bind, bind, deref. rewrite Hl.
  exists (Ok (length (df_index df))), df. by rewrite insert_id.
Qed.

Lemma local_index Q df :
  Q (Ok (df_index df)) df → local l (index l) Q df.
Proof.
  intros HQ h Hl. unfold index, mbind, M_bind, bind, deref. rewrite Hl.
  exists (Ok (df_index df)), df. by rewrite insert_id.
Qed.

Lemma local_loc_assign mask col values Q df :
  match df_columns df !! col with
  | Some s =>
      Q (Ok tt)
        {| df_index := df_index df;
           df_columns :=
             <[col := match s with
                      | IntSeries xs => IntSeries (assign_masked mask values xs)
                      | FloatSeries xs =>
                          FloatSeries
                            (assign_masked mask (float_of_Z <$> values) xs)
                      end]> (df_columns df) |}
  | None => Q (Raise (KeyError col)) df
  end →
  local l (loc_assign l mask col values) Q df.
Proof.
  intros HQ. unfold loc_assign. apply local_bind, local_getitem.
  destruct (df_columns df !! col) as [s|]; [|done].
  by apply local_setitem.
Qed.

Lemma local_position_changes Q df :
  match df_columns df !! "Signal" with
  | Some s =>
      Q (Ok tt)
        {| df_index := df_index df;
           df_columns :=
             <["Position" := FloatSeries (position_of s)]> (df_columns df) |}
  | None => Q (Raise (KeyError "Signal")) df
  end →
  local l (position_changes l) Q df.
Proof.
  intros HQ. unfold position_changes.
  apply local_bind, local_getitem.
  destruct (df_columns df !! "Signal") as [s|]; [|done].
  apply local_bind, local_setitem.
  apply local_bind, local_getitem. cbn [df_columns df_index].
  rewrite lookup_insert_eq.
  apply local_bind, local_setitem.
  apply local_bind, local_getitem. cbn [df_columns df_index].
  rewrite lookup_insert_eq.
  apply local_setitem. cbn [df_columns df_index to_float].
  by rewrite !insert_insert_eq.
Qed.

(** [data.copy()] followed by work on the copy: the store gains one object
    and nothing else changes. *)
Lemma copy_then_local {A} (data : ref) (k : ref → M A)
    (Q : ref → result A → DataFrame → Prop) (h : heap) df :
  h !! data = Some df →
  (∀ l', local l' (k l') (Q l') df) →
  ∃ r df', (copy data ≫= k) h = (r, <[fresh (dom h) := df']> h)
           ∧ Q (fresh (dom h)) r df'.
Proof.
  intros Hd Hk. unfold mbind, M_bind, bind, copy. rewrite Hd.
  destruct (Hk (fresh (dom h)) (<[fresh (dom h) := df]> h))
    as (r & df' & Hrun & HQ).
  { apply lookup_insert_eq. }
  exists r, df'. by rewrite Hrun, insert_insert_eq.
Qed.

Lemma copy_unbound {A} (data : ref) (k : ref → M A) (h : heap) :
  h !! data = None → (copy data ≫= k) h = (Raise ReferenceError, h).
Proof. intros Hd. unfold mbind, M_bind, bind, copy. by rewrite Hd. Qed.

End local_frame_rules.

(** ** The four strategies, run on the copy *)

Ltac lookup_cols :=
  cbn [df_columns df_index];
  repeat (rewrite lookup_insert_eq || rewrite lookup_insert_ne by done).

Ltac run_step :=
  cbv beta iota; cbn [df_columns df_index];
  lazymatch goal with
  | |- local _ (_ ≫= _) _ _ => apply local_bind
  | |- local _ (getitem _ _) _ _ => apply local_getitem; lookup_cols
  | |- local _ (setitem _ _ _) _ _ => apply local_setitem
  | |- local _ (len _) _ _ => apply local_len
  | |- local _ (index _) _ _ => apply local_index
  | |- local _ (item _ _) _ _ => apply local_item
  | |- local _ (loc_assign _ _ _ _) _ _ => apply local_loc_assign; lookup_cols
  | |- local _ (position_changes _) _ _ =>
      apply local_position_changes; lookup_cols
  | |- local _ (if ?b then _ else _) _ _ => destruct b eqn:?
  | |- local _ _ _ _ => apply local_ret
  | |- match ?x with Some _ => _ | None => _ end => destruct x eqn:?
  | |- ∀ out, Raise _ = Ok out → _ => by intros ??
  end.

Ltac run_all := repeat run_step.

Section strategies.
Local Open Scope float_scope.

Lemma signals_of_intro df idx' cols signal :
  idx' = df_index df →
  cols !! "Signal" = Some (IntSeries signal) →
  length signal = length (df_index df) →
  Forall regime signal →
  cols !! "Position" = Some (FloatSeries (position_of (IntSeries signal))) →
  signals_of df {| df_index := idx'; df_columns := cols |}.
Proof. intros -> ????. split; [done|]. by exists signal. Qed.

Ltac finish_signals :=
  intros ? [= <-]; split; [done|];
  eapply signals_of_intro;
  [ done
  | lookup_cols; reflexivity
  | rewrite ?assign_masked_length; apply length_replicate
  | try apply assign_masked_Forall; try apply regime_zeros
  | lookup_cols; reflexivity ].

Lemma Forall_zip_with_all {A B C} (P : C → Prop) (f : A → B → C) xs ys :
  (∀ x y, P (f x y)) → Forall P (zip_with f xs ys).
Proof.
  intros Hf. revert ys. induction xs as [|x xs IH]; intros [|y ys]; simpl;
    constructor; auto.
Qed.

Lemma Forall_fmap_all {A C} (P : C → Prop) (f : A → C) (xs : list A) :
  (∀ x, P (f x)) → Forall P (f <$> xs).
Proof. intros Hf. apply Forall_fmap, Forall_forall. intros x _. apply Hf. Qed.

Ltac regime_cases :=
  repeat first [ case_match; try (by left); try (by right; left);
                 try (by right; right) ].

Lemma sma_run short_window long_window data (h : heap) df :
  h !! data = Some df →
  ∃ r df',
    SMACrossoverStrategy.generate_signals short_window long_window data h
      = (r, <[fresh (dom h) := df']> h)
    ∧ body_post df (fresh (dom h)) r df'.
Proof.
  intros Hd. unfold SMACrossoverStrategy.generate_signals.
  apply (copy_then_local data _ (body_post df) h df Hd).
  intros l. unfold body_post. run_all; finish_signals.
  apply Forall_zip_with_all. intros x y. regime_cases.
Qed.

Lemma rsi_run window overbought oversold data (h : heap) df :
  h !! data = Some df →
  ∃ r df',
    RSIStrategy.generate_signals window overbought oversold data h
      = (r, <[fresh (dom h) := df']> h)
    ∧ body_post df (fresh (dom h)) r df'
    ∧ (∀ out close, r = Ok out →
         df_columns df !! "Close" = Some close →
         df_columns df' !! "RSI"
           = Some (FloatSeries (RSIStrategy.rsi window (to_float close)))).
Proof.
  intros Hd. unfold RSIStrategy.generate_signals.
  apply (copy_then_local data _
           (λ l r df', body_post df l r df' ∧
              ∀ out close, r = Ok out →
                df_columns df !! "Close" = Some close →
                df_columns df' !! "RSI"
                  = Some (FloatSeries
                            (RSIStrategy.rsi window (to_float close))))
           h df Hd).
  intros l. unfold body_post.
  run_all; (split; [first [by intros ?? | finish_signals] | try (by intros ??)]).
  all: try (apply Forall_fmap_all; intros x; regime_cases).
  all: try (intros out close _ [= <-]; lookup_cols; reflexivity).
  all: try (intros out close [=]).
Qed.

Lemma macd_run fast_period slow_period signal_period data (h : heap) df :
  h !! data = Some df →
  ∃ r df',
    MACDStrategy.generate_signals fast_period slow_period signal_period data h
      = (r, <[fresh (dom h) := df']> h)
    ∧ body_post df (fresh (dom h)) r df'.
Proof.
  intros Hd. unfold MACDStrategy.generate_signals.
  apply (copy_then_local data _ (body_post df) h df Hd).
  intros l. unfold body_post. run_all; finish_signals.
  apply Forall_zip_with_all. intros [x y] v. regime_cases.
Qed.

Lemma bollinger_run window num_std data (h : heap) df :
  h !! data = Some df →
  ∃ r df',
    BollingerBandsStrategy.generate_signals window num_std data h
      = (r, <[fresh (dom h) := df']> h)
    ∧ body_post df (fresh (dom h)) r df'.
Proof.
  intros Hd. unfold BollingerBandsStrategy.generate_signals.
  apply (copy_then_local data _ (body_post df) h df Hd).
  intros l. unfold body_post. run_all; finish_signals.
  apply Forall_zip_with_all. intros [x y] v. regime_cases.
Qed.

(** Every strategy: one new object, which holds the signals. *)
Lemma apply_strategy_run st data (h : heap) df :
  h !! data = Some df →
  ∃ r df',
    apply_strategy data st h = (r, <[fresh (dom h) := df']> h)
    ∧ body_post df (fresh (dom h)) r df'.
Proof.
  intros Hd. destruct st as [s lw|w ob os|f s g|w k]; simpl.
  - by apply sma_run.
  - destruct (rsi_run w ob os data h df Hd) as (r & df' & ? & ? & _). eauto.
  - by apply macd_run.
  - by apply bollinger_run.
Qed.

Lemma apply_strategy_unbound st data (h : heap) :
  h !! data = None → apply_strategy data st h = (Raise ReferenceError, h).
Proof.
  intros Hd. destruct st; simpl; by apply copy_unbound.
Qed.

End strategies.

(** ** Facts about binary64 division by zero *)

Section float_facts.
Local Open Scope float_scope.

Lemma float_eq_zero x : (x =? 0) = true → x = 0 ∨ x = -0.
Proof.
  intros H. rewrite FloatAxioms.eqb_spec in H.
  pose proof (SF2Prim_Prim2SF x) as Hx.
  destruct (Prim2SF x) as [[|]|[|]| |[|] m e]; try discriminate H;
    subst x.
  - by right.
  - by left.
Qed.

Lemma float_pos_div_zero g l :
  (0 <? g) = true → l = 0 ∨ l = -0 →
  g / l = infinity ∨ g / l = neg_infinity.
Proof.
  intros Hg Hl. rewrite FloatAxioms.ltb_spec in Hg.
  assert (Prim2SF (g / l) = S754_infinity false
          ∨ Prim2SF (g / l) = S754_infinity true) as [H|H].
  { rewrite FloatAxioms.div_spec.
    destruct (Prim2SF g) as [[|]|[|]| |[|] m e]; try discriminate Hg;
      destruct Hl as [-> | ->]; simpl; auto. }
  - left. by apply Prim2SF_inj.
  - right. by apply Prim2SF_inj.
Qed.

(** No loss and some gain: the quotient is infinite and the RSI is 100. *)
Lemma rsi_of_zero_loss gain loss :
  (loss =? 0) = true → (0 <? gain) = true →
  RSIStrategy.rsi_of gain loss = 100.
Proof.
  intros Hl Hg. apply float_eq_zero in Hl.
  unfold RSIStrategy.rsi_of.
  destruct (float_pos_div_zero gain loss Hg Hl) as [-> | ->]; reflexivity.
Qed.

(** No loss and no gain: the quotient 0/0 is NaN, and so is the RSI. *)
Lemma rsi_of_zero_loss_zero_gain gain loss :
  (loss =? 0) = true → (gain =? 0) = true →
  RSIStrategy.rsi_of gain loss = nan.
Proof.
  intros Hl Hg. apply float_eq_zero in Hl, Hg.
  destruct Hl as [-> | ->], Hg as [-> | ->]; reflexivity.
Qed.

Lemma rsi_lookup window close i gain loss :
  RSIStrategy.rsi_gain window close !! i = Some gain →
  RSIStrategy.rsi_loss window close !! i = Some loss →
  RSIStrategy.rsi window close !! i = Some (RSIStrategy.rsi_of gain loss).
Proof.
  intros Hg Hl. unfold RSIStrategy.rsi.
  rewrite lookup_zip_with, Hg. simpl. by rewrite Hl.
Qed.

End float_facts.

(** ** Properties of [generate_signals] *)

Section signal_properties.
Local Open Scope float_scope.

(** C10: for every strategy, [generate_signals] leaves the frame it is given
    (index, Close and every other column) as it was, leaves every other
    object of the store as it was, and the frame it returns is a new object,
    distinct from its argument. *)
Theorem generate_signals_keeps_its_input st data (h : heap) df r h' :
  h !! data = Some df →
  apply_strategy data st h = (r, h') →
  h' !! data = Some df
  ∧ (∀ l d, h !! l = Some d → h' !! l = Some d)
  ∧ (∀ out, r = Ok out →
       out ≠ data ∧ h !! out = None
       ∧ ∃ df', h' !! out = Some df' ∧ signals_of df df').
Proof.
  intros Hd Hrun.
  destruct (apply_strategy_run st data h df Hd)
    as (r0 & df' & Hrun' & Hpost).
  rewrite Hrun' in Hrun. injection Hrun as <- <-.
  assert (h !! fresh (dom h) = None) as Hfresh.
  { apply not_elem_of_dom, is_fresh. }
  assert (∀ l d, h !! l = Some d → <[fresh (dom h) := df']> h !! l = Some d)
    as Hkeep.
  { intros l d Hl. rewrite lookup_insert_ne; [done|]. congruence. }
  split; [by apply Hkeep|]. split; [done|].
  intros out Hout. destruct (Hpost _ Hout) as [-> Hsig].
  split; [congruence|]. split; [done|].
  exists df'. by rewrite lookup_insert_eq.
Qed.

Lemma generate_signals_keeps_its_input_witness :
  store_after_rsi !! 1%positive = Some fall_then_jump
  ∧ (∀ l d, store_of fall_then_jump !! l = Some d →
       store_after_rsi !! l = Some d)
  ∧ (∀ out, Ok 2%positive = Ok out →
       out ≠ 1%positive ∧ store_of fall_then_jump !! out = None
       ∧ ∃ df', store_after_rsi !! out = Some df'
                ∧ signals_of fall_then_jump df').
Proof.
  apply (generate_signals_keeps_its_input (rsi_strategy 2 70 30) 1%positive
           (store_of fall_then_jump) fall_then_jump).
  - reflexivity.
  - vm_compute. reflexivity.
Defined.

(** Every successful run started from a frame, and returned the new
    object. *)
Lemma apply_strategy_ok st data (h : heap) out h' :
  apply_strategy data st h = (Ok out, h') →
  ∃ df df', h !! data = Some df ∧ h' !! out = Some df' ∧ signals_of df df'.
Proof.
  intros Hrun. destruct (h !! data) as [df|] eqn:Hd.
  - destruct (apply_strategy_run st data h df Hd) as (r & df' & Hrun' & Hpost).
    rewrite Hrun' in Hrun. injection Hrun as -> <-.
    destruct (Hpost _ eq_refl) as [-> Hsig].
    exists df, df'. by rewrite lookup_insert_eq.
  - rewrite (apply_strategy_unbound st data h Hd) in Hrun. discriminate.
Qed.

(** C5, as the code has it: for every strategy and every frame with at
    least one row, the first entry of the Position column is the missing
    value NaN, which compares unequal to 0, to 2 (BUY) and to -2 (SELL). *)
Theorem first_event_is_missing st data (h : heap) df out h' :
  h !! data = Some df →
  df_index df ≠ [] →
  apply_strategy data st h = (Ok out, h') →
  entry h' out "Position" 0 = Some nan
  ∧ (nan =? 0) = false ∧ (nan =? 2) = false ∧ (nan =? -2) = false.
Proof.
  intros Hd Hne Hrun. split; [|done].
  destruct (apply_strategy_ok st data h out h' Hrun)
    as (df0 & df' & Hd' & Hout & Hidx & signal & Hsig & Hlen & _ & Hpos).
  rewrite Hd in Hd'. injection Hd' as <-.
  unfold entry. rewrite Hout. simpl. rewrite Hpos. simpl.
  apply position_of_first. simpl.
  destruct signal; [|done]. by destruct (df_index df).
Qed.

Lemma first_event_is_missing_witness :
  entry store_after_rsi 2%positive "Position" 0 = Some nan
  ∧ (nan =? 0) = false ∧ (nan =? 2) = false ∧ (nan =? -2) = false.
Proof.
  apply (first_event_is_missing (rsi_strategy 2 70 30) 1%positive
           (store_of fall_then_jump) fall_then_jump).
  - reflexivity.
  - discriminate.
  - vm_compute. reflexivity.
Defined.

(** C5, as the claim words it, fails: on a frame with a single bar the SMA
    crossover strategy returns NaN as the first event, and NaN is not 0. *)
Lemma first_event_not_zero :
  let run := apply_strategy 1%positive (sma_crossover 20 50)
               (store_of one_bar) in
  run.1 = Ok 2%positive
  ∧ entry run.2 2%positive "Position" 0 = Some nan
  ∧ (nan =? 0) = false
  ∧ nan ≠ 0.
Proof. vm_compute. repeat split; done. Qed.



(** The run of the specification's RSI scenario: the regimes 0, 0, 1, -1
    give the events NaN, 0, 2 (BUY), -2 (SELL). *)
Example rsi_scenario :
  entry store_after_rsi 2%positive "Signal" <$> [0; 1; 2; 3]%nat
    = [Some 0; Some 0; Some 1; Some (-1)]
  ∧ entry store_after_rsi 2%positive "Position" <$> [0; 1; 2; 3]%nat
    = [Some nan; Some 0; Some 2; Some (-2)].
Proof. vm_compute. done. Qed.

(** The specification's SMA scenario: on six equal closes with windows 2
    and 3 the two averages are equal, the regime turns bearish once the
    warm-up is over, and one event (a SELL) is all there is. *)
Example sma_flat_scenario :
  let run := apply_strategy 1%positive (sma_crossover 2 3)
               (store_of six_flat) in
  entry run.2 2%positive "Signal" <$> [0; 1; 2; 3; 4; 5]%nat
    = [Some 0; Some 0; Some 0; Some (-1); Some (-1); Some (-1)]
  ∧ entry run.2 2%positive "Position" <$> [0; 1; 2; 3; 4; 5]%nat
    = [Some nan; Some 0; Some 0; Some (-2); Some 0; Some 0].
Proof. vm_compute. done. Qed.

End signal_properties.

(** ** The RSI where the window has no loss *)

Section rsi_no_loss.
Local Open Scope float_scope.

(** C7, as the code has it: at an index where the rolling average loss is
    zero, the RSI column holds 100 when the rolling average gain is positive,
    and the missing value NaN when the rolling average gain is zero too. *)
Theorem rsi_at_zero_loss window overbought oversold data (h : heap) df close
    out h' i gain loss :
  h !! data = Some df →
  df_columns df !! "Close" = Some close →
  RSIStrategy.generate_signals window overbought oversold data h
    = (Ok out, h') →
  RSIStrategy.rsi_gain window (to_float close) !! i = Some gain →
  RSIStrategy.rsi_loss window (to_float close) !! i = Some loss →
  (loss =? 0) = true →
  ((0 <? gain) = true → entry h' out "RSI" i = Some 100)
  ∧ ((gain =? 0) = true → entry h' out "RSI" i = Some nan).
Proof.
  intros Hd Hclose Hrun Hg Hl Hzero.
  destruct (rsi_run window overbought oversold data h df Hd)
    as (r & df' & Hrun' & Hpost & Hrsi).
  rewrite Hrun' in Hrun. injection Hrun as -> <-.
  destruct (Hpost _ eq_refl) as [-> _].
  specialize (Hrsi _ _ eq_refl Hclose).
  assert (entry (<[fresh (dom h) := df']> h) (fresh (dom h)) "RSI" i
          = Some (RSIStrategy.rsi_of gain loss)) as Hentry.
  { unfold entry. rewrite lookup_insert_eq. simpl. rewrite Hrsi. simpl.
    by apply rsi_lookup. }
  rewrite Hentry. split; intros Hgain; f_equal.
  - by apply rsi_of_zero_loss.
  - by apply rsi_of_zero_loss_zero_gain.
Qed.

Lemma rsi_at_zero_loss_witness :
  entry store_after_rsi_rising 2%positive "RSI" 2 = Some 100.
Proof.
  apply (rsi_at_zero_loss 2 70 30 1%positive (store_of rising) rising
           (FloatSeries [10; 11; 12]) 2%positive store_after_rsi_rising
           2%nat 1 (-0)).
  - reflexivity.
  - reflexivity.
  - vm_compute. reflexivity.
  - reflexivity.
  - reflexivity.
  - reflexivity.
  - reflexivity.
Defined.

(** C7, as the claim words it, fails: on three equal closes with window 2
    the rolling average loss at the last index is zero, and the RSI there is
    NaN, not 100. *)
Lemma rsi_flat_is_nan :
  let run := RSIStrategy.generate_signals 2 70 30 1%positive
               (store_of flat_closes) in
  run.1 = Ok 2%positive
  ∧ RSIStrategy.rsi_loss 2 [10; 10; 10] !! 2%nat = Some (-0)
  ∧ (-0 =? 0) = true
  ∧ RSIStrategy.rsi_gain 2 [10; 10; 10] !! 2%nat = Some 0
  ∧ entry run.2 2%positive "RSI" 2 = Some nan
  ∧ (nan =? 100) = false.
Proof. vm_compute. repeat split; done. Qed.

End rsi_no_loss.

(** ** Trade validation *)

Section trade_validation.
Import RiskManager.
Local Open Scope float_scope.

(** C4, as the code has it: with 100 of cash and the default risk settings,
    a buy of 0.5 shares at 5 is rejected as too small (value 2.5 < 10); a
    buy of 5 shares at 10 passes the cash check (50 <= 100) and the minimum
    trade value, and is rejected as too large a position, because its value
    50 exceeds 100 x MAX_POSITION_SIZE = 10. *)
Theorem validate_trade_scenario ticker :
  validate_trade default_manager ticker 0.5 5 "buy" 100 ∅
    = (false, TradeTooSmall 2.5)
  ∧ reason_text (TradeTooSmall 2.5) = "Trade too small: $"
  ∧ validate_trade default_manager ticker 5 10 "buy" 100 ∅
    = (false, PositionTooLarge 50)
  ∧ reason_text (PositionTooLarge 50) = "Position too large: $"
  ∧ gtb (abs (5 * 10)) 100 = false
  ∧ (abs (5 * 10) <? 10) = false
  ∧ gtb ((0 + 5) * 10) (100 * max_position_size default_manager) = true.
Proof.
  unfold validate_trade, get0. rewrite lookup_empty. repeat split.
Qed.

(** C4, as the claim words it, fails: the buy of 5 shares at 10 is not
    accepted. *)
Lemma validate_trade_rejects_half_of_cash :
  validate_trade default_manager "AAPL" 5 10 "buy" 100 ∅
    = (false, PositionTooLarge 50).
Proof. reflexivity. Qed.

End trade_validation.

(** ** The metrics *)

Section metrics.
Import Backtester.
Local Open Scope float_scope.

Lemma dropna_length xs : length (dropna xs) ≤ length xs.
Proof. apply length_filter. Qed.


(** The sample deviation of fewer than two returns is the missing value. *)
Lemma std_short xs : length xs ≤ 1 → std xs = nan.
Proof.
  intros H. unfold std, var.
  destruct (Nat.leb_spec (length xs) 1) as [_|?]; [reflexivity|lia].
Qed.

End metrics.

(** ** The ledger *)

Section folds.
Import Backtester.

Lemma foldlM_inv {A B} (f : A → B → result A) (I : A → Prop) bs a a' :
  (∀ a b a', b ∈ bs → I a → f a b = Ok a' → I a') →
  I a → foldlM f a bs = Ok a' → I a'.
Proof.
  revert a. induction bs as [|b bs IH]; intros a Hstep Ha Hrun.
  - by injection Hrun as <-.
  - simpl in Hrun. destruct (f a b) as [a1|e] eqn:Hf; [|done].
    simpl in Hrun. apply (IH a1); [|by eapply Hstep; [left|..]|done].
    intros ???? ; apply Hstep. by right.
Qed.

Lemma foldlM_seq_inv {A} (f : A → nat → result A) (I : nat → A → Prop)
    len start a a' :
  (∀ k a a', start ≤ k < start + len → I k a → f a k = Ok a' → I (S k) a') →
  I start a → foldlM f a (seq start len) = Ok a' → I (start + len) a'.
Proof.
  revert start a. induction len as [|len IH]; intros start a Hstep Ha Hrun.
  - injection Hrun as <-. by rewrite Nat.add_0_r.
  - simpl in Hrun. destruct (f a start) as [a1|e] eqn:Hf; [|done].
    simpl in Hrun. rewrite <- Nat.add_succ_comm.
    apply (IH (S start) a1); [| |done].
    + intros k b b' Hk. apply Hstep. lia.
    + eapply Hstep; [|done..]. lia.
Qed.

End folds.

Section ledger.
Import Backtester.
Local Open Scope float_scope.

(** Adding zero to a number gives a number that compares equal to it. *)
Lemma float_add_zero_eqb x : isnan x = false → (x =? x + 0) = true.
Proof.
  unfold isnan. intros Hx. apply negb_false_iff in Hx.
  rewrite FloatAxioms.eqb_spec in *. rewrite FloatAxioms.add_spec.
  change (Prim2SF 0) with (S754_zero false).
  destruct (Prim2SF x) as [[|]|[|]| |[|] m e]; try done.
Qed.

Lemma float_self_eqb x : isnan x = false → (x =? x) = true.
Proof. unfold isnan. intros Hx. by apply negb_false_iff in Hx. Qed.

Lemma loc_set_length idx day v col :
  length col = length idx → length (loc_set idx day v col) = length idx.
Proof. intros H. unfold loc_set. rewrite length_zip_with. lia. Qed.

(** What a day leaves in the ledger: the rows that carry the label of the
    day hold the day's holdings, cash and their sum; the others are as
    before. *)
Lemma day_step_rows data_dict weights p sh tr k p' sh' tr' :
  day_step data_dict weights (p, sh, tr) k = Ok (p', sh', tr') →
  index p' = index p
  ∧ (ledger_shape p → ledger_shape p')
  ∧ ∃ day hv cash,
      index p !! k = Some day
      ∧ ∀ i r', row p' i = Some r' →
          ∃ l r, index p !! i = Some l ∧ row p i = Some r
                 ∧ r' = if bool_decide (l = day)
                        then (hv, cash, cash + hv) else r.
Proof.
  unfold day_step. intros Hrun.
  destruct (iloc (Cash p) (k - 1)) as [cash0|] eqn:Hc; [|done].
  simpl in Hrun. unfold iloc in Hrun at 1.
  destruct (index p !! k) as [day|] eqn:Hday; [|done]. simpl in Hrun.
  destruct (foldlM _ _ data_dict) as [s|] eqn:Hs; [|done].
  simpl in Hrun. injection Hrun as <- <- <-.
  split; [done|]. split.
  { intros (H1 & H2 & H3). unfold ledger_shape. simpl.
    by rewrite !loc_set_length. }
  exists day, (holdings_value s), (current_cash s). split; [done|].
  intros i r'. unfold row, loc_set. simpl. intros Hrow.
  destruct (zip_with _ (index p) (Holdings p) !! i) as [h'|] eqn:Hh; [|done].
  destruct (zip_with _ (index p) (Cash p) !! i) as [c'|] eqn:Hc'; [|done].
  destruct (zip_with _ (index p) (Total p) !! i) as [t'|] eqn:Ht; [|done].
  simpl in Hrow. injection Hrow as <-.
  apply lookup_zip_with_Some in Hh as (l1 & h & -> & Hl1 & Hh).
  apply lookup_zip_with_Some in Hc' as (l2 & c & -> & Hl2 & Hc').
  apply lookup_zip_with_Some in Ht as (l3 & t & -> & Hl3 & Ht).
  rewrite Hl1 in Hl2, Hl3. injection Hl2 as <-. injection Hl3 as <-.
  exists l1, (h, c, t). rewrite Hh, Hc', Ht. split; [done|]. split; [done|].
  by destruct (bool_decide (l1 = day)).
Qed.

Lemma initial_rows idx n (c0 : float) i r :
  row {| index := idx; Holdings := replicate n 0; Cash := replicate n c0;
         Total := replicate n c0 |} i = Some r →
  initial_row c0 r.
Proof.
  unfold row. simpl. intros H.
  destruct (replicate n 0 !! i) as [h|] eqn:Hh; [|done]. simpl in H.
  destruct (replicate n c0 !! i) as [c|] eqn:Hc; [|done]. simpl in H.
  injection H as <-.
  apply lookup_replicate in Hh as [-> _].
  apply lookup_replicate in Hc as [-> _]. done.
Qed.

(** The loop of [backtester], opened up. *)
Lemma backtester_loop_inv data_dict initial_cash weights p trades :
  backtester_loop data_dict initial_cash weights = Ok (p, trades) →
  ∃ name first rest w sh,
    data_dict = (name, first) :: rest
    ∧ foldlM (day_step data_dict w)
        ({| index := df_index first;
            Holdings := replicate (length (df_index first)) 0;
            Cash := replicate (length (df_index first)) initial_cash;
            Total := replicate (length (df_index first)) initial_cash |},
         list_to_map ((λ e, (e.1, 0)) <$> data_dict), [])
        (seq 1 (length (df_index first) - 1))
      = Ok (p, sh, trades).
Proof.
  unfold backtester_loop. intros Hrun.
  destruct data_dict as [|[name first] rest]; [done|]. simpl in Hrun.
  match type of Hrun with
  | context [foldlM ?f ?a ?l] => destruct (foldlM f a l) as [[[p1 sh] tr]|] eqn:Hf
  end; [|done].
  simpl in Hrun. injection Hrun as <- <-.
  eexists name, first, rest, _, sh. split; [done|]. exact Hf.
Qed.

Lemma backtester_inv data_dict initial_cash weights p metrics stats :
  backtester data_dict initial_cash weights = Ok (p, metrics, stats) →
  ∃ trades, backtester_loop data_dict initial_cash weights = Ok (p, trades).
Proof.
  unfold backtester. intros Hrun.
  destruct (backtester_loop _ _ _) as [[p1 tr]|]; [|done]. simpl in Hrun.
  destruct (calculate_trade_statistics _ _); [|done].
  simpl in Hrun. injection Hrun as <- _ _. by exists tr.
Qed.

(** Whatever the index, a row is the initial one or a balanced one. *)
Lemma ledger_rows data_dict initial_cash weights p trades :
  backtester_loop data_dict initial_cash weights = Ok (p, trades) →
  ledger_shape p
  ∧ ∀ i r, row p i = Some r → initial_row initial_cash r ∨ balanced r.
Proof.
  intros Hrun.
  apply backtester_loop_inv in Hrun
    as (name & first & rest & w & sh & -> & Hfold).
  apply (foldlM_inv _
           (λ st : State, ledger_shape st.1.1
              ∧ ∀ i r, row st.1.1 i = Some r →
                  initial_row initial_cash r ∨ balanced r))
    in Hfold; [done| |].
  - intros [[p0 sh0] tr0] k [[p1 sh1] tr1] _ [Hshape Hrows] Hstep.
    apply day_step_rows in Hstep
      as (Hidx & Hshape' & day & hv & cash & Hday & Hnew).
    split; [by apply Hshape'|]. simpl in *.
    intros i r' Hr'. destruct (Hnew i r' Hr') as (l & r & Hl & Hr & ->).
    destruct (bool_decide (l = day)); [right; reflexivity|]. by eapply Hrows.
  - split.
    + unfold ledger_shape. simpl. rewrite !length_replicate. done.
    + intros i r Hr. left. simpl in Hr. by apply initial_rows in Hr.
Qed.

(** With distinct index labels, day [k] writes row [k] and no other. *)
Lemma ledger_rows_distinct data_dict initial_cash weights p trades :
  backtester_loop data_dict initial_cash weights = Ok (p, trades) →
  NoDup (index p) →
  ∀ i r, row p i = Some r →
    (i = 0%nat → initial_row initial_cash r) ∧ ((1 ≤ i)%nat → balanced r).
Proof.
  intros Hrun Hnodup.
  apply backtester_loop_inv in Hrun
    as (name & first & rest & w & sh & -> & Hfold).
  set (idx := df_index first) in *.
  assert (index p = idx) as Hidxp.
  { pose proof Hfold as Hfold'.
    apply (foldlM_inv _ (λ st : State, index st.1.1 = idx)) in Hfold';
      [done| |done].
    intros [[pa sa] ta] j [[pb sb] tb] _ Ha Hs.
    apply day_step_rows in Hs as (Hi & _). simpl in *. congruence. }
  rewrite Hidxp in Hnodup.
  apply (foldlM_seq_inv _
           (λ k (st : State), index st.1.1 = idx
              ∧ ledger_shape st.1.1
              ∧ ∀ i r, row st.1.1 i = Some r →
                  ((i = 0 ∨ k ≤ i)%nat → initial_row initial_cash r)
                  ∧ ((1 ≤ i < k)%nat → balanced r)))
    in Hfold.
  - simpl in Hfold. destruct Hfold as (Hidx & Hshape & Hrows).
    intros i r Hr. destruct (Hrows i r Hr) as [Hinit Hbal].
    split; [intros ->; apply Hinit; by left|].
    intros Hi. apply Hbal. split; [done|].
    assert (i < length idx)%nat; [|lia].
    destruct Hshape as (Hh & _). rewrite <- Hidx, <- Hh.
    unfold row in Hr. destruct (Holdings p !! i) eqn:E; [|done].
    by eapply lookup_lt_Some.
  - intros k [[p0 sh0] tr0] [[p1 sh1] tr1] Hk (Hidx & Hshape & Hrows) Hstep.
    apply day_step_rows in Hstep
      as (Hidx' & Hshape' & day & hv & cash & Hday & Hnew).
    simpl in *. split; [congruence|]. split; [by apply Hshape'|].
    intros i r' Hr'. destruct (Hnew i r' Hr') as (l & r & Hl & Hr & ->).
    destruct (Hrows i r Hr) as [Hinit Hbal].
    rewrite Hidx in Hday, Hl.
    destruct (bool_decide_reflect (l = day)) as [->|Hne].
    + assert (i = k) as -> by (eapply NoDup_lookup; eauto).
      split; [intros [?|?]; lia|]. intros _. reflexivity.
    + assert (i ≠ k) by congruence.
      split; [intros [?|?]; apply Hinit; lia|].
      intros ?. apply Hbal. lia.
  - simpl. split; [done|]. split.
    + unfold ledger_shape. simpl. rewrite !length_replicate. done.
    + intros i r Hr. split; [|lia]. intros _. simpl in Hr.
      by apply initial_rows in Hr.
Qed.

Lemma eqb_true_not_nan x y : (x =? y) = true → isnan x = false.
Proof.
  unfold isnan. rewrite !FloatAxioms.eqb_spec. intros H.
  apply negb_false_iff. unfold SFeqb in *.
  destruct (Prim2SF x) as [s|s| |s m e]; [done|by destruct s|done|].
  simpl. rewrite Z.compare_refl, Pos.compare_cont_refl. by destruct s.
Qed.

(** C1, as the code has it: in every run of [backtester] the ledger has one
    row per index label; every row is the initial row (holdings 0, cash and
    total the initial cash) or a written row whose Total is the float sum of
    its Cash and Holdings; Python's [total == cash + holdings] is True on
    exactly the rows whose total is not NaN; and with distinct index labels
    row 0 is the initial row and every later row is a written one. *)
Theorem ledger_identity data_dict initial_cash weights p metrics stats :
  backtester data_dict initial_cash weights = Ok (p, metrics, stats) →
  ledger_shape p
  ∧ (∀ i r, row p i = Some r → initial_row initial_cash r ∨ balanced r)
  ∧ (∀ i h c t, row p i = Some (h, c, t) →
       (t =? c + h) = negb (isnan t))
  ∧ (NoDup (index p) →
       (∀ r, row p 0 = Some r → initial_row initial_cash r)
       ∧ (∀ i r, (1 ≤ i)%nat → row p i = Some r → balanced r)).
Proof.
  intros Hrun. apply backtester_inv in Hrun as [trades Hrun].
  destruct (ledger_rows _ _ _ _ _ Hrun) as [Hshape Hrows].
  split; [done|]. split; [done|]. split.
  - intros i h c t Hr.
    destruct (isnan t) eqn:Hnum; simpl.
    + destruct (t =? c + h) eqn:Heq; [|done].
      apply eqb_true_not_nan in Heq. congruence.
    + destruct (Hrows i _ Hr) as [Hi|Hb].
      * injection Hi as -> -> ->. by apply float_add_zero_eqb.
      * unfold balanced in Hb. simpl in Hb. rewrite <- Hb.
        by apply float_self_eqb.
  - intros Hnodup. split.
    + intros r Hr.
      by apply (ledger_rows_distinct _ _ _ _ _ Hrun Hnodup 0%nat r Hr).
    + intros i r Hi Hr.
      by apply (ledger_rows_distinct _ _ _ _ _ Hrun Hnodup i r Hr).
Qed.

Lemma ledger_identity_witness :
  ledger_shape buy_and_hold_ledger
  ∧ (∀ i r, row buy_and_hold_ledger i = Some r →
       initial_row 10000 r ∨ balanced r)
  ∧ (∀ i h c t, row buy_and_hold_ledger i = Some (h, c, t) →
       (t =? c + h) = negb (isnan t))
  ∧ (NoDup (index buy_and_hold_ledger) →
       (∀ r, row buy_and_hold_ledger 0 = Some r → initial_row 10000 r)
       ∧ (∀ i r, (1 ≤ i)%nat → row buy_and_hold_ledger i = Some r →
            balanced r)).
Proof.
  apply (ledger_identity buy_and_hold 10000 None buy_and_hold_ledger
           {| sharpe_ratio := 0; max_drawdown := 0 |} buy_and_hold_stats).
  vm_compute. reflexivity.
Defined.

(** C1, as the claim words it, fails.  A run over an instrument that is held
    and never traded, and whose close on day 1 is missing, completes with the
    row (NaN, 10000, NaN) for that day; a run that buys on day 1 at a close
    of 0 completes with the row (NaN, NaN, NaN), since the shares bought are
    infinite and their value is infinity times zero.  On both rows
    [total == cash + holdings] is False. *)
Lemma ledger_identity_fails_on_nan :
  (∃ p metrics stats,
     backtester missing_close 10000 None = Ok (p, metrics, stats)
     ∧ row p 1 = Some (nan, 10000, nan))
  ∧ (nan =? 10000 + nan) = false
  ∧ (∃ p metrics stats,
       backtester bought_at_zero 10000 None = Ok (p, metrics, stats)
       ∧ row p 1 = Some (nan, nan, nan))
  ∧ (nan =? nan + nan) = false
  ∧ 10000 / 0 = infinity
  ∧ infinity * 0 = nan.
Proof.
  split; [|split; [done|split; [|done]]].
  - eexists _, _, _. split; [vm_compute; reflexivity|]. vm_compute. done.
  - eexists _, _, _. split; [vm_compute; reflexivity|]. vm_compute. done.
Qed.

(** One ticker of one day appends at most one record, and that record
    stems from the event of the ticker. *)
Lemma ticker_step_trades i day weights st tk data st' :
  ticker_step i day weights st (tk, data) = Ok st' →
  trades st' = trades st
  ∨ ∃ tr position close p,
      trades st' = trades st ++ [tr]
      ∧ ticker tr = tk ∧ date tr = day
      ∧ column data "Position" = Ok position ∧ position !! i = Some p
      ∧ column data "Close" = Ok close ∧ close !! i = Some (price tr)
      ∧ value tr = shares tr * price tr
      ∧ ((act tr = BUY ∧ (p =? 2) = true)
         ∨ (act tr = SELL ∧ (p =? 2) = false ∧ (p =? -2) = true)).
Proof.
  unfold ticker_step. intros Hrun.
  destruct (column data "Position") as [position|] eqn:Hpos; [|done].
  simpl in Hrun. unfold iloc in Hrun.
  destruct (position !! i) as [p|] eqn:Hp; [|done]. simpl in Hrun.
  destruct (p =? 2) eqn:Hbuy; [|destruct (p =? -2) eqn:Hsell].
  - destruct (dict_get weights tk) as [w|]; [|done]. simpl in Hrun.
    destruct (column data "Close") as [close|] eqn:Hclose; [|done].
    simpl in Hrun. unfold iloc in Hrun.
    destruct (close !! i) as [c|] eqn:Hc; [|done]. simpl in Hrun.
    injection Hrun as <-. right. simpl.
    eexists _, position, close, p. split; [reflexivity|]. simpl.
    repeat split; try done. by left.
  - destruct (dict_get (held st) tk) as [sh|]; [|done]. simpl in Hrun.
    destruct (column data "Close") as [close|] eqn:Hclose; [|done].
    simpl in Hrun. unfold iloc in Hrun.
    destruct (close !! i) as [c|] eqn:Hc; [|done]. simpl in Hrun.
    injection Hrun as <-. right. simpl.
    eexists _, position, close, p. split; [reflexivity|]. simpl.
    repeat split; try done. by right.
  - destruct (dict_get (held st) tk) as [sh|]; [|done]. simpl in Hrun.
    destruct (column data "Close") as [close|]; [|done].
    simpl in Hrun. unfold iloc in Hrun.
    destruct (close !! i) as [c|]; [|done]. simpl in Hrun.
    injection Hrun as <-. by left.
Qed.

(** C9, as the code has it: every trade record the simulator appends stems
    from a BUY or SELL event of its instrument on that day, at the close of
    the day, with shares times price as its value.  The simulator asks no
    risk manager: nothing else is required of a record. *)
Theorem trade_records_stem_from_events data_dict initial_cash weights
    p trade_log :
  backtester_loop data_dict initial_cash weights = Ok (p, trade_log) →
  Forall (from_event data_dict (index p)) trade_log.
Proof.
  intros Hrun.
  apply backtester_loop_inv in Hrun
    as (name & first & rest & w & sh & Hdict & Hfold).
  set (idx := df_index first) in *. clearbody idx. clear Hdict.
  apply (foldlM_inv _
           (λ st : State, index st.1.1 = idx
                          ∧ Forall (from_event data_dict idx) st.2))
    in Hfold.
  - simpl in Hfold. destruct Hfold as [-> H]. done.
  - intros [[p0 sh0] tr0] k [[p1 sh1] tr1] Hk [Hidx Hlog] Hstep.
    simpl in Hidx, Hlog. apply elem_of_seq in Hk as [Hk _].
    pose proof Hstep as Hrows.
    apply day_step_rows in Hrows as (Hidx' & _). simpl in Hidx'.
    split; [simpl; congruence|]. simpl.
    unfold day_step in Hstep.
    destruct (iloc (Cash p0) (k - 1)) as [cash0|]; [|done].
    simpl in Hstep. unfold iloc in Hstep at 1.
    destruct (index p0 !! k) as [day|] eqn:Hday; [|done]. simpl in Hstep.
    match type of Hstep with
    | context [foldlM ?f ?a ?l] =>
        destruct (foldlM f a l) as [s|] eqn:Hs
    end; [|done].
    simpl in Hstep. injection Hstep as _ _ <-.
    apply (foldlM_inv _
             (λ s : Step, Forall (from_event data_dict idx) (trades s)))
      in Hs; [done| |done].
    intros s0 [tk data] s1 Hin Hs0 Hts.
    apply ticker_step_trades in Hts
      as [-> | (tr & position & close & q & -> & Htk & Hdate & Hpos & Hq
                & Hclose & Hc & Hval & Hact)]; [done|].
    apply Forall_app. split; [done|]. apply Forall_singleton.
    exists k, data, position, close, q.
    rewrite Htk, Hdate, <- Hidx. repeat split; done.
  - done.
Qed.

Lemma trade_records_stem_from_events_witness :
  Forall (from_event two_buys (index two_buys_ledger)) two_buys_trades.
Proof.
  apply (trade_records_stem_from_events two_buys 10000 (Some half_half)
           two_buys_ledger two_buys_trades).
  vm_compute. reflexivity.
Defined.

(** C9, as the claim words it, fails: a SELL event while nothing is held
    appends a record of 0 shares and value 0, a trade that [validate_trade]
    rejects as below the minimum trade value. *)
Lemma unvalidated_trade_is_recorded :
  backtester_loop idle_sell 10000 None
    = Ok (idle_sell_ledger, idle_sell_trades)
  ∧ RiskManager.validate_trade RiskManager.default_manager
      "A" 0 10 "sell" 10000 {[ "A" := 0 ]}
    = (false, RiskManager.TradeTooSmall 0).
Proof. vm_compute. done. Qed.

(** C2, the code at the failing input: with 10000 of cash and weights one
    half each, two BUY events on the same day give the first instrument 5000
    and the second 2500, half of what the first left, where cash before the
    step times weight is 5000 for both.  And with a SELL of A and a BUY of B on
    the same day, the ledger row of that day depends on which of the two comes
    first in the dict. *)
Lemma second_buy_is_sized_from_running_cash :
  backtester_loop two_buys 10000 (Some half_half)
    = Ok (two_buys_ledger, two_buys_trades)
  ∧ value <$> two_buys_trades = [5000; 2500]
  ∧ 10000 * 0.5 = 5000
  ∧ row_of (backtester_loop sell_then_buy 10000 (Some half_half)) 2
    = Some (10000, 10000, 20000)
  ∧ row_of (backtester_loop buy_then_sell 10000 (Some half_half)) 2
    = Some (2500, 17500, 20000).
Proof. vm_compute. done. Qed.

(** C3, the code at two failing inputs.  A day that starts with 5000 of
    cash, sells A first and then buys B, spends 10000 on the BUY.  And one
    instrument bought at 145 with all of 10000 leaves a negative Cash entry:
    the shares times the price round to more than the cash allotted. *)
Lemma buy_can_overspend :
  row_of (backtester_loop sell_then_buy 10000 (Some half_half)) 1
    = Some (5000, 5000, 10000)
  ∧ trades_of (backtester_loop sell_then_buy 10000 (Some half_half))
    = Some sell_then_buy_trades
  ∧ (5000 <? 10000) = true
  ∧ ∃ h c t,
      row_of (backtester_loop all_in_at_145 10000 None) 1 = Some (h, c, t)
      ∧ (c <? 0) = true
      ∧ row_of (backtester_loop all_in_at_145 10000 None) 0
        = Some (0, 10000, 10000).
Proof.
  split; [vm_compute; done|]. split; [vm_compute; done|].
  split; [done|]. eexists _, _, _.
  split; [vm_compute; reflexivity|]. split; vm_compute; done.
Qed.

End ledger.

(** ** More facts about binary64 values *)

Section more_float_facts.
Local Open Scope float_scope.

Lemma prim_nan x : Prim2SF x = S754_nan → x = nan.
Proof. intros H. by apply Prim2SF_inj. Qed.

Lemma SFcompare_refl x : x ≠ S754_nan → SFcompare x x = Some Eq.
Proof.
  destruct x as [s|s| |s m e]; try done.
  - by destruct s.
  - intros _. simpl. rewrite Z.compare_refl, Pos.compare_cont_refl.
    by destruct s.
Qed.

(** A value that differs from itself is the NaN. *)
Lemma isnan_nan x : isnan x = true → x = nan.
Proof.
  unfold isnan. intros H. apply negb_true_iff in H.
  rewrite FloatAxioms.eqb_spec in H. apply prim_nan.
  unfold SFeqb in H.
  destruct (Prim2SF x) as [s|s| |s m e] eqn:E; [..|done|];
    by rewrite SFcompare_refl in H.
Qed.

Lemma mul_nan_l x : nan * x = nan.
Proof. apply Prim2SF_inj. by rewrite FloatAxioms.mul_spec. Qed.

Lemma mul_nan_r x : x * nan = nan.
Proof.
  apply Prim2SF_inj. rewrite FloatAxioms.mul_spec.
  change (Prim2SF nan) with S754_nan. by destruct (Prim2SF x).
Qed.

Lemma add_nan_r x : x + nan = nan.
Proof.
  apply Prim2SF_inj. rewrite FloatAxioms.add_spec.
  change (Prim2SF nan) with S754_nan. by destruct (Prim2SF x).
Qed.

Lemma abs_nan : abs nan = nan.
Proof. reflexivity. Qed.

Lemma ltb_nan_l x : (nan <? x) = false.
Proof. by rewrite FloatAxioms.ltb_spec. Qed.

Lemma ltb_nan_r x : (x <? nan) = false.
Proof.
  rewrite FloatAxioms.ltb_spec. change (Prim2SF nan) with S754_nan.
  by destruct (Prim2SF x).
Qed.


(** An absolute value is never below zero. *)
Lemma abs_not_negative x : (abs x <? 0) = false.
Proof.
  rewrite FloatAxioms.ltb_spec, FloatAxioms.abs_spec.
  change (Prim2SF 0) with (S754_zero false).
  by destruct (Prim2SF x) as [s|s| |s m e].
Qed.

End more_float_facts.

(** ** More on [validate_trade] *)

Section validate_trade_more.
Import RiskManager.
Local Open Scope float_scope.

(** The verdict and the reason agree: a trade is accepted exactly when the
    reason is "Trade valid". *)
Theorem validate_trade_verdict_matches_reason self ticker shares price
    trade_type available_cash current_positions :
  (validate_trade self ticker shares price trade_type available_cash
     current_positions).1 = true
  ↔ (validate_trade self ticker shares price trade_type available_cash
       current_positions).2 = TradeValid.
Proof.
  unfold validate_trade.
  repeat (case_match; simpl); split; intros; congruence.
Qed.

(** A buy is accepted exactly when none of the three checks of a buy fires:
    its value is not above the cash, not below 10, and the resulting position
    is not above the allowed share of the cash.  A sell is accepted exactly
    when it sells no more than is held and its value is not below 10. *)
Theorem validate_trade_accepts_iff self ticker shares price available_cash
    current_positions :
  ((validate_trade self ticker shares price "buy" available_cash
      current_positions).1 = true
   ↔ gtb (abs (shares * price)) available_cash = false
     ∧ (abs (shares * price) <? 10) = false
     ∧ gtb ((get0 current_positions ticker + shares) * price)
           (available_cash * max_position_size self) = false)
  ∧ ((validate_trade self ticker shares price "sell" available_cash
        current_positions).1 = true
     ↔ gtb shares (get0 current_positions ticker) = false
       ∧ (abs (shares * price) <? 10) = false).
Proof.
  unfold validate_trade. split.
  - rewrite (bool_decide_eq_true_2 ("buy" = "buy")) by done.
    rewrite (bool_decide_eq_false_2 ("buy" = "sell")) by done. simpl.
    repeat (case_match; simpl); split; intros; try congruence;
      intuition congruence.
  - rewrite (bool_decide_eq_false_2 ("sell" = "buy")) by done.
    rewrite (bool_decide_eq_true_2 ("sell" = "sell")) by done. simpl.
    repeat (case_match; simpl); split; intros; try congruence;
      intuition congruence.
Qed.

(** X1: the trade type is compared with the exact strings "buy" and "sell":
    under any other spelling the cash, the shares held and the position limit
    are not looked at, and the trade is accepted as soon as its value is not
    below 10. *)
Theorem validate_trade_other_type self ticker shares price trade_type
    available_cash current_positions :
  trade_type ≠ "buy" → trade_type ≠ "sell" →
  validate_trade self ticker shares price trade_type available_cash
    current_positions
  = if abs (shares * price) <? 10
    then (false, TradeTooSmall (abs (shares * price)))
    else (true, TradeValid).
Proof.
  intros Hb Hs. unfold validate_trade.
  by rewrite !(bool_decide_eq_false_2 _ Hb), !(bool_decide_eq_false_2 _ Hs).
Qed.

Lemma validate_trade_other_type_witness :
  validate_trade default_manager "AAPL" 5 10 "BUY" 1 ∅
  = if abs (5 * 10) <? 10
    then (false, TradeTooSmall (abs (5 * 10)))
    else (true, TradeValid).
Proof.
  apply (validate_trade_other_type default_manager "AAPL" 5 10 "BUY" 1 ∅);
    discriminate.
Defined.

(** X2: a buy whose share count or price is NaN passes every check, whatever
    the cash and the positions: each comparison with NaN is false. *)
Theorem validate_trade_accepts_nan self ticker shares price available_cash
    current_positions :
  isnan shares = true ∨ isnan price = true →
  validate_trade self ticker shares price "buy" available_cash
    current_positions = (true, TradeValid).
Proof.
  intros Hnan.
  assert (shares * price = nan) as Hv.
  { destruct Hnan as [->%isnan_nan | ->%isnan_nan];
      [apply mul_nan_l | apply mul_nan_r]. }
  assert ((get0 current_positions ticker + shares) * price = nan) as Hp.
  { destruct Hnan as [->%isnan_nan | ->%isnan_nan].
    - by rewrite add_nan_r, mul_nan_l.
    - apply mul_nan_r. }
  unfold validate_trade. rewrite Hv, Hp, abs_nan. unfold gtb.
  by rewrite !ltb_nan_r, !ltb_nan_l, !andb_false_r.
Qed.

Lemma validate_trade_accepts_nan_witness :
  validate_trade default_manager "AAPL" nan 10 "buy" 100 ∅
  = (true, TradeValid).
Proof.
  apply (validate_trade_accepts_nan default_manager "AAPL" nan 10 100 ∅).
  left. reflexivity.
Defined.

End validate_trade_more.

(** ** The other methods of the risk manager *)

Section risk_methods.
Import RiskManager Risk.
Local Open Scope float_scope.











Lemma leb_zero_not_ltb x :
  (0 <=? x) = true → (0 <? x) = false → x = 0 ∨ x = -0.
Proof.
  rewrite FloatAxioms.leb_spec, FloatAxioms.ltb_spec.
  change (Prim2SF 0) with (S754_zero false).
  pose proof (SF2Prim_Prim2SF x) as Hx.
  destruct (Prim2SF x) as [[|]|[|]| |[|] m e]; try done; subst x; auto.
Qed.

Lemma zero_div x : (x =? 0) = false → 0 / x = 0 ∨ 0 / x = -0 ∨ 0 / x = nan.
Proof.
  rewrite FloatAxioms.eqb_spec.
  change (Prim2SF 0) with (S754_zero false). intros Hx.
  assert (Prim2SF (0 / x) = S754_zero false
          ∨ Prim2SF (0 / x) = S754_zero true
          ∨ Prim2SF (0 / x) = S754_nan) as H.
  { rewrite FloatAxioms.div_spec. change (Prim2SF 0) with (S754_zero false).
    destruct (Prim2SF x) as [[|]|[|]| |[|] m e]; try done; simpl; auto. }
  destruct H as [H|[H|H]]; [left|right; left|right; right];
    by apply Prim2SF_inj.
Qed.

Lemma ltb_neg_zero x : (x <? -0) = (x <? 0).
Proof.
  rewrite !FloatAxioms.ltb_spec.
  change (Prim2SF (-0)) with (S754_zero true).
  change (Prim2SF 0) with (S754_zero false).
  by destruct (Prim2SF x) as [[|]|[|]| |[|] m e].
Qed.

(** The daily loss check raises exactly when the portfolio value is zero. *)
Theorem daily_loss_zero_portfolio self daily_pnl portfolio_value :
  check_daily_loss_limit self daily_pnl portfolio_value = ZeroDivisionError
  ↔ (portfolio_value =? 0) = true.
Proof.
  unfold check_daily_loss_limit, truediv.
  destruct (portfolio_value =? 0); split; done.
Qed.

(** X5: a day without a loss never trips the limit: for a profit and loss of
    zero or more, a portfolio value other than zero and a limit that is not
    negative, the answer is False. *)
Theorem daily_loss_no_loss self daily_pnl portfolio_value :
  (0 <=? daily_pnl) = true →
  (portfolio_value =? 0) = false →
  (max_daily_loss self <? 0) = false →
  check_daily_loss_limit self daily_pnl portfolio_value = Returns false.
Proof.
  intros Hpnl Hpv Hlimit. unfold check_daily_loss_limit, truediv.
  rewrite Hpv.
  assert (abs (py_min daily_pnl 0) = 0) as ->.
  { unfold py_min. destruct (0 <? daily_pnl) eqn:Hlt; [done|].
    by destruct (leb_zero_not_ltb _ Hpnl Hlt) as [-> | ->]. }
  f_equal. unfold gtb.
  destruct (zero_div _ Hpv) as [-> | [-> | ->]].
  - done.
  - by rewrite ltb_neg_zero.
  - apply ltb_nan_r.
Qed.

Lemma daily_loss_no_loss_witness :
  check_daily_loss_limit default_manager 150 10000 = Returns false.
Proof.
  apply (daily_loss_no_loss default_manager 150 10000); reflexivity.
Defined.

(** The maximum drawdown is never negative (it is zero or more, or NaN). *)
Theorem max_drawdown_not_negative portfolio_values :
  (_calculate_max_drawdown portfolio_values <? 0) = false.
Proof.
  unfold _calculate_max_drawdown.
  destruct portfolio_values; [done|]. apply abs_not_negative.
Qed.

End risk_methods.

(** ** The drawdown of a series that never falls *)

Section drawdown.
Import RiskManager Risk.
Local Open Scope float_scope.

Lemma positive_finite_spec x :
  positive_finite x → ∃ m e, Prim2SF x = S754_finite false m e.
Proof.
  intros [Hpos Hfin]. rewrite FloatAxioms.ltb_spec in Hpos, Hfin.
  change (Prim2SF 0) with (S754_zero false) in Hpos.
  change (Prim2SF infinity) with (S754_infinity false) in Hfin.
  destruct (Prim2SF x) as [[|]|[|]| |[|] m e]; try done. eauto.
Qed.

Lemma positive_finite_not_nan x : positive_finite x → isnan x = false.
Proof.
  intros (m & e & Hx)%positive_finite_spec. unfold isnan.
  rewrite FloatAxioms.eqb_spec, Hx. unfold SFeqb.
  by rewrite SFcompare_refl.
Qed.

(** A finite number minus itself is zero, and zero divided by a positive
    number is zero. *)
Lemma positive_finite_drawdown x : positive_finite x → (x - x) / x = 0.
Proof.
  intros (m & e & Hx)%positive_finite_spec.
  assert (x - x = 0) as ->.
  { apply Prim2SF_inj. rewrite FloatAxioms.sub_spec, Hx.
    unfold SF64sub, SFsub. by rewrite Z.sub_diag. }
  apply Prim2SF_inj. rewrite FloatAxioms.div_spec, Hx. reflexivity.
Qed.

Lemma positive_finite_eq x y :
  positive_finite x → positive_finite y →
  (x <=? y) = true → (x <? y) = false → x = y.
Proof.
  intros (m & e & Hx)%positive_finite_spec (m' & e' & Hy)%positive_finite_spec.
  rewrite FloatAxioms.leb_spec, FloatAxioms.ltb_spec, Hx, Hy.
  unfold SFleb, SFltb. simpl. intros Hle Hlt.
  apply Prim2SF_inj. rewrite Hx, Hy.
  destruct (e ?= e')%Z eqn:He; try done.
  apply Z.compare_eq in He as ->.
  destruct (Pos.compare_cont Eq m m') eqn:Hm; try done.
  by apply Pos.compare_eq in Hm as ->.
Qed.

(** The running maximum of a series that never falls is the series. *)
Lemma cummax_from_nondecreasing best xs :
  Forall positive_finite xs →
  nondecreasing xs →
  match best, xs with
  | Some b, x :: _ => positive_finite b ∧ (b <=? x) = true
  | _, _ => True
  end →
  cummax_from best xs = xs.
Proof.
  revert best. induction xs as [|x tl IH]; intros best Hpf Hnd Hbest; [done|].
  apply Forall_cons in Hpf as [Hx Htl]. simpl.
  rewrite (positive_finite_not_nan _ Hx).
  assert (match best with Some m => fmax m x | None => x end = x) as ->.
  { destruct best as [b|]; [|done]. destruct Hbest as [Hb Hle].
    unfold fmax. destruct (b <? x) eqn:Hlt; [done|].
    by apply positive_finite_eq. }
  f_equal. apply IH; [done| |].
  - intros i a b Ha Hb. by apply (Hnd (S i) a b).
  - destruct tl as [|y tl']; [done|]. split; [done|].
    by apply (Hnd 0%nat x y).
Qed.

Lemma dropna_zeros n : dropna (replicate n 0) = replicate n 0.
Proof.
  induction n as [|n IH]; [done|]. unfold dropna in *.
  cbn [replicate]. rewrite filter_cons_True by done. by rewrite IH.
Qed.

Lemma series_min_zeros n : series_min (replicate (S n) 0) = 0.
Proof.
  unfold series_min. rewrite dropna_zeros. cbn [replicate].
  induction n as [|n IH]; [done|]. exact IH.
Qed.

(** X6: a series of positive, finite values that never falls has a maximum
    drawdown of zero. *)
Theorem max_drawdown_of_rising_series portfolio_values :
  Forall positive_finite portfolio_values →
  nondecreasing portfolio_values →
  _calculate_max_drawdown portfolio_values = 0.
Proof.
  intros Hpf Hnd. unfold _calculate_max_drawdown.
  destruct portfolio_values as [|x tl] eqn:E; [done|]. rewrite <- E in *.
  unfold cummax. rewrite cummax_from_nondecreasing by done.
  assert (zip_with PrimFloat.div
            (zip_with PrimFloat.sub portfolio_values portfolio_values)
            portfolio_values
          = replicate (length portfolio_values) 0) as ->.
  { clear E Hnd. induction Hpf as [|y ys Hy Hys IH]; [done|].
    simpl. f_equal; [by apply positive_finite_drawdown | done]. }
  rewrite E. simpl length. by rewrite series_min_zeros.
Qed.

Lemma max_drawdown_of_rising_series_witness :
  _calculate_max_drawdown [10000; 10000; 10250; 11000] = 0.
Proof.
  apply max_drawdown_of_rising_series.
  - repeat constructor.
  - intros [|[|[|[|i]]]] x y Hx Hy; simpl in *; simplify_eq; reflexivity.
Defined.

End drawdown.

(** ** More on the backtest *)

Section backtest_more.
Import Backtester.
Local Open Scope float_scope.

Lemma series_max_zeros n : series_max (replicate (S n) 0) = 0.
Proof.
  unfold series_max. rewrite dropna_zeros. cbn [replicate].
  induction n as [|n IH]; [done|]. exact IH.
Qed.

(** X7: a ledger of positive, finite totals that never fall has a maximum
    drawdown of zero in [calculate_metrics]. *)
Theorem metrics_drawdown_of_rising_ledger portfolio :
  Forall positive_finite (Total portfolio) →
  nondecreasing (Total portfolio) →
  max_drawdown (calculate_metrics portfolio) = 0.
Proof.
  intros Hpf Hnd. unfold calculate_metrics.
  destruct (_ || _); [done|]. cbn [max_drawdown].
  unfold cummax. rewrite cummax_from_nondecreasing by done.
  assert (zip_with PrimFloat.div
            (zip_with PrimFloat.sub (Total portfolio) (Total portfolio))
            (Total portfolio)
          = replicate (length (Total portfolio)) 0) as ->.
  { clear Hnd. induction Hpf as [|y ys Hy Hys IH]; [done|].
    simpl. f_equal; [by apply positive_finite_drawdown | done]. }
  destruct (Total portfolio) as [|x tl]; [done|].
  cbn [length]. rewrite bool_decide_eq_false_2 by done.
  apply series_max_zeros.
Qed.

Lemma metrics_drawdown_of_rising_ledger_witness :
  max_drawdown
    (calculate_metrics
       {| index := [0; 1; 2; 3]%Z; Holdings := [0; 0; 250; 1000];
          Cash := [10000; 10000; 10000; 10000];
          Total := [10000; 10000; 10250; 11000] |}) = 0.
Proof.
  apply metrics_drawdown_of_rising_ledger.
  - repeat constructor.
  - intros [|[|[|[|i]]]] x y Hx Hy; simpl in *; simplify_eq; reflexivity.
Defined.

(** X8: with at most one row in the first frame the loop body never runs: the
    answer is the initial ledger, zero metrics and the statistics of a run
    without trades, and no column of any frame is read. *)
Theorem backtester_short_input name first rest initial_cash weights :
  length (df_index first) ≤ 1 →
  backtester ((name, first) :: rest) initial_cash weights
  = Ok (initial_ledger (df_index first) initial_cash,
        {| sharpe_ratio := 0; max_drawdown := 0 |},
        no_trade_stats).
Proof.
  intros Hlen. unfold backtester, backtester_loop. simpl.
  replace (length (df_index first) - 1)%nat with 0%nat by lia. simpl.
  unfold initial_ledger, calculate_metrics. simpl.
  destruct (df_index first) as [|l [|l' tl]]; simpl in *; [done|done|lia].
Qed.

Lemma backtester_short_input_witness :
  backtester [("A", single_row); ("B", no_position_column)] 10000 None
  = Ok (initial_ledger (df_index single_row) 10000,
        {| sharpe_ratio := 0; max_drawdown := 0 |},
        no_trade_stats).
Proof.
  apply (backtester_short_input "A" single_row). simpl. lia.
Defined.

(** An empty dict of frames raises StopIteration. *)
Lemma backtester_empty initial_cash weights :
  backtester [] initial_cash weights = Raise StopIteration.
Proof. reflexivity. Qed.

Lemma foldlM_raise {A B} (f : A → B → result A) bs b a :
  b ∈ bs → (∀ a, ∃ e, f a b = Raise e) → ∃ e, foldlM f a bs = Raise e.
Proof.
  intros Hin Hb. revert a. induction bs as [|b' bs IH]; intros a.
  - by apply elem_of_nil in Hin.
  - simpl. destruct (f a b') as [a'|e] eqn:Hf; [|by exists e].
    simpl. apply elem_of_cons in Hin as [->|Hin].
    + destruct (Hb a) as [e He]. congruence.
    + by apply IH.
Qed.

(** X9: when the first frame has two rows or more and the frame of some
    instrument has no Position column, the backtest raises: no ledger is
    returned. *)
Theorem backtester_missing_position data_dict initial_cash weights
    name first rest tk data :
  data_dict = (name, first) :: rest →
  2 ≤ length (df_index first) →
  (tk, data) ∈ data_dict →
  df_columns data !! "Position" = None →
  ∃ e, backtester data_dict initial_cash weights = Raise e.
Proof.
  intros Hdict Hlen Hin Hcol.
  assert (∃ e, backtester_loop data_dict initial_cash weights = Raise e)
    as [e He]; [|exists e; unfold backtester; by rewrite He].
  subst data_dict. unfold backtester_loop. cbn [mbind result_bind].
  remember ((name, first) :: rest) as data_dict eqn:Hdict.
  destruct (df_index first) as [|l0 [|l1 idx]] eqn:Hidx;
    simpl in Hlen; [lia|lia|].
  cbn [length Nat.sub seq foldlM].
  match goal with
  | |- context [day_step ?d ?w ?st 1%nat] =>
      assert (∃ e, day_step d w st 1%nat = Raise e) as [e ->];
        [|by exists e]
  end.
  unfold day_step. simpl.
  match goal with
  | |- context [foldlM ?f ?a ?l] =>
      destruct (foldlM_raise f l (tk, data) a Hin) as [e ->]
  end; [|by exists e].
  intros st. unfold ticker_step, column. rewrite Hcol. simpl. eauto.
Qed.

Lemma backtester_missing_position_witness :
  ∃ e, backtester [("A", no_position_column)] 10000 None = Raise e.
Proof.
  apply (backtester_missing_position _ 10000 None "A" no_position_column []
           "A" no_position_column).
  - reflexivity.
  - simpl. lia.
  - apply list_elem_of_singleton. reflexivity.
  - reflexivity.
Defined.

End backtest_more.

(** ** Days, trades and statistics *)

Section backtest_days.
Import Backtester.
Local Open Scope float_scope.

Lemma buys_and_sells (ts : list Trade) :
  (length (filter (λ t, act t = BUY) ts)
   + length (filter (λ t, act t = SELL) ts) = length ts)%nat.
Proof.
  induction ts as [|t ts IH]; [done|].
  destruct (act t) eqn:Ha.
  - rewrite filter_cons_True, filter_cons_False by congruence. simpl. lia.
  - rewrite filter_cons_False, filter_cons_True by congruence. simpl. lia.
Qed.

Lemma total_trades_is_length trade_log portfolio stats :
  calculate_trade_statistics trade_log portfolio = Ok stats →
  total_trades stats = length trade_log.
Proof.
  unfold calculate_trade_statistics. intros Hrun.
  destruct trade_log as [|t ts] eqn:E.
  { by injection Hrun as <-. }
  rewrite <- E in *. clear E.
  destruct (iloc (Total portfolio) 0) as [v0|]; [|done]. simpl in Hrun.
  destruct (iloc (Total portfolio) _) as [v1|]; [|done]. simpl in Hrun.
  by injection Hrun as <-.
Qed.

(** X13: the trade statistics count every record once: the total is the length
    of the log and the sum of the buys and the sells; the win rate is 0 or
    100. *)
Theorem trade_statistics_counts trade_log portfolio stats :
  calculate_trade_statistics trade_log portfolio = Ok stats →
  total_trades stats = length trade_log
  ∧ (total_buys stats + total_sells stats)%nat = total_trades stats
  ∧ (win_rate stats = 0 ∨ win_rate stats = 100).
Proof.
  unfold calculate_trade_statistics. intros Hrun.
  destruct trade_log as [|t ts] eqn:E.
  { injection Hrun as <-. simpl. auto. }
  rewrite <- E in *. clear E.
  destruct (iloc (Total portfolio) 0) as [v0|]; [|done]. simpl in Hrun.
  destruct (iloc (Total portfolio) _) as [v1|]; [|done]. simpl in Hrun.
  injection Hrun as <-. simpl. split; [done|]. split.
  - apply buys_and_sells.
  - destruct (gtb _ _); auto.
Qed.

Lemma trade_statistics_counts_witness :
  total_trades buy_and_hold_stats
    = length [ {| date := 1; ticker := "A"; act := BUY; shares := 1000;
                  price := 10; value := 10000 |} ]
  ∧ (total_buys buy_and_hold_stats + total_sells buy_and_hold_stats)%nat
    = total_trades buy_and_hold_stats
  ∧ (win_rate buy_and_hold_stats = 0 ∨ win_rate buy_and_hold_stats = 100).
Proof.
  apply (trade_statistics_counts _ buy_and_hold_ledger).
  vm_compute. reflexivity.
Defined.

(** The ledger keeps the index of the first frame, and a run over at most
    one row records no trade. *)
Lemma backtester_loop_index name first rest initial_cash weights p trade_log :
  backtester_loop ((name, first) :: rest) initial_cash weights
    = Ok (p, trade_log) →
  index p = df_index first
  ∧ (length (df_index first) ≤ 1 → trade_log = []).
Proof.
  intros Hrun. split.
  - apply backtester_loop_inv in Hrun
      as (name' & first' & rest' & w & sh & [= <- <- <-] & Hfold).
    apply (foldlM_inv _ (λ st : State, index st.1.1 = df_index first))
      in Hfold; [done| |done].
    intros [[pa sa] ta] j [[pb sb] tb] _ Ha Hs.
    apply day_step_rows in Hs as (Hi & _). simpl in *. congruence.
  - intros Hlen. unfold backtester_loop in Hrun. simpl in Hrun.
    replace (length (df_index first) - 1)%nat with 0%nat in Hrun by lia.
    simpl in Hrun. by injection Hrun as _ <-.
Qed.

(** Whenever the loop of the backtest completes, the backtest returns: the
    statistics never raise on the ledger and the log the loop produced, and
    they report the length of that log. *)
Theorem backtester_returns_when_loop_does data_dict initial_cash weights
    p trade_log :
  backtester_loop data_dict initial_cash weights = Ok (p, trade_log) →
  ∃ stats,
    backtester data_dict initial_cash weights
      = Ok (p, calculate_metrics p, stats)
    ∧ total_trades stats = length trade_log.
Proof.
  intros Hrun.
  assert (∃ stats, calculate_trade_statistics trade_log p = Ok stats)
    as [stats Hstats].
  { destruct trade_log as [|t ts] eqn:E; [by eexists|]. rewrite <- E.
    destruct (ledger_rows _ _ _ _ _ Hrun) as [(_ & _ & Hshape) _].
    destruct data_dict as [|[name first] rest]; [done|].
    destruct (backtester_loop_index _ _ _ _ _ _ _ Hrun) as [Hidx Hshort].
    assert (2 ≤ length (Total p)).
    { rewrite Hshape, Hidx.
      destruct (decide (length (df_index first) ≤ 1)) as [Hle|]; [|lia].
      specialize (Hshort Hle). congruence. }
    unfold calculate_trade_statistics. rewrite E. rewrite <- E.
    unfold iloc.
    destruct (Total p !! 0%nat) as [v0|] eqn:H0.
    2:{ apply lookup_ge_None in H0. lia. }
    destruct (Total p !! (length (Total p) - 1)%nat) as [v1|] eqn:H1.
    2:{ apply lookup_ge_None in H1. lia. }
    simpl. by eexists. }
  exists stats. split.
  - unfold backtester. rewrite Hrun. simpl. by rewrite Hstats.
  - by apply (total_trades_is_length _ _ _ Hstats).
Qed.

Lemma backtester_returns_when_loop_does_witness :
  ∃ stats,
    backtester two_buys 10000 (Some half_half)
      = Ok (two_buys_ledger, calculate_metrics two_buys_ledger, stats)
    ∧ total_trades stats = length two_buys_trades.
Proof.
  apply (backtester_returns_when_loop_does two_buys 10000 (Some half_half)).
  vm_compute. reflexivity.
Defined.

(** One ticker of one day leaves the shares of every other ticker alone. *)
Lemma ticker_step_held_other i day weights st tk data st' tk' :
  ticker_step i day weights st (tk, data) = Ok st' →
  tk' ≠ tk → held st' !! tk' = held st !! tk'.
Proof.
  unfold ticker_step. intros Hrun Hne.
  destruct (column data "Position") as [position|]; [|done].
  simpl in Hrun. unfold iloc in Hrun.
  destruct (position !! i) as [p|]; [|done]. simpl in Hrun.
  destruct (p =? 2); [|destruct (p =? -2)].
  - destruct (dict_get weights tk) as [w|]; [|done]. simpl in Hrun.
    destruct (column data "Close") as [close|]; [|done]. simpl in Hrun.
    destruct (close !! i) as [c|]; [|done]. simpl in Hrun.
    injection Hrun as <-. simpl. by rewrite lookup_insert_ne.
  - destruct (dict_get (held st) tk) as [sh|]; [|done]. simpl in Hrun.
    destruct (column data "Close") as [close|]; [|done]. simpl in Hrun.
    destruct (close !! i) as [c|]; [|done]. simpl in Hrun.
    injection Hrun as <-. simpl. by rewrite lookup_insert_ne.
  - destruct (dict_get (held st) tk) as [sh|]; [|done]. simpl in Hrun.
    destruct (column data "Close") as [close|]; [|done]. simpl in Hrun.
    destruct (close !! i) as [c|]; [|done]. simpl in Hrun.
    by injection Hrun as <-.
Qed.

Lemma ticker_step_sell i day weights st tk data st' :
  ticker_step i day weights st (tk, data) = Ok st' →
  sell_at data i → held st' !! tk = Some 0.
Proof.
  unfold ticker_step. intros Hrun (position & p & Hpos & Hp & Hbuy & Hsell).
  rewrite Hpos in Hrun. simpl in Hrun. unfold iloc in Hrun.
  rewrite Hp in Hrun. simpl in Hrun. rewrite Hbuy, Hsell in Hrun.
  destruct (dict_get (held st) tk) as [sh|]; [|done]. simpl in Hrun.
  destruct (column data "Close") as [close|]; [|done]. simpl in Hrun.
  destruct (close !! i) as [c|]; [|done]. simpl in Hrun.
  injection Hrun as <-. simpl. apply lookup_insert_eq.
Qed.

Lemma foldlM_app {A B} (f : A → B → result A) a bs1 bs2 a' :
  foldlM f a (bs1 ++ bs2) = Ok a' →
  ∃ a1, foldlM f a bs1 = Ok a1 ∧ foldlM f a1 bs2 = Ok a'.
Proof.
  revert a. induction bs1 as [|b bs1 IH]; intros a Hrun; [by exists a|].
  simpl in *. destruct (f a b) as [a0|]; [|done]. simpl in *. by apply IH.
Qed.

(** X11: full liquidation: with distinct tickers in the dict, the shares of an
    instrument that shows SELL on a day are 0 when the day is over. *)
Theorem sell_liquidates data_dict weights p sh tr i p' sh' tr' tk data :
  NoDup data_dict.*1 →
  (tk, data) ∈ data_dict →
  sell_at data i →
  day_step data_dict weights (p, sh, tr) i = Ok (p', sh', tr') →
  sh' !! tk = Some 0.
Proof.
  intros Hnodup Hin Hsell Hstep. unfold day_step in Hstep.
  destruct (iloc (Cash p) (i - 1)) as [cash0|]; [|done]. simpl in Hstep.
  destruct (iloc (index p) i) as [day|]; [|done]. simpl in Hstep.
  match type of Hstep with
  | context [foldlM ?f ?a ?l] => destruct (foldlM f a l) as [s|] eqn:Hs
  end; [|done].
  simpl in Hstep. injection Hstep as _ <- _.
  apply list_elem_of_split in Hin as (l1 & l2 & ->).
  apply foldlM_app in Hs as (s1 & _ & Hs). cbn [foldlM] in Hs.
  destruct (ticker_step _ _ _ s1 (tk, data)) as [s2|] eqn:Hstep2; [|done].
  cbn [mbind result_bind] in Hs. apply (ticker_step_sell _ _ _ _ _ _ _ Hstep2) in Hsell.
  rewrite fmap_app, fmap_cons in Hnodup. simpl in Hnodup.
  apply NoDup_app in Hnodup as (_ & _ & Hnodup).
  apply NoDup_cons in Hnodup as [Hnotin _].
  apply (foldlM_inv _ (λ s : Step, held s !! tk = Some 0)) in Hs;
    [done| |done].
  intros sa [tk' data'] sb Hin' Ha Hb.
  rewrite (ticker_step_held_other _ _ _ _ _ _ _ tk Hb); [done|].
  intros ->. apply Hnotin. apply list_elem_of_fmap. by exists (tk', data').
Qed.

Lemma sell_liquidates_witness :
  ({[ "A" := 0; "B" := 1000 ]} : gmap string float) !! "A" = Some 0.
Proof.
  apply (sell_liquidates sell_then_buy half_half
           {| index := [0; 1; 2]%Z; Holdings := [0; 5000; 0];
              Cash := [10000; 5000; 5000]; Total := [10000; 10000; 10000] |}
           {[ "A" := 500; "B" := 0 ]} [] 2
           {| index := [0; 1; 2]%Z; Holdings := [0; 5000; 10000];
              Cash := [10000; 5000; 10000];
              Total := [10000; 10000; 20000] |}
           {[ "A" := 0; "B" := 1000 ]}
           [ {| date := 2; ticker := "A"; act := SELL; shares := 500;
                price := 30; value := 15000 |};
             {| date := 2; ticker := "B"; act := BUY; shares := 1000;
                price := 10; value := 10000 |} ]
           "A" (signal_frame [10; 10; 30] [nan; 2; -2])).
  - cbn. apply NoDup_cons_2; [|apply NoDup_singleton].
    by intros ?%list_elem_of_singleton.
  - left.
  - exists [nan; 2; -2], (-2). repeat split; reflexivity.
  - vm_compute. reflexivity.
Defined.

End backtest_days.

(** ** Days without events, and the size of the log *)

Section backtest_quiet.
Import Backtester.
Local Open Scope float_scope.

Lemma ticker_step_quiet i day weights st tk data st' :
  ticker_step i day weights st (tk, data) = Ok st' →
  no_event_at data i →
  trades st' = trades st ∧ current_cash st' = current_cash st
  ∧ held st' = held st.
Proof.
  unfold ticker_step. intros Hrun Hquiet.
  destruct (column data "Position") as [position|] eqn:Hpos; [|done].
  simpl in Hrun. unfold iloc in Hrun.
  destruct (position !! i) as [p|] eqn:Hp; [|done]. simpl in Hrun.
  destruct (Hquiet position p Hpos Hp) as [Hbuy Hsell].
  rewrite Hbuy, Hsell in Hrun.
  destruct (dict_get (held st) tk) as [sh|]; [|done]. simpl in Hrun.
  destruct (column data "Close") as [close|]; [|done]. simpl in Hrun.
  destruct (close !! i) as [c|]; [|done]. simpl in Hrun.
  by injection Hrun as <-.
Qed.

Lemma loc_set_replicate idx day (v : float) :
  loc_set idx day v (replicate (length idx) v) = replicate (length idx) v.
Proof.
  unfold loc_set. induction idx as [|l idx IH]; [done|].
  simpl. rewrite IH. by destruct (bool_decide (l = day)).
Qed.

(** X10: when no instrument shows BUY or SELL on any day, a completed run has
    recorded no trade, every Cash entry is the initial cash, and the
    statistics are those of a run without trades. *)
Theorem quiet_run_keeps_cash data_dict initial_cash weights p trade_log :
  (∀ tk data i, (tk, data) ∈ data_dict → no_event_at data i) →
  backtester_loop data_dict initial_cash weights = Ok (p, trade_log) →
  trade_log = []
  ∧ Cash p = replicate (length (index p)) initial_cash
  ∧ backtester data_dict initial_cash weights
    = Ok (p, calculate_metrics p, no_trade_stats).
Proof.
  intros Hquiet Hrun.
  assert (trade_log = []
          ∧ Cash p = replicate (length (index p)) initial_cash) as [-> Hcash].
  { apply backtester_loop_inv in Hrun
      as (name & first & rest & w & sh & _ & Hfold).
    apply (foldlM_inv _
             (λ st : State,
                st.2 = []
                ∧ Cash st.1.1 = replicate (length (index st.1.1)) initial_cash))
      in Hfold; [done| |done].
    intros [[p0 sh0] tr0] k [[p1 sh1] tr1] _ [Htr Hc] Hstep.
    simpl in Htr, Hc. subst tr0. unfold day_step in Hstep.
    destruct (iloc (Cash p0) (k - 1)) as [cash0|] eqn:Hc0; [|done].
    simpl in Hstep.
    destruct (iloc (index p0) k) as [day|]; [|done]. simpl in Hstep.
    match type of Hstep with
    | context [foldlM ?f ?a ?l] => destruct (foldlM f a l) as [s|] eqn:Hs
    end; [|done].
    simpl in Hstep. injection Hstep as <- _ <-.
    assert (cash0 = initial_cash) as ->.
    { unfold iloc in Hc0. rewrite Hc in Hc0.
      destruct (replicate _ _ !! _) as [c|] eqn:E; [|done].
      apply lookup_replicate in E as [-> _]. by injection Hc0. }
    apply (foldlM_inv _
             (λ s : Step, trades s = [] ∧ current_cash s = initial_cash))
      in Hs; [| |done].
    - destruct Hs as [-> ->]. simpl. split; [done|].
      rewrite Hc. apply loc_set_replicate.
    - intros s0 [tk data] s1 Hin [Ht Hcur] Hts.
      destruct (ticker_step_quiet _ _ _ _ _ _ _ Hts (Hquiet _ _ _ Hin))
        as (-> & -> & _).
      done. }
  split; [done|]. split; [done|].
  unfold backtester. rewrite Hrun. reflexivity.
Qed.

Lemma quiet_run_keeps_cash_witness :
  ([] : list Trade) = []
  ∧ Cash quiet_ledger = replicate (length (index quiet_ledger)) 10000
  ∧ backtester quiet_days 10000 None
    = Ok (quiet_ledger, calculate_metrics quiet_ledger, no_trade_stats).
Proof.
  apply (quiet_run_keeps_cash quiet_days 10000 None quiet_ledger []).
  - intros tk data i Hin position p Hpos Hp.
    apply elem_of_cons in Hin as [[= -> ->]|Hin];
      [|apply list_elem_of_singleton in Hin as [= -> ->]];
      vm_compute in Hpos; injection Hpos as <-;
      destruct i as [|[|[|i]]]; simpl in Hp; simplify_eq;
      split; reflexivity.
  - vm_compute. reflexivity.
Defined.

Lemma foldlM_bound {A B} (f : A → B → result A) (μ : A → nat) k bs a a' :
  (∀ a b a', f a b = Ok a' → μ a' ≤ μ a + k) →
  foldlM f a bs = Ok a' → μ a' ≤ μ a + k * length bs.
Proof.
  intros Hstep. revert a. induction bs as [|b bs IH]; intros a Hrun.
  - injection Hrun as <-. lia.
  - simpl in Hrun. destruct (f a b) as [a1|] eqn:Hf; [|done].
    simpl in Hrun. apply IH in Hrun. apply Hstep in Hf. simpl. lia.
Qed.

(** X12: at most one record per instrument and day: the log of a completed run
    has no more entries than the days after the first times the number of
    instruments. *)
Theorem trade_log_size data_dict initial_cash weights p trade_log :
  backtester_loop data_dict initial_cash weights = Ok (p, trade_log) →
  length trade_log ≤ (length (index p) - 1) * length data_dict.
Proof.
  intros Hrun.
  destruct data_dict as [|[name first] rest] eqn:E; [done|].
  rewrite <- E in *.
  assert (index p = df_index first) as ->.
  { rewrite E in Hrun. by apply backtester_loop_index in Hrun as [? _]. }
  apply backtester_loop_inv in Hrun
    as (name' & first' & rest' & w & sh & Hd & Hfold).
  rewrite E in Hd. injection Hd as <- <- <-.
  apply (foldlM_bound _ (λ st : State, length st.2) (length data_dict))
    in Hfold.
  - simpl in Hfold. rewrite length_seq in Hfold. lia.
  - intros [[p0 sh0] tr0] k [[p1 sh1] tr1] Hstep. simpl.
    unfold day_step in Hstep.
    destruct (iloc (Cash p0) (k - 1)) as [cash0|]; [|done]. simpl in Hstep.
    destruct (iloc (index p0) k) as [day|]; [|done]. simpl in Hstep.
    match type of Hstep with
    | context [foldlM ?f ?a ?l] => destruct (foldlM f a l) as [s|] eqn:Hs
    end; [|done].
    simpl in Hstep. injection Hstep as _ _ <-.
    apply (foldlM_bound _ (λ s : Step, length (trades s)) 1) in Hs.
    + simpl in Hs. lia.
    + intros s0 [tk data] s1 Hts.
      apply ticker_step_trades in Hts as [-> | (tr & ? & ? & ? & -> & _)].
      * lia.
      * rewrite length_app. simpl. lia.
Qed.

Lemma trade_log_size_witness :
  length two_buys_trades ≤ (length (index two_buys_ledger) - 1) * length two_buys.
Proof.
  apply (trade_log_size two_buys 10000 (Some half_half)).
  vm_compute. reflexivity.
Defined.

End backtest_quiet.

(** ** The strategies again: errors, kept columns and the warm-up *)

Ltac not_written :=
  repeat match goal with
         | H : _ ∉ _ :: _ |- _ => apply not_elem_of_cons in H as [? H]
         end.

Ltac finish_signal_columns :=
  split; [done|]; split; [done|]; split;
  [ intros c Hc; cbn [written] in Hc; not_written;
    by rewrite ?lookup_insert_ne by done
  | eexists; split; [lookup_cols; reflexivity|] ].

Ltac finish_shape :=
  cbn [lookback];
  first
    [ right; eexists _, _; split; [eassumption | reflexivity]
    | left; split; [by apply Nat.ltb_ge | reflexivity] ].

Ltac finish_full :=
  unfold full_post; cbn [df_columns df_index];
  first
    [ match goal with
      | H : (_ <? _)%nat = true, H' : _ !! _ = None |- _ =>
          apply Nat.ltb_lt in H; apply lookup_ge_None in H'; lia
      end
    | simplify_eq;
      repeat match goal with
             | H : df_columns _ !! "Close" = _ |- _ => rewrite H
             end;
      first [ done | finish_signal_columns ] ].

Section strategies_more.
Local Open Scope float_scope.

Lemma sma_run_full short_window long_window data (h : heap) df :
  h !! data = Some df →
  ∃ r df',
    SMACrossoverStrategy.generate_signals short_window long_window data h
      = (r, <[fresh (dom h) := df']> h)
    ∧ full_post (sma_crossover short_window long_window) df
        (fresh (dom h)) r df'.
Proof.
  intros Hd. unfold SMACrossoverStrategy.generate_signals.
  apply (copy_then_local data _
           (full_post (sma_crossover short_window long_window) df) h df Hd).
  intros l. run_all; finish_full; finish_shape.
Qed.

Lemma rsi_run_full window overbought oversold data (h : heap) df :
  h !! data = Some df →
  ∃ r df',
    RSIStrategy.generate_signals window overbought oversold data h
      = (r, <[fresh (dom h) := df']> h)
    ∧ full_post (rsi_strategy window overbought oversold) df
        (fresh (dom h)) r df'.
Proof.
  intros Hd. unfold RSIStrategy.generate_signals.
  apply (copy_then_local data _
           (full_post (rsi_strategy window overbought oversold) df) h df Hd).
  intros l. run_all; finish_full; finish_shape.
Qed.

Lemma macd_run_full fast_period slow_period signal_period data (h : heap) df :
  h !! data = Some df →
  ∃ r df',
    MACDStrategy.generate_signals fast_period slow_period signal_period data h
      = (r, <[fresh (dom h) := df']> h)
    ∧ full_post (macd fast_period slow_period signal_period) df
        (fresh (dom h)) r df'.
Proof.
  intros Hd. unfold MACDStrategy.generate_signals.
  apply (copy_then_local data _
           (full_post (macd fast_period slow_period signal_period) df)
           h df Hd).
  intros l. run_all; finish_full; finish_shape.
Qed.

Lemma bollinger_run_full window num_std data (h : heap) df :
  h !! data = Some df →
  ∃ r df',
    BollingerBandsStrategy.generate_signals window num_std data h
      = (r, <[fresh (dom h) := df']> h)
    ∧ full_post (bollinger_bands window num_std) df (fresh (dom h)) r df'.
Proof.
  intros Hd. unfold BollingerBandsStrategy.generate_signals.
  apply (copy_then_local data _
           (full_post (bollinger_bands window num_std) df) h df Hd).
  intros l. run_all; finish_full; finish_shape.
Qed.

Lemma apply_strategy_run_full st data (h : heap) df :
  h !! data = Some df →
  ∃ r df',
    apply_strategy data st h = (r, <[fresh (dom h) := df']> h)
    ∧ full_post st df (fresh (dom h)) r df'.
Proof.
  intros Hd. destruct st as [s lw|w ob os|f s g|w k]; simpl.
  - by apply sma_run_full.
  - by apply rsi_run_full.
  - by apply macd_run_full.
  - by apply bollinger_run_full.
Qed.

End strategies_more.

(** ** What a caller of [generate_signals] can rely on *)

Section signals_more.
Local Open Scope float_scope.

(** A completed run, with what both descriptions of the body say about the
    frame it returns. *)
Lemma apply_strategy_ok_full st data (h : heap) df out h' :
  h !! data = Some df →
  apply_strategy data st h = (Ok out, h') →
  ∃ df', h' !! out = Some df' ∧ signals_of df df'
         ∧ full_post st df out (Ok out) df'.
Proof.
  intros Hd Hrun.
  destruct (apply_strategy_run st data h df Hd) as (r & df1 & Hrun1 & Hpost).
  destruct (apply_strategy_run_full st data h df Hd)
    as (r2 & df2 & Hrun2 & Hfull).
  rewrite Hrun1 in Hrun2. injection Hrun2 as <- Hh.
  assert (df1 = df2) as <-.
  { apply (f_equal (λ m : heap, m !! fresh (dom h))) in Hh.
    rewrite !lookup_insert_eq in Hh. by injection Hh. }
  rewrite Hrun1 in Hrun. injection Hrun as -> <-.
  destruct (Hpost _ eq_refl) as [-> Hsig].
  exists df1. by rewrite lookup_insert_eq.
Qed.

(** X14: for every strategy with windows of one or more, [generate_signals]
    returns exactly when the frame has a Close column; without one it raises
    the KeyError of that column. *)
Theorem generate_signals_needs_close st data (h : heap) df :
  h !! data = Some df →
  positive_windows st →
  match df_columns df !! "Close" with
  | Some _ => ∃ out, (apply_strategy data st h).1 = Ok out
  | None => (apply_strategy data st h).1 = Raise (KeyError "Close")
  end.
Proof.
  intros Hd _.
  destruct (apply_strategy_run_full st data h df Hd)
    as (r & df' & -> & Hfull).
  unfold full_post in Hfull. simpl.
  destruct (df_columns df !! "Close").
  - destruct Hfull as [-> _]. eauto.
  - done.
Qed.

Lemma generate_signals_needs_close_witness :
  (apply_strategy 1%positive (macd 12 26 9) (store_of no_close_frame)).1
  = Raise (KeyError "Close").
Proof.
  apply (generate_signals_needs_close (macd 12 26 9) 1%positive
           (store_of no_close_frame) no_close_frame).
  - reflexivity.
  - simpl. lia.
Defined.

(** X15: for windows of one or more, the returned frame has the index of the
    input and, apart from the columns the strategy assigns, the columns of the
    input: Close and every other column the caller had are there unchanged,
    while a Signal or Position column of the input is replaced. *)
Theorem generate_signals_keeps_other_columns st data (h : heap) df out h' :
  h !! data = Some df →
  positive_windows st →
  apply_strategy data st h = (Ok out, h') →
  ∃ df',
    h' !! out = Some df'
    ∧ df_index df' = df_index df
    ∧ (∀ c, c ∉ written st → df_columns df' !! c = df_columns df !! c)
    ∧ df_columns df' !! "Close" = df_columns df !! "Close"
    ∧ (∃ signal position,
         df_columns df' !! "Signal" = Some (IntSeries signal)
         ∧ df_columns df' !! "Position" = Some (FloatSeries position)).
Proof.
  intros Hd _ Hrun.
  destruct (apply_strategy_ok_full st data h df out h' Hd Hrun)
    as (df' & Hout & (_ & signal & Hsig & _ & _ & Hpos) & Hfull).
  exists df'. split; [done|]. unfold full_post in Hfull.
  destruct (df_columns df !! "Close") as [close|] eqn:Hclose; [|done].
  destruct Hfull as (_ & Hidx & Hkeep & _).
  split; [done|]. split; [done|]. split.
  - rewrite <- Hclose. apply Hkeep.
    destruct st; cbn [written]; rewrite !not_elem_of_cons;
      repeat split; try done; apply not_elem_of_nil.
  - eauto.
Qed.

Lemma generate_signals_keeps_other_columns_witness :
  ∃ df',
    (apply_strategy 1%positive (rsi_strategy 2 70 30)
       (store_of ohlcv_frame)).2 !! 2%positive = Some df'
    ∧ df_index df' = df_index ohlcv_frame
    ∧ (∀ c, c ∉ written (rsi_strategy 2 70 30) →
         df_columns df' !! c = df_columns ohlcv_frame !! c)
    ∧ df_columns df' !! "Close" = df_columns ohlcv_frame !! "Close"
    ∧ (∃ signal position,
         df_columns df' !! "Signal" = Some (IntSeries signal)
         ∧ df_columns df' !! "Position" = Some (FloatSeries position)).
Proof.
  apply (generate_signals_keeps_other_columns (rsi_strategy 2 70 30)
           1%positive (store_of ohlcv_frame) ohlcv_frame).
  - reflexivity.
  - simpl. lia.
  - vm_compute. reflexivity.
Defined.

Lemma assign_masked_lookup_false {A} mask (values xs : list A) t :
  mask !! t = Some false → assign_masked mask values xs !! t = xs !! t.
Proof.
  revert values xs t. induction mask as [|b m IH]; intros values xs t Hm;
    [done|].
  destruct xs as [|x tl]; [by destruct b|].
  destruct t as [|t]; simpl in Hm.
  - injection Hm as ->. done.
  - destruct b; [destruct values|]; simpl; by apply IH.
Qed.

(** X16: warm-up neutrality, for windows of one or more: the regime is 0 on
    every row whose label is before the label of the row at the lookback
    position, and on every row when the frame has no more rows than the
    lookback. *)
Theorem warm_up_is_neutral st data (h : heap) df out h' :
  h !! data = Some df →
  positive_windows st →
  apply_strategy data st h = (Ok out, h') →
  ∃ df' signal,
    h' !! out = Some df'
    ∧ df_columns df' !! "Signal" = Some (IntSeries signal)
    ∧ length signal = length (df_index df)
    ∧ (length (df_index df) ≤ lookback st →
       signal = replicate (length (df_index df)) 0%Z)
    ∧ (∀ t lt label,
         df_index df !! t = Some lt →
         df_index df !! lookback st = Some label →
         (lt < label)%Z →
         signal !! t = Some 0%Z).
Proof.
  intros Hd _ Hrun.
  destruct (apply_strategy_ok_full st data h df out h' Hd Hrun)
    as (df' & Hout & (_ & signal & Hsig & Hlen & _) & Hfull).
  exists df', signal. split; [done|]. split; [done|]. split; [done|].
  unfold full_post in Hfull.
  destruct (df_columns df !! "Close"); [|done].
  destruct Hfull as (_ & _ & _ & signal' & Hsig' & Hshape).
  rewrite Hsig in Hsig'. injection Hsig' as <-.
  destruct Hshape as [[Hshort ->] | (label & values & Hlabel & ->)].
  - split; [done|]. intros t lt label Ht Hlabel _.
    apply lookup_lt_Some in Hlabel. lia.
  - split.
    { intros Hshort. apply lookup_lt_Some in Hlabel. lia. }
    intros t lt label' Ht Hlabel' Hlt.
    rewrite Hlabel in Hlabel'. injection Hlabel' as <-.
    rewrite assign_masked_lookup_false.
    + apply lookup_replicate. split; [done|]. by eapply lookup_lt_Some.
    + unfold valid_mask_of. rewrite list_lookup_fmap, Ht. simpl.
      f_equal. by apply Z.leb_gt.
Qed.

Lemma warm_up_is_neutral_witness :
  ∃ df' signal,
    store_after_rsi !! 2%positive = Some df'
    ∧ df_columns df' !! "Signal" = Some (IntSeries signal)
    ∧ length signal = length (df_index fall_then_jump)
    ∧ (length (df_index fall_then_jump) ≤ lookback (rsi_strategy 2 70 30) →
       signal = replicate (length (df_index fall_then_jump)) 0%Z)
    ∧ (∀ t lt label,
         df_index fall_then_jump !! t = Some lt →
         df_index fall_then_jump !! lookback (rsi_strategy 2 70 30)
           = Some label →
         (lt < label)%Z →
         signal !! t = Some 0%Z).
Proof.
  apply (warm_up_is_neutral (rsi_strategy 2 70 30) 1%positive
           (store_of fall_then_jump) fall_then_jump).
  - reflexivity.
  - simpl. lia.
  - vm_compute. reflexivity.
Defined.

(** The event series has one entry per row, and every entry after the first
    is -2, 0 or 2. *)
Theorem events_are_trade_codes st data (h : heap) df out h' :
  h !! data = Some df →
  apply_strategy data st h = (Ok out, h') →
  ∃ df' position,
    h' !! out = Some df'
    ∧ df_columns df' !! "Position" = Some (FloatSeries position)
    ∧ length position = length (df_index df)
    ∧ ∀ t p, position !! S t = Some p → p = -2 ∨ p = 0 ∨ p = 2.
Proof.
  intros Hd Hrun.
  destruct (apply_strategy_ok_full st data h df out h' Hd Hrun)
    as (df' & Hout & (_ & signal & Hsig & Hlen & Hreg & Hpos) & _).
  exists df', (position_of (IntSeries signal)).
  split; [done|]. split; [done|]. split.
  { rewrite position_of_length. simpl. by rewrite length_fmap. }
  intros t p Hp.
  assert (S t < length signal) as Hlt.
  { apply lookup_lt_Some in Hp. rewrite position_of_length in Hp.
    simpl in Hp. by rewrite length_fmap in Hp. }
  destruct (lookup_lt_is_Some_2 signal t) as [s0 H0]; [lia|].
  destruct (lookup_lt_is_Some_2 signal (S t)) as [s1 H1]; [done|].
  assert (regime s0) as R0 by (eapply Forall_lookup_1; eauto).
  assert (regime s1) as R1 by (eapply Forall_lookup_1; eauto).
  rewrite (position_of_lookup signal t s0 s1 R0 R1 H0 H1) in Hp.
  injection Hp as <-.
  destruct R0 as [->|[->| ->]], R1 as [->|[->| ->]]; simpl; auto.
Qed.

Lemma events_are_trade_codes_witness :
  ∃ df' position,
    store_after_rsi !! 2%positive = Some df'
    ∧ df_columns df' !! "Position" = Some (FloatSeries position)
    ∧ length position = length (df_index fall_then_jump)
    ∧ ∀ t p, position !! S t = Some p → p = -2 ∨ p = 0 ∨ p = 2.
Proof.
  apply (events_are_trade_codes (rsi_strategy 2 70 30) 1%positive
           (store_of fall_then_jump) fall_then_jump).
  - reflexivity.
  - vm_compute. reflexivity.
Defined.

(** X17: for windows of one or more and strictly growing index labels, no
    trade event comes before the lookback position: the events of rows 1 to
    lookback - 1 are 0. *)
Theorem no_event_during_warm_up st data (h : heap) df out h' :
  h !! data = Some df →
  positive_windows st →
  increasing (df_index df) →
  apply_strategy data st h = (Ok out, h') →
  ∀ t, 1 ≤ t → t < lookback st → t < length (df_index df) →
    entry h' out "Position" t = Some 0.
Proof.
  intros Hd _ Hinc Hrun t Ht1 Htw Htn.
  destruct (apply_strategy_ok_full st data h df out h' Hd Hrun)
    as (df' & Hout & (_ & signal & Hsig & Hlen & Hreg & Hpos) & Hfull).
  assert (∀ u, u < lookback st → u < length (df_index df) →
               signal !! u = Some 0%Z) as Hzero.
  { intros u Hu Hun. unfold full_post in Hfull.
    destruct (df_columns df !! "Close"); [|done].
    destruct Hfull as (_ & _ & _ & signal' & Hsig' & Hshape).
    rewrite Hsig in Hsig'. injection Hsig' as <-.
    destruct Hshape as [[Hshort ->] | (label & values & Hlabel & ->)].
    - by apply lookup_replicate.
    - destruct (lookup_lt_is_Some_2 (df_index df) u Hun) as [lu Hlu].
      rewrite assign_masked_lookup_false.
      + by apply lookup_replicate.
      + unfold valid_mask_of. rewrite list_lookup_fmap, Hlu. simpl.
        f_equal. apply Z.leb_gt. by apply (Hinc u (lookback st)). }
  destruct t as [|t]; [lia|].
  unfold entry. rewrite Hout. simpl. rewrite Hpos. simpl.
  rewrite (position_of_lookup signal t 0%Z 0%Z).
  - reflexivity.
  - right. by left.
  - right. by left.
  - apply Hzero; lia.
  - by apply Hzero.
Qed.

Lemma no_event_during_warm_up_witness :
  entry (apply_strategy 1%positive (sma_crossover 2 3)
           (store_of six_flat)).2 2%positive "Position" 1 = Some 0.
Proof.
  apply (no_event_during_warm_up (sma_crossover 2 3) 1%positive
           (store_of six_flat) six_flat).
  - reflexivity.
  - simpl. lia.
  - intros i j a b Hij Ha Hb.
    destruct i as [|[|[|[|[|[|i]]]]]]; simpl in Ha; simplify_eq;
      destruct j as [|[|[|[|[|[|j]]]]]]; simpl in Hb; simplify_eq; lia.
  - vm_compute. reflexivity.
  - lia.
  - simpl. lia.
  - simpl. lia.
Defined.

End signals_more.

(** ** The trading engine: from the signals to the orders *)

Section engine_orders.
Import RiskManager Risk TradingEngine.
Local Open Scope float_scope.

(** A call of [_execute_buy_order] submits nothing and changes nothing, or
    submits one request that passed the checks. *)
Lemma buy_order_cases w symbol price current_position self sent :
  let run' := _execute_buy_order w symbol price current_position (self, sent)
  in
  run' = (self, sent)
  ∨ ∃ req,
      run'.2 = sent ++ [req]
      ∧ TradingEngine.symbol req = symbol
      ∧ side req = OrderSide_BUY
      ∧ (qty req <=? 0) = false
      ∧ (abs (qty req * price) <? 10) = false
      ∧ (run'.1 = self
         ∨ submit_order_returns w sent req = true
           ∧ run'.1 = {| risk_manager := risk_manager self;
                         positions :=
                           <[symbol := current_position + qty req]>
                             (positions self);
                         cash := cash self
                                 - (qty req * price
                                    + calculate_slippage_and_commission
                                        (risk_manager self)
                                        (qty req * price) "buy");
                         portfolio_value := portfolio_value self;
                         last_trade_time :=
                           Some (now w (sent ++ [req])) |}).
Proof.
  cbn zeta. unfold _execute_buy_order.
  cbn [calculate_position_size divide].
  set (shares := round3 _).
  destruct (shares <=? 0) eqn:Hpos; [by left|].
  destruct (validate_trade _ _ _ _ _ _ _) as [is_valid reason] eqn:Hv.
  destruct is_valid; [|by left]. cbn [negb].
  destruct (gtb _ _) eqn:Hcost; [by left|].
  assert ((abs (shares * price) <? 10) = false) as Hmin.
  { unfold validate_trade in Hv. cbn zeta in Hv.
    repeat (destruct (_ && _) in Hv; [done|]).
    by destruct (abs (shares * price) <? 10). }
  right. eexists. split; [|split; [|split; [|split; [|split]]]].
  - by destruct (submit_order_returns _ _ _).
  - done.
  - done.
  - done.
  - done.
  - destruct (submit_order_returns _ _ _); [right|left]; done.
Qed.

Lemma sell_order_cases w symbol price self sent :
  let held := get0 (positions self) symbol in
  let run' := _execute_sell_order w symbol price held (self, sent) in
  run' = (self, sent)
  ∨ ∃ req,
      run'.2 = sent ++ [req]
      ∧ TradingEngine.symbol req = symbol
      ∧ side req = OrderSide_SELL
      ∧ (qty req <=? 0) = false
      ∧ (abs (qty req * price) <? 10) = false
      ∧ qty req = round3 held
      ∧ gtb (qty req) held = false
      ∧ (held <=? 0) = false
      ∧ (run'.1 = self
         ∨ submit_order_returns w sent req = true
           ∧ run'.1 = {| risk_manager := risk_manager self;
                         positions := <[symbol := 0]> (positions self);
                         cash := cash self
                                 + (qty req * price
                                    - calculate_slippage_and_commission
                                        (risk_manager self)
                                        (qty req * price) "sell");
                         portfolio_value := portfolio_value self;
                         last_trade_time :=
                           Some (now w (sent ++ [req])) |}).
Proof.
  cbn zeta. unfold _execute_sell_order.
  destruct (get0 (positions self) symbol <=? 0) eqn:Hheld; [by left|].
  set (shares := round3 _).
  destruct (shares <=? 0) eqn:Hpos; [by left|].
  destruct (validate_trade _ _ _ _ _ _ _) as [is_valid reason] eqn:Hv.
  destruct is_valid; [|by left]. cbn [negb].
  unfold validate_trade in Hv. cbn zeta in Hv.
  rewrite (bool_decide_eq_false_2 ("sell" = "buy")) in Hv by done.
  rewrite (bool_decide_eq_true_2 ("sell" = "sell")) in Hv by done.
  cbn [andb] in Hv.
  destruct (gtb shares (get0 (positions self) symbol)) eqn:Hover; [done|].
  destruct (abs (shares * price) <? 10) eqn:Hmin; [done|].
  right. eexists. split; [|split; [|split; [|split; [|split]]]].
  - by destruct (submit_order_returns _ _ _).
  - done.
  - done.
  - done.
  - done.
  - split; [done|]. split; [done|]. split; [done|].
    destruct (submit_order_returns _ _ _); [right|left]; done.
Qed.


Lemma eqb_neg_two x : (x =? -2) = true → x = -2.
Proof.
  intros H. apply Prim2SF_inj. rewrite FloatAxioms.eqb_spec in H.
  change (Prim2SF (-2)) with (S754_finite true 4503599627370496 (-51)) in *.
  destruct (Prim2SF x) as [[|]|[|]| |[|] m e]; try done.
  unfold SFeqb, SFcompare in H.
  destruct (e ?= -51)%Z eqn:He; try done.
  apply Z.compare_eq in He as ->.
  destruct (Pos.compare_cont Eq m 4503599627370496) eqn:Hm; try done.
  apply Pos.compare_eq in Hm as ->. done.
Qed.

(** One round of the loop of [_execute_trades]. *)
Lemma execute_trade_cases w run item :
  let run' := execute_trade w run item in
  run' = run
  ∨ ∃ req sd,
      item = (TradingEngine.symbol req, Some sd)
      ∧ run'.2 = run.2 ++ [req]
      ∧ (sd_signal sd
         =? match side req with
            | OrderSide_BUY => 2
            | OrderSide_SELL => -2
            end) = true
      ∧ (qty req <=? 0) = false
      ∧ (abs (qty req * sd_price sd) <? 10) = false
      ∧ covered run.1 req
      ∧ (run'.1 = run.1
         ∨ submit_order_returns w run.2 req = true
           ∧ risk_manager run'.1 = risk_manager run.1
           ∧ portfolio_value run'.1 = portfolio_value run.1
           ∧ ∃ v, positions run'.1
                  = <[TradingEngine.symbol req := v]> (positions run.1)).
Proof.
  destruct run as [self sent], item as [symbol [sd|]]; [|by left].
  cbn zeta. unfold execute_trade. cbn [fst snd].
  destruct (sd_signal sd =? 0); [by left|].
  destruct (sd_signal sd =? 2) eqn:Hbuy.
  - destruct (buy_order_cases w symbol (sd_price sd)
                (get0 (positions self) symbol) self sent)
      as [->|(req & Hsent & <- & Hside & Hpos & Hmin & Hrun)]; [by left|].
    right. exists req, sd. split; [done|]. split; [done|].
    rewrite Hside. split; [done|]. split; [done|]. split; [done|].
    split; [by intros ?; congruence|].
    destruct Hrun as [->|[Hret ->]]; [by left|right].
    split; [done|]. split; [done|]. split; [done|]. by eexists.
  - destruct (sd_signal sd =? -2) eqn:Hsell; [|by left].
    destruct (sell_order_cases w symbol (sd_price sd) self sent)
      as [->|(req & Hsent & <- & Hside & Hpos & Hmin & Hqty & Hover
              & Hheld & Hrun)]; [by left|].
    right. exists req, sd. split; [done|]. split; [done|].
    rewrite Hside. split; [done|]. split; [done|]. split; [done|].
    split; [done|].
    destruct Hrun as [->|[Hret ->]]; [by left|right].
    split; [done|]. split; [done|]. split; [done|]. by eexists.
Qed.

Lemma answers_cons item signals req :
  answers signals req → answers (item :: signals) req.
Proof.
  intros (sd & Hin & H). exists sd. split; [by apply elem_of_cons; right|done].
Qed.

Lemma answers_key signals req :
  answers signals req → TradingEngine.symbol req ∈ signals.*1.
Proof.
  intros (sd & Hin & _).
  apply list_elem_of_fmap. by exists (TradingEngine.symbol req, Some sd).
Qed.

Lemma execute_trades_cons w item rest run :
  _execute_trades w (item :: rest) run
  = _execute_trades w rest (execute_trade w run item).
Proof. reflexivity. Qed.

(** What a whole round of [_execute_trades] keeps. *)
Lemma execute_trades_inv w signals run :
  ∃ new,
    (_execute_trades w signals run).2 = run.2 ++ new
    ∧ Forall (answers signals) new
    ∧ length new ≤ length signals
    ∧ risk_manager (_execute_trades w signals run).1 = risk_manager run.1
    ∧ portfolio_value (_execute_trades w signals run).1
      = portfolio_value run.1
    ∧ (∀ s, s ∉ signals.*1 →
         positions (_execute_trades w signals run).1 !! s
         = positions run.1 !! s)
    ∧ ((∀ sent req, submit_order_returns w sent req = false) →
       (_execute_trades w signals run).1 = run.1)
    ∧ (NoDup signals.*1 → Forall (covered run.1) new).
Proof.
  revert run. induction signals as [|item rest IH]; intros run.
  { exists []. simpl. rewrite app_nil_r. repeat split; done. }
  rewrite execute_trades_cons.
  destruct (IH (execute_trade w run item))
    as (new & Hsent & Hans & Hlen & Hrm & Hpv & Hpos & Hdown & Hcov).
  destruct (execute_trade_cases w run item)
    as [Heq|(req & sd & -> & Hsent1 & Hsig & Hqty & Hmin & Hcov1 & Hrun)].
  - rewrite Heq in *. exists new. split; [done|]. split.
    { eapply Forall_impl; [done|]. intros. by apply answers_cons. }
    split; [simpl; lia|]. split; [done|]. split; [done|]. split.
    { intros s Hs. apply Hpos. intros ?. apply Hs. by apply elem_of_cons; right. }
    split; [done|]. intros Hnd. apply Hcov. by apply NoDup_cons_1_2 in Hnd.
  - set (run1 := execute_trade w run (TradingEngine.symbol req, Some sd)) in *.
    assert (risk_manager run1.1 = risk_manager run.1
            ∧ portfolio_value run1.1 = portfolio_value run.1
            ∧ ∀ s, s ≠ TradingEngine.symbol req →
                positions run1.1 !! s = positions run.1 !! s)
      as (Hrm1 & Hpv1 & Hpos1).
    { destruct Hrun as [->|(_ & ? & ? & v & ->)]; [done|].
      split; [done|]. split; [done|]. intros s Hs.
      by rewrite lookup_insert_ne. }
    exists (req :: new). split.
    { rewrite Hsent, Hsent1. by rewrite <- app_assoc. }
    split.
    { constructor.
      - exists sd. split; [by apply elem_of_cons; left|done].
      - eapply Forall_impl; [done|]. intros. by apply answers_cons. }
    split; [simpl; lia|]. split; [congruence|]. split; [congruence|]. split.
    { intros s Hs. rewrite fmap_cons in Hs.
      apply not_elem_of_cons in Hs as [Hne Hs].
      rewrite Hpos by done. by apply Hpos1. }
    split.
    { intros Hall. rewrite Hdown by done.
      destruct Hrun as [->|(Hret & _)]; [done|]. by rewrite Hall in Hret. }
    intros Hnd. rewrite fmap_cons in Hnd.
    apply NoDup_cons in Hnd as [Hfresh Hnd]. constructor; [done|].
    specialize (Hcov Hnd).
    rewrite Forall_forall in Hcov, Hans. apply Forall_forall.
    intros r Hr. specialize (Hcov r Hr). specialize (Hans r Hr).
    apply answers_key in Hans.
    assert (TradingEngine.symbol r ≠ TradingEngine.symbol req) as Hne.
    { intros Heq. apply Hfresh. simpl. by rewrite <- Heq. }
    unfold covered, get0 in *. by rewrite Hpos1 in Hcov.
Qed.


(** X19: [_execute_trades] never changes the risk manager or the portfolio
    value, and it leaves the position of every symbol without a signal in the
    round as it was. *)
Theorem trades_touch_signalled_symbols_only w signals run s :
  s ∉ signals.*1 →
  positions (_execute_trades w signals run).1 !! s = positions run.1 !! s
  ∧ risk_manager (_execute_trades w signals run).1 = risk_manager run.1
  ∧ portfolio_value (_execute_trades w signals run).1
    = portfolio_value run.1.
Proof.
  intros Hs.
  destruct (execute_trades_inv w signals run)
    as (new & _ & _ & _ & Hrm & Hpv & Hpos & _).
  split; [by apply Hpos|done].
Qed.

Lemma trades_touch_signalled_symbols_only_witness :
  positions (_execute_trades broker_up [signal_of "MSFT" 2 100]
               (engine_with_aapl, [])).1 !! "AAPL"
  = positions engine_with_aapl !! "AAPL"
  ∧ risk_manager (_execute_trades broker_up [signal_of "MSFT" 2 100]
                    (engine_with_aapl, [])).1
    = risk_manager engine_with_aapl
  ∧ portfolio_value (_execute_trades broker_up [signal_of "MSFT" 2 100]
                       (engine_with_aapl, [])).1
    = portfolio_value engine_with_aapl.
Proof.
  apply (trades_touch_signalled_symbols_only broker_up
           [signal_of "MSFT" 2 100] (engine_with_aapl, []) "AAPL").
  cbn. by intros ?%list_elem_of_singleton.
Defined.

(** X20: when the broker refuses every order, a round of [_execute_trades]
    leaves the engine as it was: positions and cash are written only after a
    call of the broker that returned. *)
Theorem refused_orders_change_nothing w signals run :
  (∀ sent req, submit_order_returns w sent req = false) →
  (_execute_trades w signals run).1 = run.1.
Proof.
  intros Hall.
  destruct (execute_trades_inv w signals run)
    as (new & _ & _ & _ & _ & _ & _ & Hdown & _).
  by apply Hdown.
Qed.

Lemma refused_orders_change_nothing_witness :
  (_execute_trades broker_down [signal_of "MSFT" 2 100] (new_engine, [])).1
  = new_engine.
Proof.
  apply (refused_orders_change_nothing broker_down
           [signal_of "MSFT" 2 100] (new_engine, [])).
  reflexivity.
Defined.

(** X21: a round whose signals are all other than 2 and -2 (0, a missing
    value, no signal data) submits nothing and changes nothing. *)
Theorem signals_without_action_do_nothing w signals run :
  Forall no_action signals →
  _execute_trades w signals run = run.
Proof.
  intros Hall. induction Hall as [|[symbol [sd|]] rest Hno _ IH].
  - done.
  - unfold _execute_trades in *. cbn [foldl execute_trade].
    destruct Hno as [-> ->]. by destruct (sd_signal sd =? 0).
  - done.
Qed.

Lemma signals_without_action_do_nothing_witness :
  _execute_trades broker_up
    [signal_of "AAPL" nan 100; signal_of "MSFT" 0 100; ("AMD", None)]
    (engine_with_aapl, [])
  = (engine_with_aapl, []).
Proof.
  apply (signals_without_action_do_nothing broker_up).
  repeat constructor.
Defined.



(** X23: a position whose quantity rounds up at the third decimal cannot be
    sold: the rounded quantity is more than the position, the risk manager
    answers with insufficient shares, and a round for the sell signal submits
    nothing and changes nothing. *)
Theorem rounded_up_position_is_not_sold w run symbol sd :
  (sd_signal sd =? -2) = true →
  gtb (round3 (get0 (positions run.1) symbol))
      (get0 (positions run.1) symbol) = true →
  _execute_trades w [(symbol, Some sd)] run = run
  ∧ validate_trade (risk_manager run.1) symbol
      (round3 (get0 (positions run.1) symbol)) (sd_price sd) "sell"
      (cash run.1) (positions run.1)
    = (false,
       InsufficientShares (round3 (get0 (positions run.1) symbol))
         (get0 (positions run.1) symbol)).
Proof.
  intros Hsig Hup. split.
  - destruct run as [self sent]. rewrite execute_trades_cons.
    change (_execute_trades w [] ?r) with r.
    destruct (execute_trade_cases w (self, sent) (symbol, Some sd))
      as [Heq|(req & sd' & Hitem & _ & Hcode & _ & _ & Hcov & _)]; [done|].
    injection Hitem as -> <-.
    destruct (side req) eqn:Hside.
    + apply eqb_neg_two in Hsig. by rewrite Hsig in Hcode.
    + destruct (Hcov Hside) as (Hq & Hover & _).
      rewrite Hq in Hover. simpl in Hup, Hover. congruence.
  - unfold validate_trade. cbn zeta.
    rewrite (bool_decide_eq_false_2 ("sell" = "buy")) by done.
    rewrite (bool_decide_eq_true_2 ("sell" = "sell")) by done.
    cbn [andb]. by rewrite Hup.
Qed.

Lemma rounded_up_position_is_not_sold_witness :
  _execute_trades broker_up [signal_of "AAPL" (-2) 100] (engine_with_aapl, [])
  = (engine_with_aapl, [])
  ∧ validate_trade default_manager "AAPL" (round3 (0.7 + 0.1)) 100 "sell"
      10000 {["AAPL" := 0.7 + 0.1]}
    = (false, InsufficientShares (round3 (0.7 + 0.1)) (0.7 + 0.1)).
Proof.
  apply (rounded_up_position_is_not_sold broker_up (engine_with_aapl, [])
           "AAPL").
  - reflexivity.
  - vm_compute. reflexivity.
Defined.


End engine_orders.

(** ** The trading engine: from a frame of prices to the signal *)

Section engine_signals.
Import RiskManager Risk TradingEngine.
Local Open Scope float_scope.

Lemma bind_run {A B} (m : M A) (k : A → M B) (h h' : heap) r :
  m h = (r, h') →
  bind m k h = match r with
               | Ok a => k a h'
               | Raise e => (Raise e, h')
               end.
Proof. intros H. unfold bind. by rewrite H. Qed.

Lemma deref_run l (h : heap) df : h !! l = Some df → deref l h = (Ok df, h).
Proof. intros H. unfold deref. by rewrite H. Qed.

Lemma getitem_run l col (h : heap) df s :
  h !! l = Some df → df_columns df !! col = Some s →
  getitem l col h = (Ok s, h).
Proof.
  intros H Hs. unfold getitem, mbind, M_bind.
  rewrite (bind_run _ _ _ _ _ (deref_run _ _ _ H)). by rewrite Hs.
Qed.

Lemma index_run l (h : heap) df :
  h !! l = Some df → index l h = (Ok (df_index df), h).
Proof.
  intros H. unfold index, mbind, M_bind.
  by rewrite (bind_run _ _ _ _ _ (deref_run _ _ _ H)).
Qed.

Lemma bind_last_item {A B} (xs : list A) (k : A → M B) (h : heap) :
  bind (last_item xs) k h = match last xs with
                            | Some x => k x h
                            | None => (Raise IndexError, h)
                            end.
Proof. unfold bind, last_item. by destruct (last xs). Qed.

(** What [_generate_signals] returns for a frame with a Close column, in
    terms of the regime column the strategy computes. *)
Lemma generate_signals_spec st symbol data (h : heap) df close :
  h !! data = Some df →
  df_columns df !! "Close" = Some close →
  ∃ signal,
    length signal = length (df_index df)
    ∧ Forall regime signal
    ∧ (_generate_signals st symbol data h).1
      = (latest_signal ← last (position_of (IntSeries signal));
         price ← last (to_float close);
         timestamp ← last (df_index df);
         Some {| sd_symbol := symbol; sd_signal := latest_signal;
                 sd_price := price; sd_timestamp := timestamp |})
    ∧ (_generate_signals st symbol data h).2 !! data = Some df.
Proof.
  intros Hd Hclose.
  destruct (apply_strategy_run st data h df Hd) as (r & df' & Hrun & Hpost).
  destruct (apply_strategy_run_full st data h df Hd)
    as (r2 & df2 & Hrun2 & Hfull).
  rewrite Hrun in Hrun2. injection Hrun2 as <- Hh.
  assert (df' = df2) as <-.
  { apply (f_equal (λ m : heap, m !! fresh (dom h))) in Hh.
    rewrite !lookup_insert_eq in Hh. by injection Hh. }
  clear Hh. unfold full_post in Hfull. rewrite Hclose in Hfull.
  destruct Hfull as (-> & Hidx & _).
  destruct (Hpost _ eq_refl) as (_ & _ & signal & Hsig & Hlen & Hreg & Hpos).
  assert (data ≠ fresh (dom h)) as Hne.
  { intros ->. apply (is_fresh (dom h)). apply elem_of_dom. by eexists. }
  exists signal. split; [done|]. split; [done|].
  remember (<[fresh (dom h) := df']> h) as h' eqn:Hh'.
  assert (h' !! fresh (dom h) = Some df') as Hout
    by (subst h'; apply lookup_insert_eq).
  assert (h' !! data = Some df) as Hd'
    by (subst h'; by rewrite lookup_insert_ne).
  clear Hh'.
  assert (empty df' = bool_decide (df_index df = [])) as Hempty.
  { unfold empty. rewrite Hidx.
    rewrite (bool_decide_eq_false_2 (df_columns df' = ∅)).
    - by rewrite orb_false_r.
    - intros He. by rewrite He in Hsig. }
  unfold _generate_signals, generate_signals_body, mbind, M_bind.
  rewrite (bind_run _ _ _ _ _ Hrun).
  rewrite (bind_run _ _ _ _ _ (deref_run _ _ _ Hout)).
  rewrite Hempty.
  assert (∀ latest_signal,
    (let (r, h0) :=
       bind (getitem data "Close")
         (λ close0, bind (last_item (to_float close0))
            (λ price, bind (index data)
               (λ idx, bind (last_item idx)
                  (λ timestamp,
                     ret {| sd_symbol := symbol;
                            sd_signal := latest_signal;
                            sd_price := price;
                            sd_timestamp := timestamp |})))) h' in
     match r with
     | Ok signal_data => (Some signal_data, h0)
     | Raise _ => (None, h0)
     end)
    = (price ← last (to_float close);
       timestamp ← last (df_index df);
       Some {| sd_symbol := symbol; sd_signal := latest_signal;
               sd_price := price; sd_timestamp := timestamp |}, h'))
    as Hrest.
  { intros latest_signal.
    rewrite (bind_run _ _ _ _ _ (getitem_run _ _ _ _ _ Hd' Hclose)).
    rewrite bind_last_item.
    destruct (last (to_float close)) as [price|]; [|done].
    rewrite (bind_run _ _ _ _ _ (index_run _ _ _ Hd')).
    rewrite bind_last_item.
    by destruct (last (df_index df)). }
  destruct (df_index df) as [|i0 idx] eqn:Hi.
  - destruct signal; [|done].
    rewrite bool_decide_eq_true_2 by done. cbn [negb].
    rewrite (bind_run _ _ h' h' (Ok 0)) by done.
    rewrite Hrest. simpl. split; [|done]. by destruct (last (to_float close)).
  - rewrite bool_decide_eq_false_2 by done. cbn [negb].
    assert (bind (getitem (fresh (dom h)) "Position")
              (λ position, last_item (to_float position)) h'
            = match last (position_of (IntSeries signal)) with
              | Some x => (Ok x, h')
              | None => (Raise IndexError, h')
              end) as Hlast.
    { rewrite (bind_run _ _ _ _ _ (getitem_run _ _ _ _ _ Hout Hpos)).
      unfold last_item. cbn [to_float].
      by destruct (last (position_of (IntSeries signal))). }
    destruct (last (position_of (IntSeries signal))) as [latest|].
    + rewrite (bind_run _ _ _ _ _ Hlast). by rewrite Hrest.
    + by rewrite (bind_run _ _ _ _ _ Hlast).
Qed.

Lemma generate_signals_no_close st symbol data (h : heap) df :
  h !! data = Some df →
  df_columns df !! "Close" = None →
  (_generate_signals st symbol data h).1 = None.
Proof.
  intros Hd Hclose.
  destruct (apply_strategy_run_full st data h df Hd)
    as (r & df' & Hrun & Hfull).
  unfold full_post in Hfull. rewrite Hclose in Hfull. subst r.
  unfold _generate_signals, generate_signals_body, mbind, M_bind.
  by rewrite (bind_run _ _ _ _ _ Hrun).
Qed.

(** X25: [_generate_signals] returns [None] for a frame without a Close column
    and for a frame without rows. *)
Theorem no_signal_without_prices st symbol data (h : heap) df :
  h !! data = Some df →
  df_columns df !! "Close" = None ∨ df_index df = [] →
  (_generate_signals st symbol data h).1 = None.
Proof.
  intros Hd Hor.
  destruct (df_columns df !! "Close") as [close|] eqn:Hclose.
  - destruct Hor as [|Hidx]; [done|].
    destruct (generate_signals_spec st symbol data h df close Hd Hclose)
      as (signal & Hlen & _ & -> & _).
    rewrite Hidx in Hlen. by destruct signal.
  - by eapply generate_signals_no_close.
Qed.

Lemma no_signal_without_prices_witness :
  (_generate_signals (macd 12 26 9) "AAPL" 1%positive
     (store_of no_close_frame)).1 = None.
Proof.
  apply (no_signal_without_prices (macd 12 26 9) "AAPL" 1%positive
           (store_of no_close_frame) no_close_frame).
  - reflexivity.
  - left. reflexivity.
Defined.




(** X27: a frame of a single row never leads to an order: whatever the
    strategy, the signal [_generate_signals] returns for it makes
    [_execute_trades] submit nothing and change nothing. *)
Theorem single_row_frame_never_trades st symbol data (h : heap) df w run :
  h !! data = Some df →
  length (df_index df) = 1%nat →
  _execute_trades w [(symbol, (_generate_signals st symbol data h).1)] run
  = run.
Proof.
  intros Hd H1.
  destruct (df_columns df !! "Close") as [close|] eqn:Hclose.
  - destruct (generate_signals_spec st symbol data h df close Hd Hclose)
      as (signal & Hlen & _ & -> & _).
    destruct (last (position_of (IntSeries signal))) as [latest|] eqn:Hl;
      [|done].
    rewrite last_lookup, position_of_length in Hl. simpl in Hl.
    rewrite length_fmap, Hlen, H1 in Hl. simpl in Hl.
    rewrite position_of_first in Hl.
    + injection Hl as <-. simpl.
      destruct (last (to_float close)); [|done]. simpl.
      destruct (last (df_index df)); done.
    + simpl. destruct signal; [|done]. by rewrite H1 in Hlen.
  - by rewrite (generate_signals_no_close st symbol data h df Hd Hclose).
Qed.

Lemma single_row_frame_never_trades_witness :
  _execute_trades broker_up
    [("AAPL", (_generate_signals (sma_crossover 2 3) "AAPL" 1%positive
                 (store_of one_bar)).1)]
    (new_engine, [])
  = (new_engine, []).
Proof.
  apply (single_row_frame_never_trades (sma_crossover 2 3) "AAPL"
           1%positive (store_of one_bar) one_bar).
  - reflexivity.
  - reflexivity.
Defined.

End engine_signals.

(** ** Subtraction of binary64 values keeps the order *)

Section float_subtraction.
Local Open Scope Z_scope.

Lemma digits2_size m : digits2_pos m = Pos.size m.
Proof. induction m as [m IH|m IH|]; simpl; by rewrite ?IH. Qed.

(** The mantissa and exponent of a finite binary64 value. *)
Lemma valid_finite_bounds s m e :
  valid_binary (S754_finite s m e) = true →
  Z.pos m < 2 ^ 53 ∧ -1074 ≤ e ∧ (-1074 < e → 2 ^ 52 ≤ Z.pos m).
Proof.
  unfold SpecFloat.valid_binary, bounded, canonical_mantissa, fexp.
  intros [Hcanon _]%andb_prop. apply Z.eqb_eq in Hcanon.
  rewrite digits2_size in Hcanon.
  change (SpecFloat.emin prec emax) with (-1074) in Hcanon.
  change prec with 53 in Hcanon.
  pose proof (Pos.size_gt m) as Hgt. pose proof (Pos.size_le m) as Hle.
  apply Pos2Z.pos_lt_pos in Hgt. apply Pos2Z.pos_le_pos in Hle.
  rewrite Pos2Z.inj_pow in Hgt, Hle.
  change (Z.pos m~0) with (2 * Z.pos m) in Hle.
  assert (Z.pos (Pos.size m) ≤ 53) as Hsize by lia.
  split; [|split; [lia|]].
  - eapply Z.lt_le_trans; [exact Hgt|].
    by apply Z.pow_le_mono_r.
  - intros He. assert (Z.pos (Pos.size m) = 53) as Heq by lia.
    rewrite Heq in Hle. change (2 ^ 53) with (2 * 2 ^ 52) in Hle. lia.
Qed.

Lemma shl_align_value m e ez :
  ez ≤ e → Z.pos (shl_align m e ez).1 = Z.pos m * 2 ^ (e - ez).
Proof.
  intros Hle. unfold shl_align.
  destruct (ez - e) as [|d|d] eqn:Hd; [|lia|].
  - replace (e - ez) with 0 by lia. simpl. lia.
  - replace (e - ez) with (Z.pos d) by lia. simpl.
    change (Pos.iter xO m d) with (shift_pos d m).
    rewrite shift_pos_correct, Z.pow_pos_fold. lia.
Qed.

Lemma round_not_negative m e :
  SFltb (binary_round prec emax false m e) (S754_zero false) = false.
Proof.
  unfold binary_round, binary_round_aux.
  destruct (shl_align _ _ _) as [mz ez].
  destruct (shr_fexp _ _ _ _ _) as [mrs' e'].
  destruct (shr_fexp _ _ _ _ _) as [mrs'' e''].
  destruct (shr_m mrs''); [done| |done].
  by destruct (_ <=? _).
Qed.

Lemma normalize_not_negative m e :
  0 ≤ m →
  SFltb (binary_normalize prec emax m e false) (S754_zero false) = false.
Proof.
  intros Hm. destruct m as [|m|m]; [done| |lia].
  apply round_not_negative.
Qed.

Lemma SFsub_not_negative x y :
  valid_binary x = true → valid_binary y = true →
  SFltb x y = false →
  SFltb (SFsub prec emax x y) (S754_zero false) = false.
Proof.
  intros Vx Vy Hlt.
  destruct x as [sx|sx| |sx mx ex], y as [sy|sy| |sy my ey];
    try done; try (by destruct sx, sy); try (by destruct sx);
    try (by destruct sy).
  apply valid_finite_bounds in Vx as (Hmx & Hex & Hnx).
  apply valid_finite_bounds in Vy as (Hmy & Hey & Hny).
  cbn [SFsub]. apply normalize_not_negative.
  rewrite !shl_align_value by lia.
  unfold SFltb, SFcompare in Hlt.
  assert (0 < 2 ^ (ex - Z.min ex ey)) by (apply Z.pow_pos_nonneg; lia).
  assert (0 < 2 ^ (ey - Z.min ex ey)) by (apply Z.pow_pos_nonneg; lia).
  destruct sx, sy; cbn [cond_Zopp]; [| done | nia |].
  - destruct (ex ?= ey) eqn:He.
    + apply Z.compare_eq in He as ->. rewrite Z.min_id, Z.sub_diag.
      destruct (Pos.compare_cont Eq mx my) eqn:Hm; [| |done].
      * apply Pos.compare_eq in Hm as ->. lia.
      * assert (Z.pos mx < Z.pos my) by (by apply Pos2Z.pos_lt_pos).
        lia.
    + assert (ex < ey) by (by apply Z.compare_lt_iff).
      rewrite Z.min_l, Z.sub_diag by lia. rewrite Z.min_l in * by lia.
      assert (2 ^ 1 ≤ 2 ^ (ey - ex)) by (apply Z.pow_le_mono_r; lia).
      specialize (Hny ltac:(lia)). change (2 ^ 53) with (2 ^ 52 * 2 ^ 1) in *.
      nia.
    + done.
  - destruct (ex ?= ey) eqn:He.
    + apply Z.compare_eq in He as ->. rewrite Z.min_id, Z.sub_diag.
      destruct (Pos.compare_cont Eq mx my) eqn:Hm; [|done|].
      * apply Pos.compare_eq in Hm as ->. lia.
      * assert (Z.pos my < Z.pos mx)
          by (by apply Pos2Z.pos_lt_pos, Pos.compare_gt_iff).
        lia.
    + done.
    + assert (ey < ex) by (by apply Z.compare_gt_iff).
      rewrite Z.min_r, Z.sub_diag by lia. rewrite Z.min_r in * by lia.
      assert (2 ^ 1 ≤ 2 ^ (ex - ey)) by (apply Z.pow_le_mono_r; lia).
      specialize (Hnx ltac:(lia)). change (2 ^ 53) with (2 ^ 52 * 2 ^ 1) in *.
      nia.
Qed.

(** When [x] is not below [y], the difference [x - y] is not below zero. *)
Lemma sub_not_negative (x y : float) :
  (x <? y)%float = false → (x - y <? 0)%float = false.
Proof.
  intros Hlt. rewrite FloatAxioms.ltb_spec in *.
  rewrite FloatAxioms.sub_spec.
  change (Prim2SF 0%float) with (S754_zero false).
  apply SFsub_not_negative; [apply Prim2SF_valid..|done].
Qed.

End float_subtraction.

(** ** The cash of the trading engine after a buy *)

Section engine_cash.
Import RiskManager Risk TradingEngine.
Local Open Scope float_scope.

(** X24: a buy order never overdraws the engine: when its cash is not below
    zero before [_execute_buy_order], it is not below zero after it, whether
    the order was filled, refused or not submitted. *)
Theorem buy_never_overdraws w symbol price current_position run :
  (cash run.1 <? 0) = false →
  (cash (_execute_buy_order w symbol price current_position run).1 <? 0)
  = false.
Proof.
  intros Hcash. destruct run as [self sent]. unfold _execute_buy_order.
  cbn [calculate_position_size divide].
  destruct (round3 _ <=? 0); [done|].
  destruct (validate_trade _ _ _ _ _ _ _) as [[|] reason]; [|done].
  cbn [negb].
  destruct (gtb _ (cash self)) eqn:Hcost; [done|].
  destruct (submit_order_returns _ _ _); [|done].
  cbn [fst cash]. by apply sub_not_negative.
Qed.

Lemma buy_never_overdraws_witness :
  (cash (_execute_buy_order broker_up "MSFT" 100 0 (new_engine, [])).1 <? 0)
  = false.
Proof.
  apply (buy_never_overdraws broker_up "MSFT" 100 0 (new_engine, [])).
  reflexivity.
Defined.

End engine_cash.

(** ** The position sizes of the crossover strategy *)

Section sizing.
Import Sizing.
Local Open Scope float_scope.

Lemma local_mono {A} l (m : M A) (Q Q' : result A → DataFrame → Prop) df :
  (∀ r df', Q r df' → Q' r df') → local l m Q df → local l m Q' df.
Proof.
  intros HQ Hm h Hl. destruct (Hm h Hl) as (r & df' & Hrun & Hpost).
  exists r, df'. split; [done|]. by apply HQ.
Qed.

Lemma local_loc_set l label col v Q df :
  match df_columns df !! col with
  | Some s =>
      Q (Ok tt)
        {| df_index := df_index df;
           df_columns :=
             <[col := FloatSeries
                        (zip_with
                           (λ l x, if bool_decide (l = label) then v else x)
                           (df_index df) (to_float s))]> (df_columns df) |}
  | None => Q (Raise (KeyError col)) df
  end →
  local l (loc_set l label col v) Q df.
Proof.
  intros HQ. unfold loc_set. apply local_bind, local_index.
  apply local_bind, local_getitem.
  destruct (df_columns df !! col) as [s|]; [|done].
  by apply local_setitem.
Qed.

(** A loop over [range(start, start + len)] with an invariant. *)
Lemma local_for_seq l (body : nat → M unit) (I : nat → DataFrame → Prop)
    (Q : result unit → DataFrame → Prop) (len : nat) :
  ∀ (start : nat) df,
    I start df →
    (∀ i df, (start ≤ i < start + len)%nat → I i df →
       local l (body i)
         (λ r df', match r with
                   | Ok _ => I (S i) df'
                   | Raise e => Q (Raise e) df'
                   end) df) →
    (∀ df, I (start + len)%nat df → Q (Ok tt) df) →
    local l (for_ (seq start len) body) Q df.
Proof.
  induction len as [|len IH]; intros start df HI Hbody Hend; simpl.
  - apply local_ret. apply Hend. by rewrite Nat.add_0_r.
  - apply local_bind.
    eapply local_mono; [|apply (Hbody start df); [lia|done]].
    intros [[]|e] df'; [|done]. intros HI'.
    apply (IH (S start)); [done| |].
    + intros i df0 Hi. apply Hbody. lia.
    + intros df0 HI0. apply Hend.
      by replace (start + S len)%nat with (S start + len)%nat by lia.
Qed.

Lemma sizes_upto_length cash position close k :
  length (sizes_upto cash position close k)
  = length (zip position close).
Proof. unfold sizes_upto. by rewrite length_imap. Qed.

Lemma sizes_upto_lookup cash position close k t p c :
  position !! t = Some p → close !! t = Some c →
  sizes_upto cash position close k !! t
  = Some (if (t <? k)%nat then size_at cash t p c else 0).
Proof.
  intros Hp Hc. unfold sizes_upto. rewrite list_lookup_imap.
  by rewrite (proj2 (lookup_zip_Some _ _ _ _ _) (conj Hp Hc)).
Qed.

Lemma sizes_upto_start cash position close :
  length position = length close →
  sizes_upto cash position close 1 = replicate (length position) 0.
Proof.
  intros Hlen. apply list_eq. intros t.
  destruct (decide (t < length position)%nat) as [Hlt|Hge].
  - destruct (lookup_lt_is_Some_2 position t Hlt) as [p Hp].
    destruct (lookup_lt_is_Some_2 close t) as [c Hc]; [lia|].
    rewrite (sizes_upto_lookup _ _ _ _ _ _ _ Hp Hc).
    rewrite lookup_replicate_2 by done.
    destruct t as [|t]; [done|]. done.
  - rewrite !(proj2 (lookup_ge_None _ _)); [done| |].
    + rewrite length_replicate. lia.
    + rewrite sizes_upto_length, length_zip. lia.
Qed.

(** One round of the loop on a row that takes the value [size_at]. *)
Lemma sizes_upto_step cash (idx : list Z) position close i p c label v :
  NoDup idx →
  length position = length idx → length close = length idx →
  position !! i = Some p → close !! i = Some c → idx !! i = Some label →
  v = size_at cash i p c →
  zip_with (λ l x, if bool_decide (l = label) then v else x) idx
    (sizes_upto cash position close i)
  = sizes_upto cash position close (S i).
Proof.
  intros Hnd Hlp Hlc Hp Hc Hlabel ->. apply list_eq. intros t.
  rewrite lookup_zip_with.
  destruct (idx !! t) as [lt|] eqn:Hlt; simpl.
  - assert (t < length idx)%nat as Ht by by eapply lookup_lt_Some.
    destruct (lookup_lt_is_Some_2 position t) as [pt Hpt]; [lia|].
    destruct (lookup_lt_is_Some_2 close t) as [ct Hct]; [lia|].
    rewrite !(sizes_upto_lookup _ _ _ _ _ _ _ Hpt Hct). simpl.
    f_equal. case_bool_decide as Heq.
    + subst lt. assert (t = i) as -> by by eapply NoDup_lookup.
      rewrite Hp in Hpt. rewrite Hc in Hct. simplify_eq.
      by rewrite (proj2 (Nat.ltb_lt _ _)) by lia.
    + assert (t ≠ i) as Hne by (intros ->; congruence).
      destruct (t <? i)%nat eqn:H1.
      * apply Nat.ltb_lt in H1. by rewrite (proj2 (Nat.ltb_lt _ _)) by lia.
      * apply Nat.ltb_ge in H1. by rewrite (proj2 (Nat.ltb_ge _ _)) by lia.
  - symmetry. apply lookup_ge_None.
    rewrite sizes_upto_length, length_zip.
    apply lookup_ge_None in Hlt. lia.
Qed.

(** A row without an event keeps the column. *)
Lemma sizes_upto_skip cash position close i p :
  position !! i = Some p → (p =? 2) = false →
  sizes_upto cash position close (S i) = sizes_upto cash position close i.
Proof.
  intros Hp H2. unfold sizes_upto. apply list_eq. intros t.
  rewrite !list_lookup_imap.
  destruct (zip position close !! t) as [[pt ct]|] eqn:Hz; [|done].
  simpl. f_equal.
  destruct (decide (t = i)) as [->|Hne].
  - apply lookup_zip_Some in Hz as [Hpt _]. simpl. simplify_eq.
    rewrite Nat.ltb_irrefl, (proj2 (Nat.ltb_lt _ _)) by lia.
    unfold size_at. by rewrite H2, andb_false_r.
  - destruct (t <? i)%nat eqn:H1.
    + apply Nat.ltb_lt in H1. by rewrite (proj2 (Nat.ltb_lt _ _)) by lia.
    + apply Nat.ltb_ge in H1. by rewrite (proj2 (Nat.ltb_ge _ _)) by lia.
Qed.

(** X28: on a frame with unique labels [calculate_position_size] returns a new
    frame that differs from the one given in the column Position_Size only;
    the column holds, for a buy event after row 0, 95% of the cash divided by
    the close of the row, and 0 on every other row. The frame given stays in
    the store as it was. *)
Theorem position_sizes data (h : heap) df position close cash :
  h !! data = Some df →
  df_columns df !! "Position" = Some position →
  df_columns df !! "Close" = Some close →
  length (to_float position) = length (df_index df) →
  length (to_float close) = length (df_index df) →
  NoDup (df_index df) →
  ∃ sizes,
    calculate_position_size data cash h
    = (Ok (fresh (dom h)),
       <[fresh (dom h) :=
           {| df_index := df_index df;
              df_columns :=
                <["Position_Size" := FloatSeries sizes]> (df_columns df) |}]>
         h)
    ∧ length sizes = length (df_index df)
    ∧ ∀ t p c,
        to_float position !! t = Some p → to_float close !! t = Some c →
        sizes !! t = Some (size_at cash t p c).
Proof.
  intros Hd Hpos Hclose Hlp Hlc Hnd.
  set (n := length (df_index df)).
  set (final := sizes_upto cash (to_float position) (to_float close)
                  (1 + (n - 1))).
  destruct (copy_then_local data
    (λ data,
       n ← len data;
       setitem data "Position_Size" (FloatSeries (replicate n 0));;
       for_ (seq 1 (n - 1)) (λ i,
         position ← getitem data "Position";
         p ← item (to_float position) i;
         if p =? 2 then
           close ← getitem data "Close";
           c ← item (to_float close) i;
           idx ← index data;
           label ← item idx i;
           loc_set data label "Position_Size" (cash * 0.95 / c)
         else
           position ← getitem data "Position";
           p ← item (to_float position) i;
           if p =? -2 then
             idx ← index data;
             label ← item idx i;
             loc_set data label "Position_Size" 0
           else mret tt);;
       mret data)
    (λ l r df', r = Ok l
       ∧ df' = {| df_index := df_index df;
                  df_columns :=
                    <["Position_Size" := FloatSeries final]>
                      (df_columns df) |})
    h df Hd) as (r & df' & Hrun & -> & ->).
  - intros l. apply local_bind, local_len. fold n.
    apply local_bind, local_setitem.
    apply local_bind.
    apply (local_for_seq l _
      (λ i df',
         df' = {| df_index := df_index df;
                  df_columns :=
                    <["Position_Size" :=
                        FloatSeries (sizes_upto cash (to_float position)
                                       (to_float close) i)]>
                      (df_columns df) |})).
    + rewrite sizes_upto_start by congruence. by rewrite Hlp.
    + intros i df0 Hi ->.
      destruct (lookup_lt_is_Some_2 (to_float position) i) as [p Hp];
        [fold n in Hlp; lia|].
      destruct (lookup_lt_is_Some_2 (to_float close) i) as [c Hc];
        [fold n in Hlc; lia|].
      destruct (lookup_lt_is_Some_2 (df_index df) i) as [label Hlabel];
        [fold n; lia|].
      apply local_bind, local_getitem. lookup_cols. rewrite Hpos.
      apply local_bind, local_item. rewrite Hp.
      destruct (p =? 2) eqn:H2.
      * apply local_bind, local_getitem. lookup_cols. rewrite Hclose.
        apply local_bind, local_item. rewrite Hc.
        apply local_bind, local_index.
        apply local_bind, local_item. cbn [df_index]. rewrite Hlabel.
        apply local_loc_set. lookup_cols. cbn [to_float].
        rewrite insert_insert_eq. do 3 f_equal.
        apply (sizes_upto_step cash (df_index df) _ _ i p c); try done.
        unfold size_at. rewrite H2.
        by rewrite (proj2 (Nat.leb_le _ _)) by lia.
      * apply local_bind, local_getitem. lookup_cols. rewrite Hpos.
        apply local_bind, local_item. rewrite Hp.
        destruct (p =? -2) eqn:Hm2.
        -- apply local_bind, local_index.
           apply local_bind, local_item. cbn [df_index]. rewrite Hlabel.
           apply local_loc_set. lookup_cols. cbn [to_float].
           rewrite insert_insert_eq. do 3 f_equal.
           apply (sizes_upto_step cash (df_index df) _ _ i p c); try done.
           unfold size_at. by rewrite H2, andb_false_r.
        -- apply local_ret. do 3 f_equal.
           symmetry. by eapply sizes_upto_skip.
    + intros df0 ->. by apply local_ret.
  - exists final. split; [done|]. split.
    + unfold final. rewrite sizes_upto_length, length_zip. fold n. lia.
    + intros t p c Hp Hc. unfold final.
      rewrite (sizes_upto_lookup _ _ _ _ _ _ _ Hp Hc).
      assert (t < n)%nat as Ht.
      { apply lookup_lt_Some in Hp. fold n in Hlp. lia. }
      by rewrite (proj2 (Nat.ltb_lt _ _)) by lia.
Qed.


Lemma position_sizes_witness :
  ∃ sizes,
    calculate_position_size 1%positive 10000 (store_of sized_frame)
    = (Ok (fresh (dom (store_of sized_frame))),
       <[fresh (dom (store_of sized_frame)) :=
           {| df_index := df_index sized_frame;
              df_columns :=
                <["Position_Size" := FloatSeries sizes]>
                  (df_columns sized_frame) |}]> (store_of sized_frame))
    ∧ length sizes = length (df_index sized_frame)
    ∧ ∀ t p c,
        to_float (FloatSeries [nan; 2; -2; 2]) !! t = Some p →
        to_float (FloatSeries [10; 19; 20; 25]) !! t = Some c →
        sizes !! t = Some (size_at 10000 t p c).
Proof.
  apply (position_sizes 1%positive (store_of sized_frame) sized_frame).
  - reflexivity.
  - reflexivity.
  - reflexivity.
  - reflexivity.
  - reflexivity.
  - apply (bool_decide_unpack _). vm_compute. exact I.
Defined.

(** The body of [calculate_position_size] after the copy. *)
Lemma sizing_unfold data cash :
  calculate_position_size data cash
  = copy data ≫= λ data,
      n ← len data;
      setitem data "Position_Size" (FloatSeries (replicate n 0));;
      for_ (seq 1 (n - 1)) (λ i,
        position ← getitem data "Position";
        p ← item (to_float position) i;
        if p =? 2 then
          close ← getitem data "Close";
          c ← item (to_float close) i;
          idx ← index data;
          label ← item idx i;
          loc_set data label "Position_Size" (cash * 0.95 / c)
        else
          position ← getitem data "Position";
          p ← item (to_float position) i;
          if p =? -2 then
            idx ← index data;
            label ← item idx i;
            loc_set data label "Position_Size" 0
          else mret tt);;
      mret data.
Proof. reflexivity. Qed.

(** X29: without a Position column [calculate_position_size] raises the
    KeyError of that column as soon as the frame has two rows; a frame of one
    row or none gets its column of zeros, since the loop starts at row 1. *)
Theorem sizing_without_events data (h : heap) df cash :
  h !! data = Some df →
  df_columns df !! "Position" = None →
  ((length (df_index df) ≤ 1)%nat →
   calculate_position_size data cash h
   = (Ok (fresh (dom h)),
      <[fresh (dom h) :=
          {| df_index := df_index df;
             df_columns :=
               <["Position_Size" :=
                   FloatSeries (replicate (length (df_index df)) 0)]>
                 (df_columns df) |}]> h))
  ∧ ((2 ≤ length (df_index df))%nat →
     (calculate_position_size data cash h).1 = Raise (KeyError "Position")).
Proof.
  intros Hd Hpos. rewrite sizing_unfold. split; intros Hn.
  - match goal with
    | |- context [(copy data ≫= ?k) h] =>
        destruct (copy_then_local data k
          (λ l r df', r = Ok l
             ∧ df' = {| df_index := df_index df;
                        df_columns :=
                          <["Position_Size" :=
                              FloatSeries
                                (replicate (length (df_index df)) 0)]>
                            (df_columns df) |})
          h df Hd) as (r & df' & -> & -> & ->)
    end; [|done].
    intros l. apply local_bind, local_len.
    apply local_bind, local_setitem.
    replace (length (df_index df) - 1)%nat with 0%nat by lia.
    apply local_bind, local_ret. by apply local_ret.
  - match goal with
    | |- context [(copy data ≫= ?k) h] =>
        destruct (copy_then_local data k
          (λ l r df', r = Raise (KeyError "Position")) h df Hd)
          as (r & df' & -> & ->)
    end; [|done].
    intros l. apply local_bind, local_len.
    apply local_bind, local_setitem.
    destruct (length (df_index df)) as [|[|n]] eqn:Hlen; [lia|lia|].
    cbn [Nat.sub seq for_].
    apply local_bind, local_bind, local_bind, local_getitem.
    lookup_cols. by rewrite Hpos.
Qed.

Lemma sizing_without_events_witness :
  ((length (df_index no_close_frame) ≤ 1)%nat →
   calculate_position_size 1%positive 10000 (store_of no_close_frame)
   = (Ok (fresh (dom (store_of no_close_frame))),
      <[fresh (dom (store_of no_close_frame)) :=
          {| df_index := df_index no_close_frame;
             df_columns :=
               <["Position_Size" :=
                   FloatSeries
                     (replicate (length (df_index no_close_frame)) 0)]>
                 (df_columns no_close_frame) |}]> (store_of no_close_frame)))
  ∧ ((2 ≤ length (df_index no_close_frame))%nat →
     (calculate_position_size 1%positive 10000
        (store_of no_close_frame)).1 = Raise (KeyError "Position")).
Proof.
  apply (sizing_without_events 1%positive (store_of no_close_frame)
           no_close_frame).
  - reflexivity.
  - reflexivity.
Defined.

(** X30: the Close column is read on buy rows only: on a frame with events but
    without closes, [calculate_position_size] returns exactly when no row
    after the first carries a buy event, and raises the KeyError of Close
    otherwise. *)
Theorem sizing_without_closes data (h : heap) df position cash :
  h !! data = Some df →
  df_columns df !! "Position" = Some position →
  length (to_float position) = length (df_index df) →
  df_columns df !! "Close" = None →
  match (calculate_position_size data cash h).1 with
  | Ok out => out = fresh (dom h) ∧ ∀ t, ¬ buy_row (to_float position) t
  | Raise e => e = KeyError "Close" ∧ ∃ t, buy_row (to_float position) t
  end.
Proof.
  intros Hd Hpos Hlp Hclose. rewrite sizing_unfold.
  set (n := length (df_index df)) in *.
  match goal with
  | |- context [(copy data ≫= ?k) h] =>
      destruct (copy_then_local data k
        (λ l r df',
           match r with
           | Ok out => out = l ∧ ∀ t, ¬ buy_row (to_float position) t
           | Raise e =>
               e = KeyError "Close" ∧ ∃ t, buy_row (to_float position) t
           end)
        h df Hd) as (r & df' & -> & Hpost)
  end; [|done].
  intros l. apply local_bind, local_len. fold n.
  apply local_bind, local_setitem.
  apply local_bind.
  apply (local_for_seq l _
    (λ i df',
       df_index df' = df_index df
       ∧ (∃ sizes, df_columns df'
                   = <["Position_Size" := FloatSeries sizes]> (df_columns df))
       ∧ ∀ t, (t < i)%nat → ¬ buy_row (to_float position) t)).
  - split; [done|]. split; [by eexists|].
    intros t Ht [H1 _]. lia.
  - intros i df0 Hi (Hidx & [sizes Hcols] & Hnone).
    destruct (lookup_lt_is_Some_2 (to_float position) i) as [p Hp]; [lia|].
    destruct (lookup_lt_is_Some_2 (df_index df) i) as [label Hlabel];
      [fold n; lia|].
    apply local_bind, local_getitem. rewrite Hcols. lookup_cols.
    rewrite Hpos.
    apply local_bind, local_item. rewrite Hp.
    assert ((p =? 2) = false → ∀ t, (t < S i)%nat →
                 ¬ buy_row (to_float position) t) as Hnext.
    { intros H2 t Ht. destruct (decide (t = i)) as [->|Hne].
      - intros (_ & p' & Hp' & H2'). congruence.
      - apply Hnone. lia. }
    destruct (p =? 2) eqn:H2.
    + apply local_bind, local_getitem. rewrite Hcols. lookup_cols.
      rewrite Hclose. split; [done|]. exists i. split; [lia|]. eauto.
    + specialize (Hnext eq_refl).
      apply local_bind, local_getitem. rewrite Hcols. lookup_cols.
      rewrite Hpos.
      apply local_bind, local_item. rewrite Hp.
      destruct (p =? -2).
      * apply local_bind, local_index.
        apply local_bind, local_item. rewrite Hidx, Hlabel.
        apply local_loc_set. rewrite Hcols. lookup_cols.
        split; [done|]. split; [|done].
        eexists. by rewrite insert_insert_eq.
      * apply local_ret. split; [done|]. split; [by eexists|]. done.
  - intros df0 (_ & _ & Hnone). apply local_ret. split; [done|].
    intros t Hbuy. destruct (decide (t < 1 + (n - 1))%nat) as [Hlt|Hge].
    + by apply (Hnone t).
    + destruct Hbuy as (H1 & p & Hp & _). apply lookup_lt_Some in Hp. lia.
Qed.

Lemma sizing_without_closes_witness :
  match (calculate_position_size 1%positive 10000
           (store_of events_only_frame)).1 with
  | Ok out =>
      out = fresh (dom (store_of events_only_frame))
      ∧ ∀ t, ¬ buy_row (to_float (FloatSeries [nan; -2; 2])) t
  | Raise e =>
      e = KeyError "Close"
      ∧ ∃ t, buy_row (to_float (FloatSeries [nan; -2; 2])) t
  end.
Proof.
  apply (sizing_without_closes 1%positive (store_of events_only_frame)
           events_only_frame).
  - reflexivity.
  - reflexivity.
  - reflexivity.
  - reflexivity.
Defined.

End sizing.

(** ** Counts as binary64 values, and the quotient of a value by itself *)

Section float_counts.
Local Open Scope Z_scope.









End float_counts.

(** ** Sums as numpy adds them *)

Section numpy_sums.
Local Open Scope float_scope.

(** The fuel of [pairwise_sum] does not matter once it is the length of the
    array or more. *)
Lemma pairwise_sum_fuel f1 : ∀ f2 a,
  length a ≤ f1 → length a ≤ f2 → pairwise_sum f1 a = pairwise_sum f2 a.
Proof.
  induction f1 as [|f1 IH]; intros f2 a H1 H2.
  - destruct a; [|simpl in H1; lia]. by destruct f2.
  - destruct f2 as [|f2].
    { destruct a; [done|simpl in H2; lia]. }
    cbn [pairwise_sum].
    destruct (length a <? 8)%nat eqn:H8; [done|].
    destruct (length a <=? 128)%nat eqn:H128; [done|].
    apply Nat.leb_gt in H128.
    assert (1 ≤ length a / 2 - (length a / 2) mod 8
            ∧ length a / 2 - (length a / 2) mod 8 < length a) as [Hlo Hhi].
    { pose proof (Nat.mod_upper_bound (length a / 2) 8 ltac:(lia)).
      pose proof (Nat.div_lt (length a) 2 ltac:(lia) ltac:(lia)).
      assert (64 ≤ length a / 2)
        by (apply Nat.div_le_lower_bound; lia).
      lia. }
    f_equal; apply IH; rewrite ?length_take, ?length_drop; lia.
Qed.






End numpy_sums.

(** ** The metrics of a ledger that never moves *)

Section constant_ledgers.
Import Backtester.
Local Open Scope float_scope.








End constant_ledgers.
